(** * AzadiDNSTester

    A shallow embedding of [AzadiDNSTester.py]: the address check done by
    [socket.inet_aton], the probe [test_single_server], the sink
    [write_header] / [real_time_save] and the engine [check_dns_servers];
    then the prompts, the loader [load_servers] /
    [create_sample_servers], and the session with [main].

    Conventions of the embedding.
    - Python floats are exact rationals ([Q]).  The examples in which
      two latencies are compared for equality use a clock whose values
      are multiples of 1/128: its values, their differences and the
      latencies made of them are exact in binary floating point too.
    - Python exceptions are values; a computation either returns or raises
      ([outcome]), and the mutable world (clock reads, the file
      working_dns.txt, the console, the DNS queries sent) is threaded
      explicitly ([State]).
    - What the program asks of its surroundings is read from oracles
      ([Env]): the clock, the reply of the name server, whether building
      the resolver or writing the file raises, and the order in which the
      pool yields its futures.  [socket.inet_aton] hands the text to the
      routine of the C library, which is written out ([Inet]).
    - The thread pool is modelled by a linearisation: the loop takes the
      futures in the order in which [as_completed] yields them
      ([next_done]), and each probe is run in one piece at the moment its
      future is taken.  The order of [working], of [failed] and of what
      the loop prints is the order of the program.  In the program the
      probes run in the threads of the pool before they are yielded: the
      order in which the queries go on the wire, and the order of the
      records of different probes in the file, are those of the threads
      and not the one of this model, so the theorems speak of the queries
      and of the records of a run up to a permutation only.  In the same
      way a probe reads the clock when its thread gets there; what is
      proved of a latency is proved of the two reads it is made of.
    - [load_servers] and the prompts are inputs of the engine:
      [check_dns_servers] takes the list of servers and the configuration
      they return.  They have their own part of the world ([Loader],
      [Console]); [Session] puts the three together. *)

From Stdlib Require Import Ascii String QArith Qround Qabs Sorted.
From stdpp Require Import base decidable strings list gmap pretty.

Local Open Scope string_scope.
Local Open Scope list_scope.

(** ** Exceptions *)

Module Exc.

(** The exception classes the program can meet, with the base class
    each one derives from ([socket.error] is [OSError];
    [dns.resolver.Timeout] is [dns.exception.Timeout]).  [Exception]
    also stands for its subclasses that are not listed. *)
Inductive pyclass :=
| Exception
| OSError
| DNSException
| NXDOMAIN
| DnsTimeout
| NoAnswer
| NameError
| UnboundLocalError
| LookupError
| IndexError
| StopIteration
| TypeError
| ValueError.

#[global] Instance pyclass_eq_dec : EqDecision pyclass.
Proof. solve_decision. Defined.

Definition base (c : pyclass) : option pyclass :=
  match c with
  | Exception => None
  | OSError | DNSException | NameError | LookupError
  | StopIteration | TypeError | ValueError => Some Exception
  | NXDOMAIN | DnsTimeout | NoAnswer => Some DNSException
  | UnboundLocalError => Some NameError
  | IndexError => Some LookupError
  end.

(** [issubclass c b]: the class hierarchy above has depth three. *)
Definition issubclass (c b : pyclass) : bool :=
  bool_decide (c = b)
  || bool_decide (base c = Some b)
  || bool_decide (base c ≫= base = Some b).

(** A raised exception: its class and the text [str(e)] gives. *)
Record exn := Exn { class_of : pyclass; str : string }.

Definition isinstance (e : exn) (b : pyclass) : bool :=
  issubclass (class_of e) b.

End Exc.
Export Exc.

(** ** The world *)

(** How a call ends: with a value, or with an exception. *)
Inductive outcome (A : Type) :=
| Ret (a : A)
| Raise (e : exn).
Arguments Ret {A} a.
Arguments Raise {A} e.

(** What a run cannot decide itself. *)
Record Env := {
  (** the value of the [n]-th call of [time.time()] *)
  clock : nat -> Q;
  (** [resolver.resolve(domain, 'A')] with [nameservers = [server]] and
      [timeout = lifetime = timeout]: the text of each answer, in the
      order returned, or the exception raised *)
  dns_reply : string -> string -> Z -> outcome (list string);
  (** building the resolver for a server, lines 188 to 191
      ([Resolver(configure=False)] and the assignments of [nameservers],
      [timeout] and [lifetime]), which sit outside the [try]: [None]
      when nothing is raised, [Some e] when [e] is *)
  resolver_fault : string -> Z -> option exn;
  (** the [n]-th [open(filepath, 'a')] and write: [None] when it goes
      through, [Some e] when it raises [e] *)
  append_fault : nat -> option exn;
  (** [open(filepath, 'w')] and the writes of the header: [None] when
      they all go through; [Some (e, None)] when the open raises [e],
      which leaves the file as it was; [Some (e, Some n)] when the file
      was opened, which empties it, and [e] is raised when [n] of the
      lines have reached it (the file is kept as its lines, so what
      reached it is counted in lines) *)
  header_fault : option (exn * option nat);
  (** [datetime.now().strftime("%y-%m-%d %H:%M:%S")] *)
  now_text : string;
  (** the pool: which of the pending futures is the next one done *)
  next_done : nat -> nat
}.

(** What a run changes: the count of clock reads and of appends tried,
    the lines of working_dns.txt, the lines printed, and the queries sent
    (name server, name asked, timeout). *)
Record State := {
  clock_reads : nat;
  append_calls : nat;
  working_dns_txt : list string;
  stdout : list string;
  wire : list (string * string * Z)
}.

Definition reads (k : nat) (st : State) : State :=
  {| clock_reads := k + clock_reads st;
     append_calls := append_calls st;
     working_dns_txt := working_dns_txt st;
     stdout := stdout st;
     wire := wire st |}.

Definition tried_append (st : State) : State :=
  {| clock_reads := clock_reads st;
     append_calls := S (append_calls st);
     working_dns_txt := working_dns_txt st;
     stdout := stdout st;
     wire := wire st |}.

Definition with_file (lines : list string) (st : State) : State :=
  {| clock_reads := clock_reads st;
     append_calls := append_calls st;
     working_dns_txt := lines;
     stdout := stdout st;
     wire := wire st |}.

Definition printed (line : string) (st : State) : State :=
  {| clock_reads := clock_reads st;
     append_calls := append_calls st;
     working_dns_txt := working_dns_txt st;
     stdout := stdout st ++ [line];
     wire := wire st |}.

Definition sent (query : string * string * Z) (st : State) : State :=
  {| clock_reads := clock_reads st;
     append_calls := append_calls st;
     working_dns_txt := working_dns_txt st;
     stdout := stdout st;
     wire := wire st ++ [query] |}.

(** Computations: a state and exception monad. *)
Definition Py (A : Type) : Type := State -> outcome A * State.

#[global] Instance Py_ret : MRet Py := λ A a st, (Ret a, st).

#[global] Instance Py_bind : MBind Py := λ A B k m st,
  match m st with
  | (Ret a, st') => k a st'
  | (Raise e, st') => (Raise e, st')
  end.

Definition raise {A} (e : exn) : Py A := λ st, (Raise e, st).

(** [try: body except C1: h1 except C2: h2 ...]: the first clause whose
    class the exception is an instance of handles it; with no such clause
    the exception goes on. *)
Fixpoint dispatch {A} (e : exn) (clauses : list (pyclass * (exn -> Py A)))
  : Py A :=
  match clauses with
  | [] => raise e
  | (c, h) :: rest => if isinstance e c then h e else dispatch e rest
  end.

Definition try_except {A} (body : Py A)
    (clauses : list (pyclass * (exn -> Py A))) : Py A :=
  fun st =>
    match body st with
    | (Ret a, st') => (Ret a, st')
    | (Raise e, st') => dispatch e clauses st'
    end.

(** ** [socket.inet_aton]

    The C library routine behind [socket.inet_aton]: numbers are read as
    in C (0x hexadecimal, leading 0 octal, otherwise decimal), one to four
    of them separated by dots, the last one filling the remaining bytes;
    white space may follow. *)
Module Inet.

Definition isdigit (c : ascii) : bool :=
  let n := N_of_ascii c in ((48 <=? n) && (n <=? 57))%N.

Definition isxdigit (c : ascii) : bool :=
  let n := N_of_ascii c in
  (isdigit c || ((97 <=? n) && (n <=? 102)) || ((65 <=? n) && (n <=? 70)))%N.

Definition isspace (c : ascii) : bool :=
  let n := N_of_ascii c in ((n =? 32) || ((9 <=? n) && (n <=? 13)))%N.

(** The value of [c] as a digit in base [b], if it is one. *)
Definition digit_val (b : N) (c : ascii) : option N :=
  let n := N_of_ascii c in
  let v := (if isdigit c then n - 48
            else if (97 <=? n) && (n <=? 102) then n - 87
            else if (65 <=? n) && (n <=? 70) then n - 55
            else 16)%N in
  if (v <? b)%N then Some v else None.

Fixpoint digits (b : N) (acc : N) (s : string) : N * string :=
  match s with
  | String c s' =>
      match digit_val b c with
      | Some d => digits b (acc * b + d)%N s'
      | None => (acc, s)
      end
  | EmptyString => (acc, s)
  end.

(** [strtoul(cp, &endp, 0)] on a string that starts with a digit: the
    number read and the rest of the string. *)
Definition strtoul (cp : string) : N * string :=
  match cp with
  | String "0" (String x (String h rest as hex)) =>
      if (bool_decide (x = "x"%char) || bool_decide (x = "X"%char))
         && isxdigit h
      then digits 16 0 hex
      else digits 8 0 cp
  | String "0" _ => digits 8 0 cp
  | _ => digits 10 0 cp
  end.

(** The largest last number, by the count of parts already stored. *)
Definition max_last (stored : nat) : N :=
  match stored with
  | 0%nat => 0xffffffff%N
  | 1%nat => 0xffffff%N
  | 2%nat => 0xffff%N
  | _ => 0xff%N
  end.

Definition pack (bytes : list N) (val : N) : N :=
  (foldl (fun acc b => acc * 256 + b) 0 bytes
     * 256 ^ (4 - N.of_nat (length bytes)) + val)%N.

Definition trailing_ok (endp : string) : bool :=
  match endp with
  | EmptyString => true
  | String c _ => bool_decide (N_of_ascii c < 128)%N && isspace c
  end.

(** The loop of [inet_aton]; [room] counts the bytes that may still be
    stored before the last number (three at the start). *)
Fixpoint loop (room : nat) (bytes : list N) (cp : string) : option N :=
  match cp with
  | String c _ =>
      if isdigit c then
        let '(val, endp) := strtoul cp in
        if (0xffffffff <? val)%N then None
        else
          match endp with
          | String "." rest =>
              match room with
              | S room' =>
                  if (0xff <? val)%N then None
                  else loop room' (bytes ++ [val]) rest
              | O => None
              end
          | _ =>
              if trailing_ok endp && (val <=? max_last (length bytes))%N
              then Some (pack bytes val)
              else None
          end
      else None
  | EmptyString => None
  end.

Definition inet_aton (ip_string : string) : option N := loop 3 [] ip_string.

End Inet.

(** The text holds a NUL character. *)
Fixpoint has_nul (s : string) : bool :=
  match s with
  | String c s' => bool_decide (c = "000"%char) || has_nul s'
  | EmptyString => false
  end.

(** ** Formatting

    [f"{x:.0f}"]: the nearest integer, ties to even, with the sign of [x].
    The text is the one of the exact value; Python formats the binary
    float next to it, which can fall on the other side of a half. *)
Definition fmt_0f (x : Q) : string :=
  let a := Qabs x in
  let n := Qfloor a in
  let m := match (a - inject_Z n ?= 1 # 2)%Q with
           | Lt => n
           | Gt => (n + 1)%Z
           | Eq => if Z.even n then n else (n + 1)%Z
           end in
  (if Qle_bool 0 x then "" else "-") +:+ pretty (Z.to_N m).

(** ** The program *)

(** The triple [test_single_server] returns: success, [(server,
    response_time)] and the message. *)
Definition probe_result : Type := bool * (string * option Q) * string.

Definition firewall_ips : gset string :=
  {[ "10.10.34.34"; "10.10.34.35"; "10.10.34.36" ]}.

(** [any(ip in firewall_ips for ip in returned_ips)] *)
Definition firewall_found (returned_ips : list string) : bool :=
  existsb (λ ip, bool_decide (ip ∈ firewall_ips)) returned_ips.

Section Program.

Context (env : Env).

(** *** Primitive effects *)

Definition time_time : Py Q := λ st,
  (Ret (clock env (clock_reads st)), reads 1 st).

Definition print (line : string) : Py () := λ st,
  (Ret (), printed line st).

(** [socket.inet_aton(ip_string)].  The text goes to the routine of the
    C library as a C string: a text with a NUL character in it is refused
    before the routine is called, with [ValueError], which is no
    [OSError]; what the routine refuses is refused with [OSError]. *)
Definition socket_inet_aton (ip_string : string) : Py N :=
  if has_nul ip_string
  then raise (Exn ValueError "embedded null character")
  else
    match Inet.inet_aton ip_string with
    | Some packed => mret packed
    | None =>
        raise (Exn OSError "illegal IP address string passed to inet_aton")
    end.

(** [resolver = dns.resolver.Resolver(configure=False)] and the three
    assignments that follow. *)
Definition new_resolver (server : string) (timeout : Z) : Py () := λ st,
  match resolver_fault env server timeout with
  | Some e => (Raise e, st)
  | None => (Ret (), st)
  end.

(** The query goes on the wire, then the reply (or the failure) comes. *)
Definition resolver_resolve (server domain : string) (timeout : Z)
  : Py (list string) := λ st,
  (dns_reply env server domain timeout, sent (server, domain, timeout) st).

(** [with open(filepath, 'a') as f: f.write(line)], [line] ending in a
    newline; a failing open leaves the file as it was. *)
Definition open_a_write (line : string) : Py () := λ st,
  match append_fault env (append_calls st) with
  | Some e => (Raise e, tried_append st)
  | None =>
      (Ret (), with_file (working_dns_txt st ++ [line]) (tried_append st))
  end.

(** [with open(filepath, 'w') as f:] followed by the writes of [lines].
    Opening the file for writing empties it, so a failure after the open
    leaves of the file what had been written by then. *)
Definition open_w_write (lines : list string) : Py () := λ st,
  match header_fault env with
  | None => (Ret (), with_file lines st)
  | Some (e, None) => (Raise e, st)
  | Some (e, Some n) => (Raise e, with_file (take n lines) st)
  end.

(** [answers[0]] *)
Definition getitem_0 (answers : list string) : Py string :=
  match answers with
  | a :: _ => mret a
  | [] => raise (Exn IndexError "list index out of range")
  end.

(** [next(ip for ip in returned_ips if ip in firewall_ips)] *)
Definition next_fw (returned_ips : list string) : Py string :=
  match filter (.∈ firewall_ips) returned_ips with
  | ip :: _ => mret ip
  | [] => raise (Exn StopIteration "")
  end.

(** Reading a local variable: [None] is a slot no assignment has
    filled yet. *)
Definition load_name {A} (name : string) (slot : option A) : Py A :=
  match slot with
  | Some v => mret v
  | None =>
      raise (Exn UnboundLocalError
               ("cannot access local variable '" +:+ name
                +:+ "' where it is not associated with a value"))
  end.

(** *** The sink *)

Definition write_header (test_domain : string) (include_firewall : bool)
  : Py () :=
  let timestamp := now_text env in
  let filter_mode := if include_firewall then "including all responses"
                     else "filtering firewall responses" in
  try_except
    (open_w_write
       [ "# working dns servers - tested: " +:+ timestamp;
         "# test domain: " +:+ test_domain;
         "# mode: " +:+ filter_mode
           +:+ " - 10.10.34.34, 10.10.34.35, 10.10.34.36";
         "# format: ip (response_time_ms) [firewall: fw_ip]" ];;
     print "header written to working_dns.txt")
    [ (Exception, λ e, print ("header write error: " +:+ str e)) ].

Definition real_time_save (server_info : string) : Py () :=
  try_except
    (open_a_write server_info)
    [ (Exception, λ e, print ("real-time save error: " +:+ str e)) ].

(** *** The probe *)

Definition test_single_server (server domain : string) (timeout : Z)
    (include_firewall : bool) : Py probe_result :=
  invalid ← try_except
    (socket_inet_aton server;; mret None)
    [ (OSError,
       λ _, mret (Some (false, (server, None), server +:+ " invalid ip"))) ];
  match invalid with
  | Some early => mret early
  | None =>
    start_time ← time_time;
    new_resolver server timeout;;
    let failed_with (words : string) : exn → Py probe_result := λ _,
      now ← time_time;
      let response_time := ((now - start_time) * 1000)%Q in
      mret (false, (server, Some response_time), server +:+ words) in
    try_except
      (answers ← resolver_resolve server domain timeout;
       now ← time_time;
       let response_time := ((now - start_time) * 1000)%Q in
       let returned_ips := answers in
       let found := firewall_found returned_ips in
       first_ip ← getitem_0 answers;
       if found then
         first_fw ← next_fw returned_ips;
         if include_firewall then
           let server_info :=
             server +:+ " (firewall:" +:+ first_fw +:+ ") ("
               +:+ fmt_0f response_time +:+ "ms)" in
           real_time_save server_info;;
           mret (true, (server, Some response_time),
                 server +:+ " firewall blocked " +:+ fmt_0f response_time
                   +:+ "ms (" +:+ first_fw +:+ ")")
         else
           mret (false, (server, Some response_time),
                 server +:+ " firewall blocked (" +:+ first_fw +:+ ")")
       else
         (* no assignment to first_fw was run on this path *)
         first_fw ← load_name "first_fw" None;
         let server_info :=
           server +:+ " (" +:+ first_fw +:+ ") ("
             +:+ fmt_0f response_time +:+ "ms)" in
         real_time_save server_info;;
         mret (true, (server, Some response_time),
               server +:+ " ok " +:+ fmt_0f response_time
                 +:+ "ms (" +:+ first_ip +:+ ")"))
      [ (NXDOMAIN, failed_with " nxdomain");
        (DnsTimeout, failed_with " timeout");
        (NoAnswer, failed_with " no answer");
        (DNSException, failed_with " dns error");
        (Exception, failed_with " error") ]
  end.

(** *** The engine *)

(** [as_completed]: the futures in the order in which they are yielded.
    At each step the pool decides which of the pending ones is next. *)
Fixpoint as_completed {A} (step n : nat) (pending : list A) : list A :=
  match n with
  | O => []
  | S n' =>
      let i := (next_done env step mod length pending)%nat in
      match pending !! i with
      | Some future => future :: as_completed (S step) n' (delete i pending)
      | None => []
      end
  end.

(** [not (y[1] < x[1])], for two entries that both have a latency. *)
Definition key_le (x y : string * option Q) : bool :=
  match x.2, y.2 with
  | Some a, Some b => Qle_bool a b
  | _, _ => true
  end.

Fixpoint insert_sorted (x : string * option Q)
    (l : list (string * option Q)) : list (string * option Q) :=
  match l with
  | [] => [x]
  | y :: l' => if key_le x y then x :: y :: l' else y :: insert_sorted x l'
  end.

Definition stable_sort (l : list (string * option Q))
  : list (string * option Q) :=
  foldr insert_sorted [] l.

(** [sorted(l, key=lambda x: x[1])]: a stable sort by [<] on the keys;
    comparing [None] raises [TypeError], and with two entries or more
    every key is compared. *)
Definition sorted (l : list (string * option Q))
  : Py (list (string * option Q)) :=
  if bool_decide (2 ≤ length l)%nat
     && existsb (λ x, bool_decide (x.2 = None)) l
  then raise (Exn TypeError
         "'<' not supported between instances of 'NoneType' and 'float'")
  else mret (stable_sort l).

(** The body of [for future in as_completed(future_to_server)].  A
    future is the computation submitted to the pool, paired with the
    server [future_to_server] keeps for it; [future.result()] gives
    what the computation returned or raises what it raised.  The two
    lists are [working] and [failed]. *)
Definition collect (lists : list (string * option Q) * list string)
    (future_server : Py probe_result * string)
  : Py (list (string * option Q) * list string) :=
  let '(working, failed) := lists in
  let '(future, server) := future_server in
  try_except
    ('(success, result, message) ← future;
     let '(server_ip, response_time) := result in
     if success : bool then
       print ("✅ " +:+ message);;
       mret (working ++ [result], failed)
     else
       print ("❌ " +:+ message);;
       mret (working, failed ++ [server_ip]))
    [ (Exception,
       λ _, print ("❌ crash " +:+ server);;
            mret (working, failed ++ [server])) ].

Fixpoint for_each {A B} (body : B → A → Py B) (acc : B) (l : list A)
  : Py B :=
  match l with
  | [] => mret acc
  | x :: l' => acc' ← body acc x; for_each body acc' l'
  end.

End Program.

(** What the interactive prompts return.  [workers] bounds how many
    probes are in flight at once; it has no part in the order in which
    their futures are yielded, which [next_done] gives. *)
Record Config := {
  workers : Z;
  timeout : Z;
  domain : string;
  include_firewall : bool
}.

(** What [check_dns_servers] prints under RESULTS (the counts, the rate,
    the time and the five fastest), and the list it returns, [working].
    The banners and the summary lines themselves are not put on
    [stdout]. *)
Record Report := {
  total_tested : nat;
  working : list (string * option Q);
  failed : list string;
  success_rate : Q;
  elapsed : Q;
  top5 : list (string * option Q)
}.

Section Engine.

Context (env : Env).

(** [servers] is what [load_servers] returned and [cfg] what the
    prompts returned.  On the early exit nothing is tested and the
    function returns the empty list. *)
Definition check_dns_servers (servers : list string) (cfg : Config)
  : Py Report :=
  match servers with
  | [] =>
      print "no servers to test. exiting.";;
      mret {| total_tested := 0; working := []; failed := [];
              success_rate := 0; elapsed := 0; top5 := [] |}
  | _ :: _ =>
      write_header env (domain cfg) (include_firewall cfg);;
      start_time ← time_time env;
      let future_to_server :=
        (λ server,
           (test_single_server env server (domain cfg) (timeout cfg)
              (include_firewall cfg), server)) <$> servers in
      '(working, failed) ←
        for_each collect ([], [])
          (as_completed env 0 (length future_to_server) future_to_server);
      now ← time_time env;
      let elapsed := (now - start_time)%Q in
      let success_rate :=
        (inject_Z (Z.of_nat (length working))
           / inject_Z (Z.of_nat (length servers)) * 100)%Q in
      top ← match working with
            | [] => mret []
            | _ :: _ =>
                sorted_working ← sorted working;
                mret (take 5 sorted_working)
            end;
      mret {| total_tested := length servers; working := working;
              failed := failed; success_rate := success_rate;
              elapsed := elapsed; top5 := top |}
  end.

End Engine.

(** ** The vocabulary of the specification *)

(** A well-formed dotted quad, as [load_servers] recognises one: the
    whole string matches [ip_pattern], four fields
    [25[0-5]|2[0-4][0-9]|[01]?[0-9][0-9]?] separated by dots. *)
Module Pattern.

Definition in_range (lo hi : ascii) (c : ascii) : bool :=
  ((N_of_ascii lo <=? N_of_ascii c) && (N_of_ascii c <=? N_of_ascii hi))%N.

Definition octet (field : string) : bool :=
  match field with
  | String a EmptyString => in_range "0" "9" a
  | String a (String b EmptyString) =>
      in_range "0" "9" a && in_range "0" "9" b
  | String a (String b (String c EmptyString)) =>
      (bool_decide (a = "2"%char) && bool_decide (b = "5"%char)
         && in_range "0" "5" c)
      || (bool_decide (a = "2"%char) && in_range "0" "4" b
            && in_range "0" "9" c)
      || (in_range "0" "1" a && in_range "0" "9" b && in_range "0" "9" c)
  | _ => false
  end.

(** The fields between the dots. *)
Fixpoint fields (s : string) : list string :=
  match s with
  | EmptyString => [EmptyString]
  | String c s' =>
      if bool_decide (c = "."%char) then EmptyString :: fields s'
      else match fields s' with
           | f :: fs => String c f :: fs
           | [] => [String c EmptyString]
           end
  end.

Definition dotted_quad (s : string) : bool :=
  match fields s with
  | [a; b; c; d] => octet a && octet b && octet c && octet d
  | _ => false
  end.

End Pattern.

(** The outcomes the specification names, over the latency in
    milliseconds, and the triple the program returns for each. *)
Module Spec.

Inductive kind := dns | unknown.

Inductive ProbeOutcome :=
| Success (latency : Q) (resolvedAddress : string)
| FirewallBlocked (latency : Q) (sentinelAddress : string) (accepted : bool)
| TimedOut (latency : Q)
| NXDomain (latency : Q)
| NoAnswer (latency : Q)
| ProtocolError (latency : Q) (k : kind)
| InvalidAddress.

Definition latency (o : ProbeOutcome) : option Q :=
  match o with
  | Success rt _ | FirewallBlocked rt _ _ | TimedOut rt | NXDomain rt
  | NoAnswer rt | ProtocolError rt _ => Some rt
  | InvalidAddress => None
  end.

Definition encode (server : string) (o : ProbeOutcome) : probe_result :=
  match o with
  | Success rt ip =>
      (true, (server, Some rt),
       server +:+ " ok " +:+ fmt_0f rt +:+ "ms (" +:+ ip +:+ ")")
  | FirewallBlocked rt fw true =>
      (true, (server, Some rt),
       server +:+ " firewall blocked " +:+ fmt_0f rt
         +:+ "ms (" +:+ fw +:+ ")")
  | FirewallBlocked rt fw false =>
      (false, (server, Some rt),
       server +:+ " firewall blocked (" +:+ fw +:+ ")")
  | TimedOut rt => (false, (server, Some rt), server +:+ " timeout")
  | NXDomain rt => (false, (server, Some rt), server +:+ " nxdomain")
  | NoAnswer rt => (false, (server, Some rt), server +:+ " no answer")
  | ProtocolError rt dns =>
      (false, (server, Some rt), server +:+ " dns error")
  | ProtocolError rt unknown =>
      (false, (server, Some rt), server +:+ " error")
  | InvalidAddress => (false, (server, None), server +:+ " invalid ip")
  end.

(** The failure variant of an exception, by the order of the [except]
    clauses of the probe. *)
Definition failure_of (e : exn) (rt : Q) : ProbeOutcome :=
  if isinstance e NXDOMAIN then NXDomain rt
  else if isinstance e DnsTimeout then TimedOut rt
  else if isinstance e Exc.NoAnswer then NoAnswer rt
  else if isinstance e DNSException then ProtocolError rt dns
  else ProtocolError rt unknown.

(** The classifier in the words of the specification: the first
    answer, in the order returned, that is a sentinel. *)
Fixpoint first_sentinel (answers : list string) : option string :=
  match answers with
  | [] => None
  | ip :: rest =>
      if bool_decide (ip ∈ firewall_ips) then Some ip
      else first_sentinel rest
  end.

(** Working: the outcomes the engine puts in [working]. *)
Definition counts_as_working (o : ProbeOutcome) : bool :=
  match o with
  | Success _ _ | FirewallBlocked _ _ true => true
  | _ => false
  end.

End Spec.

(** The latency between the [n]-th read of the clock and the read [k]
    later, in milliseconds. *)
Definition elapsed_ms (env : Env) (n k : nat) : Q :=
  ((clock env (k + n) - clock env n) * 1000)%Q.

(** ** Scenarios

    Concrete worlds for the examples below: a clock that advances about
    ten milliseconds per read, a resolver given by a table, a disk that
    either takes every append or refuses them all. *)
Module Scenario.

(** 5/512 of a second per read: the values of the clock and the
    latencies made of them (9.765625 ms between two reads that follow
    each other) are exact in binary floating point. *)
Definition steady_clock (n : nat) : Q := (5 * Z.of_nat n # 512)%Q.

(** A clock that is set back after its first read: one second at the
    first read, then as [steady_clock]. *)
Definition set_back_clock (n : nat) : Q :=
  match n with
  | O => 1
  | S _ => steady_clock n
  end.


Definition fresh : State :=
  {| clock_reads := 0; append_calls := 0; working_dns_txt := [];
     stdout := []; wire := [] |}.

Definition world (reply : string → outcome (list string))
    (disk : option exn) (order : nat → nat) : Env :=
  {| clock := steady_clock;
     dns_reply := λ server _ _, reply server;
     resolver_fault := λ _ _, None;
     append_fault := λ _, disk;
     header_fault := None;
     now_text := "26-01-01 00:00:00";
     next_done := order |}.

Definition first_pending : nat → nat := λ _, 0%nat.
Definition second_pending : nat → nat := λ _, 1%nat.


(** Every server answers with one ordinary address. *)
Definition resolves_normally : Env :=
  world (λ _, Ret ["93.184.216.34"]) None first_pending.

(** Every server answers with a sentinel after an ordinary address. *)
Definition intercepted : Env :=
  world (λ _, Ret ["93.184.216.34"; "10.10.34.35"; "10.10.34.34"])
    None first_pending.


(** Every server answers with one sentinel, and the future of the
    second of the pending probes is yielded first. *)
Definition second_yielded_first : Env :=
  world (λ _, Ret ["10.10.34.34"]) None second_pending.

(** No server answers in time. *)
Definition silent : Env :=
  world (λ _, Raise (Exn DnsTimeout "The DNS operation timed out."))
    None first_pending.

(** As [intercepted], with a clock that is set back after its first
    read. *)
Definition clock_set_back : Env :=
  {| clock := set_back_clock;
     dns_reply := λ _ _ _, Ret ["93.184.216.34"; "10.10.34.35"; "10.10.34.34"];
     resolver_fault := λ _ _, None;
     append_fault := λ _, None;
     header_fault := None;
     now_text := "26-01-01 00:00:00";
     next_done := first_pending |}.

(** A resolver library that checks the name servers it is given: it
    refuses what is not a dotted quad, and a dotted quad written with a
    leading zero. *)
Definition strict_resolver : Env :=
  {| clock := steady_clock;
     dns_reply := λ _ _ _, Ret ["10.10.34.34"];
     resolver_fault := λ server _,
       if negb (Pattern.dotted_quad server) || String.prefix "0" server
       then Some (Exn ValueError
                    ("nameserver " +:+ server +:+ " is not a "
                     +:+ "dns.nameserver.Nameserver instance or text form, "
                     +:+ "IP address, nor a valid https URL"))
       else None;
     append_fault := λ _, None;
     header_fault := None;
     now_text := "26-01-01 00:00:00";
     next_done := first_pending |}.


Definition config (include_firewall : bool) : Config :=
  {| workers := 2; timeout := 3; domain := "example.com";
     include_firewall := include_firewall |}.

End Scenario.


(** The probe of [server] gets as far as the query: the address holds no
    NUL, [inet_aton] takes it and the resolver is built. *)
Definition query_is_sent (env : Env) (server : string) (timeout : Z) : Prop :=
  has_nul server = false
  ∧ is_Some (Inet.inet_aton server)
  ∧ resolver_fault env server timeout = None.

(** ** Ranking vocabulary *)

(** An entry of [working] with a latency. *)
Definition has_latency (x : string * option Q) : Prop := is_Some x.2.

(** [x] is no slower than [y]. *)
Definition lat_le (x y : string * option Q) : Prop :=
  ∃ a b, x.2 = Some a ∧ y.2 = Some b ∧ (a <= b)%Q.

(** The latency of [x] is [k]. *)
Definition tied (k : Q) (x : string * option Q) : Prop :=
  match x.2 with
  | Some a => (a == k)%Q
  | None => False
  end.

#[global] Instance tied_dec k x : Decision (tied k x).
Proof.
  unfold tied. destruct x.2 as [a|]; [apply Qeq_dec | right; tauto].
Defined.

(** The claim that entries of equal latency appear in the list in the
    order their servers have in the input. *)
Definition ties_follow_input_order (servers : list string)
    (top : list (string * option Q)) : Prop :=
  ∀ i j x y,
    (i < j)%nat → top !! i = Some x → top !! j = Some y →
    (∃ a b, x.2 = Some a ∧ y.2 = Some b ∧ (a == b)%Q) →
    ∃ p q, servers !! p = Some x.1 ∧ servers !! q = Some y.1 ∧ (p < q)%nat.

(** The futures [check_dns_servers] submits, with their servers. *)
Definition submitted (env : Env) (cfg : Config) (servers : list string)
  : list (Py probe_result * string) :=
  (λ server,
     (test_single_server env server (domain cfg) (timeout cfg)
        (include_firewall cfg), server)) <$> servers.

(** ** The verdict of a run, read off the oracles *)

(** The probe of [server] gets to send its query. *)
Definition queried (env : Env) (cfg : Config) (server : string) : bool :=
  negb (has_nul server)
  && match Inet.inet_aton server, resolver_fault env server (timeout cfg) with
     | Some _, None => true
     | _, _ => false
     end.

(** The reply for [server] holds a sentinel. *)
Definition sentinel_reply (env : Env) (cfg : Config) (server : string)
  : bool :=
  match dns_reply env server (domain cfg) (timeout cfg) with
  | Ret answers => firewall_found answers
  | Raise _ => false
  end.

(** The servers a run counts as working. *)
Definition counted_working (env : Env) (cfg : Config) (server : string)
  : bool :=
  include_firewall cfg && queried env cfg server
  && sentinel_reply env cfg server.

(** The line of working_dns.txt for a server behind the firewall. *)
Definition record_line (server fw : string) (rt : Q) : string :=
  server +:+ " (firewall:" +:+ fw +:+ ") (" +:+ fmt_0f rt +:+ "ms)".

(** What the probe of [server], started in [st], adds to the file. *)
Definition appended (env : Env) (cfg : Config) (server : string) (st : State)
  : list string :=
  if counted_working env cfg server then
    match append_fault env (append_calls st),
          dns_reply env server (domain cfg) (timeout cfg) with
    | None, Ret answers =>
        match Spec.first_sentinel answers with
        | Some fw =>
            [record_line server fw (elapsed_ms env (clock_reads st) 1)]
        | None => []
        end
    | _, _ => []
    end
  else [].

(** [line] is the record of the entry [x] of [working]. *)
Definition record_of (line : string) (x : string * option Q) : Prop :=
  ∃ fw rt, fw ∈ firewall_ips ∧ x.2 = Some rt
           ∧ line = record_line x.1 fw rt.

(** The four lines [write_header] writes. *)
Definition header_lines (env : Env) (cfg : Config) : list string :=
  [ "# working dns servers - tested: " +:+ now_text env;
    "# test domain: " +:+ domain cfg;
    "# mode: "
      +:+ (if include_firewall cfg then "including all responses"
           else "filtering firewall responses")
      +:+ " - 10.10.34.34, 10.10.34.35, 10.10.34.36";
    "# format: ip (response_time_ms) [firewall: fw_ip]" ].


(** What [write_header] leaves in a file that held [old]: the four
    lines; the old content when the file could not be opened; what had
    been written when a write failed after the open. *)
Definition after_header (env : Env) (cfg : Config) (old : list string)
  : list string :=
  match header_fault env with
  | None => header_lines env cfg
  | Some (_, None) => old
  | Some (_, Some n) => take n (header_lines env cfg)
  end.

(** The future [future], run in [st], returns a success. *)
Definition succeeds (future : Py probe_result) (st : State) : Prop :=
  ∃ result message st', future st = (Ret (true, result, message), st').

(** ** Three sentences of the specification, as they are written *)



(** The latency of an outcome is never negative. *)
Definition latency_never_negative (env : Env) (server : string) : Prop :=
  ∀ domain timeout include_firewall st o st' rt,
    test_single_server env server domain timeout include_firewall st
    = (Ret (Spec.encode server o), st') →
    Spec.latency o = Some rt →
    (0 <= rt)%Q.

(** ** The prompts

    [get_worker_count], [get_timeout], [get_filter_option] and
    [get_test_domain] talk to the console.  A console is the lines still
    to be typed and what has been shown; [input] at the end of the typed
    lines raises [EOFError].

    Text is a string of bytes.  The methods of [str] below are those of
    Python on ASCII text ([Str.plain]); on other text Python knows more
    white space and more digits than they do, and from version 3.11 on
    [int] refuses more than 4300 digits. *)

Module Str.

(** [c.isspace()] for an ASCII character: tab to carriage return, the
    four separators 28 to 31, and the blank. *)
Definition isspace (c : ascii) : bool :=
  let n := N_of_ascii c in
  (((9 <=? n) && (n <=? 13)) || ((28 <=? n) && (n <=? 32)))%N.

Fixpoint lstrip (s : string) : string :=
  match s with
  | String c s' => if isspace c then lstrip s' else s
  | EmptyString => s
  end.

Definition rstrip (s : string) : string :=
  String.rev (lstrip (String.rev s)).

(** [s.strip()] *)
Definition strip (s : string) : string := rstrip (lstrip s).

(** [s.isdigit()]: not empty, and decimal digits only. *)
Definition isdigit (s : string) : bool :=
  negb (bool_decide (s = ""))
  && forallb Inet.isdigit (list_ascii_of_string s).

(** [c in s] for a single character [c]. *)
Fixpoint contains (c : ascii) (s : string) : bool :=
  match s with
  | String c' s' => bool_decide (c' = c) || contains c s'
  | EmptyString => false
  end.

(** [s.startswith(p)] *)
Fixpoint startswith (p s : string) : bool :=
  match p, s with
  | EmptyString, _ => true
  | String a p', String b s' => bool_decide (a = b) && startswith p' s'
  | String _ _, EmptyString => false
  end.

(** The digits of a literal of [int]: decimal digits, with single
    underscores between them; [after_digit] tells whether the character
    before was a digit. *)
Fixpoint int_digits (acc : Z) (after_digit : bool) (s : string) : option Z :=
  match s with
  | EmptyString => if after_digit then Some acc else None
  | String c s' =>
      if Inet.isdigit c
      then int_digits (acc * 10 + (Z.of_N (N_of_ascii c) - 48)) true s'
      else if bool_decide (c = "_"%char) && after_digit
      then match s' with
           | EmptyString => None
           | String _ _ => int_digits acc false s'
           end
      else None
  end.

(** [int(s)] when [s] is a literal in base ten: white space around it, an
    optional sign, then the digits; [None] when [int] raises
    [ValueError]. *)
Definition to_int (s : string) : option Z :=
  match strip s with
  | String "+" digits => int_digits 0 false digits
  | String "-" digits => Z.opp <$> int_digits 0 false digits
  | digits => int_digits 0 false digits
  end.

(** A line that is ASCII text of at most 4300 characters. *)
Definition plain (line : string) : bool :=
  forallb (λ c, (N_of_ascii c <? 128)%N) (list_ascii_of_string line)
  && (String.length line <=? 4300)%nat.

End Str.

Module Console.

Record Tty := {
  (** the lines that will be typed, without their line ends *)
  keyboard : list string;
  (** what [print] and [input] have shown, one entry per call *)
  screen : list string
}.

Definition Ask (A : Type) : Type := Tty -> outcome A * Tty.

#[export] Instance Ask_ret : MRet Ask := λ A a tty, (Ret a, tty).

#[export] Instance Ask_bind : MBind Ask := λ A B k m tty,
  match m tty with
  | (Ret a, tty') => k a tty'
  | (Raise e, tty') => (Raise e, tty')
  end.

Definition raise {A} (e : exn) : Ask A := λ tty, (Raise e, tty).

Fixpoint dispatch {A} (e : exn) (clauses : list (pyclass * (exn -> Ask A)))
  : Ask A :=
  match clauses with
  | [] => raise e
  | (c, h) :: rest => if isinstance e c then h e else dispatch e rest
  end.

Definition try_except {A} (body : Ask A)
    (clauses : list (pyclass * (exn -> Ask A))) : Ask A :=
  fun tty =>
    match body tty with
    | (Ret a, tty') => (Ret a, tty')
    | (Raise e, tty') => dispatch e clauses tty'
    end.

Definition shown (text : string) (tty : Tty) : Tty :=
  {| keyboard := keyboard tty; screen := screen tty ++ [text] |}.

Definition print (text : string) : Ask () := λ tty, (Ret (), shown text tty).

(** [EOFError] derives from [Exception]. *)
Definition EOFError : exn := Exn Exception "EOF when reading a line".

(** [input(prompt)]: shows the prompt and gives the next line typed. *)
Definition input (prompt : string) : Ask string := λ tty,
  match keyboard tty with
  | line :: rest =>
      (Ret line, {| keyboard := rest; screen := screen tty ++ [prompt] |})
  | [] => (Raise EOFError, shown prompt tty)
  end.

(** [int(text)]; the program never looks at the text of the error. *)
Definition int (text : string) : Ask Z :=
  match Str.to_int text with
  | Some n => mret n
  | None => raise (Exn ValueError "invalid literal for int() with base 10")
  end.

(** [l[i]] *)
Definition getitem (l : list string) (i : Z) : Ask string :=
  let j := if (i <? 0)%Z then (i + Z.of_nat (length l))%Z else i in
  match (if (j <? 0)%Z then None else l !! Z.to_nat j) with
  | Some x => mret x
  | None => raise (Exn IndexError "list index out of range")
  end.

Fixpoint for_each {A} (body : A -> Ask ()) (l : list A) : Ask () :=
  match l with
  | [] => mret ()
  | x :: l' => body x;; for_each body l'
  end.

(** [while True: body], where [body] gives [Some a] when it returns [a]
    and [None] when it falls through to the next turn.  Each turn of the
    four prompts that falls through has read a line, and [input] raises
    once the lines are used up, so one turn more than there are lines
    left is enough: the loop is cut there (the cut is never reached,
    [turns_returned] and [turns_raised] below). *)
Fixpoint turns {A} (n : nat) (body : Ask (option A)) : Ask A :=
  match n with
  | S n' =>
      r ← body;
      match r with
      | Some a => mret a
      | None => turns n' body
      end
  | O => raise (Exn Exception "no line was read")
  end.

Definition while_true {A} (body : Ask (option A)) : Ask A := λ tty,
  turns (S (length (keyboard tty))) body tty.

End Console.

Definition nl : string := String "010"%char "".

Section Prompts.

Import Console.

(** *** [get_worker_count] *)
Definition get_worker_count : Ask Z :=
  while_true
    (try_except
       (print (nl +:+ "workers (parallel tests, default: 100, max: 500):");;
        print "  enter number (1-500) or press enter for 100";;
        line ← input "workers: ";
        let choice := Str.strip line in
        if bool_decide (choice = "") then mret (Some 100%Z)
        else
          workers ← int choice;
          if ((1 <=? workers) && (workers <=? 500))%Z
          then mret (Some workers)
          else print "invalid! use 1-500";; mret None)
       [(ValueError, λ _, print "invalid! enter a number";; mret None)]).

(** *** [get_timeout] *)
Definition get_timeout : Ask Z :=
  while_true
    (try_except
       (print (nl +:+ "timeout per test (seconds, default: 3, range: 1-10):");;
        print "  enter number (1-10) or press enter for 3";;
        line ← input "timeout: ";
        let choice := Str.strip line in
        if bool_decide (choice = "") then mret (Some 3%Z)
        else
          timeout ← int choice;
          if ((1 <=? timeout) && (timeout <=? 10))%Z
          then mret (Some timeout)
          else print "invalid! use 1-10 seconds";; mret None)
       [(ValueError, λ _, print "invalid! enter a number";; mret None)]).

(** *** [get_filter_option] *)
Definition get_filter_option : Ask bool :=
  print (nl +:+ "firewall response option:");;
  print "1. filter firewall responses (10.10.34.34, 10.10.34.35, 10.10.34.36)";;
  print "2. include all responses";;
  while_true
    (line ← input "enter choice (1/2): ";
     let choice := Str.strip line in
     if bool_decide (choice = "1")
     then print "✓ filtering firewall responses";; mret (Some false)
     else if bool_decide (choice = "2")
     then print "✓ including all responses";; mret (Some true)
     else print "enter 1 or 2";; mret None).

(** *** [get_test_domain] *)
Definition domains : list string :=
  ["google.com"; "cloudflare.com"; "example.com"].

Definition get_test_domain : Ask string :=
  print (nl +:+ "test domains (enter number 1-3 or type domain):");;
  for_each (λ '(i, domain), print ("  " +:+ pretty i +:+ ". " +:+ domain))
    (imap (λ i domain, (S i, domain)) domains);;
  print "  or type your own domain";;
  while_true
    (line ← input (nl +:+ "enter choice (1-3 or domain): ");
     let choice := Str.strip line in
     numbered ←
       (if Str.isdigit choice
        then n ← int choice; mret ((1 <=? n) && (n <=? 3))%Z
        else mret false : Ask bool);
     if (numbered : bool) then
       n ← int choice;
       domain ← getitem domains (n - 1)%Z;
       mret (Some domain)
     else if negb (bool_decide (choice = "")) && Str.contains "." choice
             && negb (Str.startswith "http://" choice
                      || Str.startswith "https://" choice)
     then mret (Some choice)
     else if bool_decide (choice = "") then mret (Some "google.com")
     else print "invalid! use 1-3 or valid domain";; mret None).

End Prompts.

(** *** What a line means to a prompt *)

(** The answer a line gives to a prompt for a number between [lo] and
    [hi]: the default for a blank line, the number for a literal in the
    range, and none otherwise. *)
Definition number_choice (lo hi default : Z) (line : string) : option Z :=
  let choice := Str.strip line in
  if bool_decide (choice = "") then Some default
  else
    match Str.to_int choice with
    | Some n => if ((lo <=? n) && (n <=? hi))%Z then Some n else None
    | None => None
    end.

Definition filter_choice (line : string) : option bool :=
  let choice := Str.strip line in
  if bool_decide (choice = "1") then Some false
  else if bool_decide (choice = "2") then Some true
  else None.

Definition domain_choice (line : string) : option string :=
  let choice := Str.strip line in
  let menu := if Str.isdigit choice then Str.to_int choice else None in
  match menu with
  | Some 1%Z => Some "google.com"
  | Some 2%Z => Some "cloudflare.com"
  | Some 3%Z => Some "example.com"
  | _ =>
      if bool_decide (choice = "") then Some "google.com"
      else if Str.contains "." choice
              && negb (Str.startswith "http://" choice
                       || Str.startswith "https://" choice)
      then Some choice
      else None
  end.

(** The first line that answers, with the lines left after it. *)
Fixpoint first_choice {A} (choice : string -> option A)
    (lines : list string) : option (A * list string) :=
  match lines with
  | [] => None
  | line :: rest =>
      match choice line with
      | Some a => Some (a, rest)
      | None => first_choice choice rest
      end
  end.

(** A console all of whose lines are plain. *)
Definition typed (tty : Console.Tty) : Prop :=
  Forall (λ line, Str.plain line = true) (Console.keyboard tty).

(** ** The loader

    [load_servers] reads the file of servers, takes every IPv4 address
    out of it with a regular expression and drops the duplicates;
    [create_sample_servers] writes the file when there is none. *)

(** *** Regular expressions

    The part of [re] the pattern of [load_servers] is written in, with
    the matcher of [re]: it backtracks, tries the branches of [|] from
    left to right and a [?] first with, then without.  [run r prev s k]
    matches [r] at the start of [s], where [prev] is the character before
    [s], and hands the character before and the text after the match to
    [k]; when [k] refuses, the next way to match is tried.

    A word character is an ASCII letter, a digit or the underscore: with
    text that is not ASCII Python counts the letters and digits of other
    scripts too. *)
Module Re.

Inductive regex :=
| Eps
| Lit (c : ascii)
| Class (lo hi : ascii)
| Seq (r1 r2 : regex)
| Alt (r1 r2 : regex)
| Opt (r : regex)
| Boundary.

(** [r{n}] *)
Fixpoint times (n : nat) (r : regex) : regex :=
  match n with
  | O => Eps
  | S n' => Seq r (times n' r)
  end.

Definition is_word (c : ascii) : bool :=
  Pattern.in_range "0" "9" c || Pattern.in_range "a" "z" c
  || Pattern.in_range "A" "Z" c || bool_decide (c = "_"%char).

Definition word_at (c : option ascii) : bool :=
  match c with
  | Some c => is_word c
  | None => false
  end.

Definition head (s : string) : option ascii :=
  match s with
  | String c _ => Some c
  | EmptyString => None
  end.

Fixpoint run {X} (r : regex) (prev : option ascii) (s : string)
    (k : option ascii -> string -> option X) : option X :=
  match r with
  | Eps => k prev s
  | Lit c =>
      match s with
      | String c' s' => if bool_decide (c' = c) then k (Some c') s' else None
      | EmptyString => None
      end
  | Class lo hi =>
      match s with
      | String c s' => if Pattern.in_range lo hi c then k (Some c) s' else None
      | EmptyString => None
      end
  | Seq r1 r2 => run r1 prev s (λ prev' s', run r2 prev' s' k)
  | Alt r1 r2 =>
      match run r1 prev s k with
      | Some x => Some x
      | None => run r2 prev s k
      end
  | Opt r' =>
      match run r' prev s k with
      | Some x => Some x
      | None => k prev s
      end
  | Boundary =>
      if xorb (word_at prev) (word_at (head s)) then k prev s else None
  end.

(** The text left after the match of [r] at the start of [s]. *)
Definition match_at (r : regex) (prev : option ascii) (s : string)
  : option string :=
  run r prev s (λ _ rest, Some rest).

(** [25[0-5]|2[0-4][0-9]|[01]?[0-9][0-9]?] *)
Definition octet : regex :=
  Alt (Seq (Lit "2") (Seq (Lit "5") (Class "0" "5")))
    (Alt (Seq (Lit "2") (Seq (Class "0" "4") (Class "0" "9")))
       (Seq (Opt (Class "0" "1")) (Seq (Class "0" "9") (Opt (Class "0" "9"))))).

(** The pattern of [load_servers]. *)
Definition ip_pattern : regex :=
  Seq Boundary
    (Seq (times 3 (Seq octet (Lit ".")))
       (Seq octet Boundary)).

(** [r.findall(s)] for a pattern without groups that matches no empty
    text: the matches from left to right, each search starting where the
    match before ended.  [skip] counts the characters of the last match
    that are still to be passed. *)
Fixpoint scan (r : regex) (skip : nat) (prev : option ascii) (s : string)
  : list string :=
  match s with
  | EmptyString => []
  | String c s' =>
      match skip with
      | S skip' => scan r skip' (Some c) s'
      | O =>
          match match_at r prev s with
          | Some rest =>
              let found :=
                substring 0 (String.length s - String.length rest) s in
              found :: scan r (String.length found - 1) (Some c) s'
          | None => scan r 0 (Some c) s'
          end
      end
  end.

Definition findall (r : regex) (s : string) : list string := scan r 0 None s.

End Re.

(** *** Files *)
Module Loader.

(** What the loader cannot decide. *)
Record Host := {
  (** [os.path.join(get_script_dir(), filename)] *)
  path : string -> string;
  (** the [n]-th [open] of the run, when it is an [open(filepath, 'w')]
      followed by the writes: [None] when all goes through, and
      otherwise the exception with the count of characters that reached
      the file ([None] when the file was not even created) *)
  create_fault : nat -> option (exn * option nat);
  (** the [n]-th [open] of the run, when it is an [open(filepath, 'r')]
      of a file that is there, followed by [read] *)
  read_fault : nat -> option exn;
  (** the order in which a set hands out its members: which of those
      left comes next *)
  set_order : nat -> nat;
  (** the text of the [RecursionError] of the interpreter *)
  recursion_text : string
}.

(** The files by path (the text of each, decoded), the count of [open]s
    and the lines printed. *)
Record Disk := {
  files : gmap string string;
  opened : nat;
  printed_lines : list string
}.

(** [FileNotFoundError] is kept apart from the other exceptions. *)
Inductive thrown :=
| FileNotFoundError (text : string)
| Thrown (e : exn).

Inductive caught :=
| OnFileNotFoundError
| On (c : pyclass).

(** [FileNotFoundError] derives from [OSError]. *)
Definition isinstance (t : thrown) (c : caught) : bool :=
  match t, c with
  | FileNotFoundError _, OnFileNotFoundError => true
  | FileNotFoundError _, On c => issubclass OSError c
  | Thrown _, OnFileNotFoundError => false
  | Thrown e, On c => Exc.isinstance e c
  end.

(** [str(e)] *)
Definition text_of (t : thrown) : string :=
  match t with
  | FileNotFoundError text => text
  | Thrown e => str e
  end.

Inductive ended (A : Type) :=
| Ok (a : A)
| Err (t : thrown).
Arguments Ok {A} a.
Arguments Err {A} t.

Definition Load (A : Type) : Type := Disk -> ended A * Disk.

#[export] Instance Load_ret : MRet Load := λ A a disk, (Ok a, disk).

#[export] Instance Load_bind : MBind Load := λ A B k m disk,
  match m disk with
  | (Ok a, disk') => k a disk'
  | (Err t, disk') => (Err t, disk')
  end.

Definition raise {A} (t : thrown) : Load A := λ disk, (Err t, disk).

Fixpoint dispatch {A} (t : thrown) (clauses : list (caught * (thrown -> Load A)))
  : Load A :=
  match clauses with
  | [] => raise t
  | (c, h) :: rest => if isinstance t c then h t else dispatch t rest
  end.

Definition try_except {A} (body : Load A)
    (clauses : list (caught * (thrown -> Load A))) : Load A :=
  fun disk =>
    match body disk with
    | (Ok a, disk') => (Ok a, disk')
    | (Err t, disk') => dispatch t clauses disk'
    end.

Definition print (line : string) : Load () := λ disk,
  (Ok (), {| files := files disk; opened := opened disk;
             printed_lines := printed_lines disk ++ [line] |}).

(** [RecursionError] derives from [Exception]. *)
Definition RecursionError (host : Host) : thrown :=
  Thrown (Exn Exception (recursion_text host)).

(** [list(set(l))]: the members of [l], each once, in the order the set
    hands them out. *)
Fixpoint handed_out (order : nat -> nat) (step n : nat)
    (members : list string) : list string :=
  match n with
  | O => []
  | S n' =>
      let i := (order step mod length members)%nat in
      match members !! i with
      | Some x => x :: handed_out order (S step) n' (delete i members)
      | None => []
      end
  end.

Definition list_set (order : nat -> nat) (l : list string) : list string :=
  let members := remove_dups l in
  handed_out order 0 (length members) members.

End Loader.

Section Loading.

Import Loader.

Context (host : Host).

Definition os_path_exists (filepath : string) : Load bool := λ disk,
  (Ok (bool_decide (is_Some (files disk !! filepath))), disk).

(** [with open(filepath, 'w') as f: f.write(...)], all the writes as one
    text. *)
Definition open_w (filepath text : string) : Load () := λ disk,
  match create_fault host (opened disk) with
  | None =>
      (Ok (), {| files := <[filepath := text]> (files disk);
                 opened := S (opened disk);
                 printed_lines := printed_lines disk |})
  | Some (e, reached) =>
      (Err (Thrown e),
       {| files := match reached with
                   | Some n => <[filepath := substring 0 n text]> (files disk)
                   | None => files disk
                   end;
          opened := S (opened disk);
          printed_lines := printed_lines disk |})
  end.

(** [with open(filepath, 'r', encoding='utf-8', errors='ignore') as f:
    f.read()] *)
Definition open_r (filepath : string) : Load string := λ disk,
  match files disk !! filepath with
  | None =>
      (Err (FileNotFoundError
              ("[Errno 2] No such file or directory: '" +:+ filepath
               +:+ "'")),
       disk)
  | Some content =>
      (match read_fault host (opened disk) with
       | None => Ok content
       | Some e => Err (Thrown e)
       end,
       {| files := files disk; opened := S (opened disk);
          printed_lines := printed_lines disk |})
  end.

Definition sample_servers : list string :=
  [ "1.1.1.1"; "1.0.0.1"; "8.8.8.8"; "8.8.4.4"; "9.9.9.9";
    "208.67.222.222"; "208.67.220.220"; "4.2.2.1"; "4.2.2.2" ].

(** The text of a file with one server on each line. *)
Definition one_per_line (servers : list string) : string :=
  foldr (λ server text, server +:+ nl +:+ text) "" servers.

Definition create_sample_servers (filename : string) : Load () :=
  let filepath := path host filename in
  there ← os_path_exists filepath;
  if (there : bool) then mret ()
  else
    try_except
      (open_w filepath (one_per_line sample_servers);;
       print ("created sample " +:+ filename +:+ " with "
              +:+ pretty (length sample_servers) +:+ " servers"))
      [(On Exception,
        λ e, print ("error creating " +:+ filename +:+ ": " +:+ text_of e))].

(** [load_servers]; [depth] is the number of nested calls of
    [load_servers] the interpreter still allows, the call that goes
    beyond raises [RecursionError]. *)
Fixpoint load_servers (depth : nat) (filename : string)
  : Load (list string) :=
  match depth with
  | O => raise (RecursionError host)
  | S depth' =>
      let filepath := path host filename in
      try_except
        (content ← open_r filepath;
         let all_ips := Re.findall Re.ip_pattern content in
         let servers := list_set (set_order host) all_ips in
         print ("extracted " +:+ pretty (length servers)
                +:+ " unique ipv4 addresses from " +:+ filepath);;
         print ("total ips found (with duplicates): "
                +:+ pretty (length all_ips));;
         if bool_decide (servers = []) then
           print "no valid ipv4 addresses found. creating sample file...";;
           create_sample_servers filename;;
           load_servers depth' filename
         else mret servers)
        [(OnFileNotFoundError,
          λ _, print (filepath +:+ " not found. creating sample file...");;
               create_sample_servers filename;;
               load_servers depth' filename);
         (On Exception,
          λ e, print ("error loading servers: " +:+ text_of e);;
               mret [])]
  end.

End Loading.

(** Text that is ASCII. *)
Definition ascii_text (s : string) : bool :=
  forallb (λ c, (N_of_ascii c <? 128)%N) (list_ascii_of_string s).

(** Text made of decimal digits. *)
Definition all_digits (f : string) : Prop :=
  Forall (λ c, Pattern.in_range "0" "9" c = true) (list_ascii_of_string f).

(** Four fields with dots between them. *)
Definition quad (f1 f2 f3 f4 : string) : string :=
  f1 +:+ String "." (f2 +:+ String "." (f3 +:+ String "." f4)).

(** A disk all of whose files are ASCII text. *)
Definition plain_disk (disk : Loader.Disk) : Prop :=
  map_Forall (λ _ content, ascii_text content = true) (Loader.files disk).

(** Hosts and disks to try the loader on. *)
Module Rooms.

Import Loader.

(** A host on which every [open] goes through. *)
Definition quiet : Host :=
  {| path := λ filename, "/opt/azadi/" +:+ filename;
     create_fault := λ _, None;
     read_fault := λ _, None;
     set_order := λ n, n;
     recursion_text := "maximum recursion depth exceeded" |}.

(** A host whose files cannot be read. *)
Definition locked : Host :=
  {| path := λ filename, "/opt/azadi/" +:+ filename;
     create_fault := λ _, None;
     read_fault := λ _, Some (Exn OSError "[Errno 13] Permission denied");
     set_order := λ n, n;
     recursion_text := "maximum recursion depth exceeded" |}.

(** A host on which no file can be created. *)
Definition read_only : Host :=
  {| path := λ filename, "/opt/azadi/" +:+ filename;
     create_fault :=
       λ _, Some (Exn OSError "[Errno 30] Read-only file system", None);
     read_fault := λ _, None;
     set_order := λ n, n;
     recursion_text := "maximum recursion depth exceeded" |}.

Definition bare : Disk :=
  {| files := ∅; opened := 0; printed_lines := [] |}.

(** A disk on which dns_servers.txt holds [content]. *)
Definition holding (content : string) : Disk :=
  {| files := {[ "/opt/azadi/dns_servers.txt" := content ]};
     opened := 0;
     printed_lines := [] |}.

End Rooms.

(** A field that does not start with a zero it could do without, and an
    address all of whose fields are so. *)
Definition canonical_field (f : string) : bool :=
  match f with
  | String "0" (String _ _) => false
  | _ => true
  end.

Definition canonical (ip : string) : bool :=
  forallb canonical_field (Pattern.fields ip).

(** ** The session

    [check_dns_servers] as a whole, from the file of servers and the
    prompts to the report, and [main] around it.  The loader, the
    prompts and the engine each keep their part of the world; like the
    engine, the session leaves the banners out of what is printed. *)
Module Session.

Record World := {
  disk : Loader.Disk;
  tty : Console.Tty;
  state : State
}.

Definition Run (A : Type) : Type := World -> outcome A * World.

#[export] Instance Run_ret : MRet Run := λ A a w, (Ret a, w).

#[export] Instance Run_bind : MBind Run := λ A B k m w,
  match m w with
  | (Ret a, w') => k a w'
  | (Raise e, w') => (Raise e, w')
  end.

(** An exception of the loader, for the callers of the loader. *)
Definition as_exn (t : Loader.thrown) : exn :=
  match t with
  | Loader.FileNotFoundError text => Exn OSError text
  | Loader.Thrown e => e
  end.

Definition on_disk {A} (m : Loader.Load A) : Run A := λ w,
  let '(r, d) := m (disk w) in
  (match r with
   | Loader.Ok a => Ret a
   | Loader.Err t => Raise (as_exn t)
   end,
   {| disk := d; tty := tty w; state := state w |}).

Definition on_tty {A} (m : Console.Ask A) : Run A := λ w,
  let '(r, t) := m (tty w) in
  (r, {| disk := disk w; tty := t; state := state w |}).

Definition on_state {A} (m : Py A) : Run A := λ w,
  let '(r, st) := m (state w) in
  (r, {| disk := disk w; tty := tty w; state := st |}).

(** How [main] ends: by returning, or by [sys.exit(status)], or with an
    exception that no clause of it catches. *)
Inductive ending :=
| Returned
| Exited (status : Z)
| Uncaught (e : exn).

End Session.

Section Sessions.

Import Session.

Context (host : Loader.Host) (env : Env).

(** [check_dns_servers(filename)], lines 233 to 303; [depth] is the
    number of nested calls of [load_servers] the interpreter allows. *)
Definition check_dns_servers_of (depth : nat) (filename : string)
  : Run (list (string * option Q)) :=
  servers ← on_disk (load_servers host depth filename);
  if bool_decide (servers = []) then
    on_state (print "no servers to test. exiting.");;
    mret []
  else
    workers ← on_tty get_worker_count;
    timeout ← on_tty get_timeout;
    domain ← on_tty get_test_domain;
    include_firewall ← on_tty get_filter_option;
    report ← on_state
      (check_dns_servers env servers
         {| workers := workers; timeout := timeout; domain := domain;
            include_firewall := include_firewall |});
    mret (working report).

(** [main].  Every exception of the model is an [Exception], so the
    clause for [KeyboardInterrupt], which is none, has nothing to catch:
    the model has no interrupt. *)
Definition main (depth : nat) : World -> ending * World := λ w,
  match (check_dns_servers_of depth "dns_servers.txt";;
         on_state (print (nl +:+ "Testing complete!"));;
         on_tty (Console.input "Press enter to exit...")) w with
  | (Ret _, w') => (Returned, w')
  | (Raise e, w') =>
      if isinstance e Exception then
        (Exited 1,
         {| disk := disk w'; tty := tty w';
            state := printed ("Error: " +:+ str e) (state w') |})
      else (Uncaught e, w')
  end.

End Sessions.

(** A configuration the prompts can return. *)
Definition valid_config (cfg : Config) : Prop :=
  (1 ≤ workers cfg ≤ 500)%Z ∧ (1 ≤ timeout cfg ≤ 10)%Z
  ∧ Str.contains "." (domain cfg) = true.

(** The configuration the four prompts make of the lines typed, with
    the lines left over; none when the lines run out first. *)
Definition configure (lines : list string) : option (Config * list string) :=
  match first_choice (number_choice 1 500 100) lines with
  | None => None
  | Some (workers, lines) =>
      match first_choice (number_choice 1 10 3) lines with
      | None => None
      | Some (timeout, lines) =>
          match first_choice domain_choice lines with
          | None => None
          | Some (domain, lines) =>
              match first_choice filter_choice lines with
              | None => None
              | Some (include_firewall, lines) =>
                  Some ({| workers := workers; timeout := timeout;
                           domain := domain;
                           include_firewall := include_firewall |}, lines)
              end
          end
      end
  end.
(* ==================================================================== *)
(** * Facts *)

Ltac py_unfold :=
  unfold time_time, print, resolver_resolve, socket_inet_aton,
    new_resolver, getitem_0, load_name;
  unfold try_except, mbind, Py_bind, mret, Py_ret, raise.

Lemma isinstance_Exception e : isinstance e Exception = true.
Proof. destruct e as [[] msg]; reflexivity. Qed.

Section ClassifierFacts.

Implicit Types answers : list string.

Lemma filter_first_sentinel answers :
  head (filter (.∈ firewall_ips) answers) = Spec.first_sentinel answers.
Proof.
  induction answers as [|ip rest IH]; [reflexivity|].
  rewrite filter_cons. simpl.
  destruct (decide (ip ∈ firewall_ips)) as [Hin|Hout].
  - rewrite bool_decide_eq_true_2 by assumption. reflexivity.
  - rewrite bool_decide_eq_false_2 by assumption. exact IH.
Qed.

Lemma firewall_found_first_sentinel answers :
  firewall_found answers = bool_decide (is_Some (Spec.first_sentinel answers)).
Proof.
  unfold firewall_found.
  induction answers as [|ip rest IH]; [reflexivity|]. simpl.
  destruct (bool_decide (ip ∈ firewall_ips)); [reflexivity | exact IH].
Qed.

Lemma first_sentinel_Some answers fw :
  Spec.first_sentinel answers = Some fw ↔
  ∃ before after,
    answers = before ++ fw :: after ∧ fw ∈ firewall_ips
    ∧ Forall (λ ip, ip ∉ firewall_ips) before.
Proof.
  split.
  - induction answers as [|ip rest IH]; simpl; [discriminate|].
    destruct (decide (ip ∈ firewall_ips)) as [Hin|Hout].
    + rewrite bool_decide_eq_true_2 by assumption.
      intros [= <-]. exists [], rest. auto.
    + rewrite bool_decide_eq_false_2 by assumption.
      intros Hrest. destruct (IH Hrest) as (before & after & -> & Hfw & Hpre).
      exists (ip :: before), after. auto.
  - intros (before & after & -> & Hfw & Hpre).
    induction Hpre as [|ip before Hout _ IH]; simpl.
    + rewrite bool_decide_eq_true_2 by assumption. reflexivity.
    + rewrite bool_decide_eq_false_2 by assumption. exact IH.
Qed.

Lemma first_sentinel_None answers :
  Spec.first_sentinel answers = None ↔
  Forall (λ ip, ip ∉ firewall_ips) answers.
Proof.
  induction answers as [|ip rest IH]; simpl.
  - split; [constructor | reflexivity].
  - destruct (decide (ip ∈ firewall_ips)) as [Hin|Hout].
    + rewrite bool_decide_eq_true_2 by assumption.
      split; [discriminate | inversion 1; contradiction].
    + rewrite bool_decide_eq_false_2 by assumption.
      rewrite IH. split; [constructor; assumption | inversion 1; assumption].
Qed.

Lemma next_fw_first_sentinel answers st :
  next_fw answers st =
    (match Spec.first_sentinel answers with
     | Some fw => Ret fw
     | None => Raise (Exn StopIteration "")
     end, st).
Proof.
  unfold next_fw. rewrite <- filter_first_sentinel.
  destruct (filter _ answers); reflexivity.
Qed.

End ClassifierFacts.

Section SinkFacts.

Context (env : Env) (line : string) (st : State).

Lemma real_time_save_stored :
  append_fault env (append_calls st) = None →
  real_time_save env line st =
    (Ret (), with_file (working_dns_txt st ++ [line]) (tried_append st)).
Proof.
  intros Hgo. unfold real_time_save, try_except, open_a_write.
  rewrite Hgo. reflexivity.
Qed.

Lemma real_time_save_swallowed e :
  append_fault env (append_calls st) = Some e →
  real_time_save env line st =
    (Ret (), printed ("real-time save error: " +:+ str e) (tried_append st)).
Proof.
  intros Hfault. unfold real_time_save, try_except, open_a_write.
  rewrite Hfault. simpl. rewrite isinstance_Exception. reflexivity.
Qed.

Lemma real_time_save_returns :
  ∃ st', real_time_save env line st = (Ret (), st')
         ∧ clock_reads st' = clock_reads st
         ∧ wire st' = wire st.
Proof.
  destruct (append_fault env (append_calls st)) as [e|] eqn:Hf.
  - rewrite (real_time_save_swallowed e Hf). eauto.
  - rewrite (real_time_save_stored Hf). eauto.
Qed.

End SinkFacts.

(** ** [inet_aton] and the formats, on examples *)

Example inet_aton_dotted_quad :
  Inet.inet_aton "8.8.8.8" = Some 0x08080808%N.
Proof. reflexivity. Qed.

Example inet_aton_two_parts :
  Inet.inet_aton "127.1" = Some 0x7f000001%N.
Proof. reflexivity. Qed.

Example inet_aton_octal_and_hex :
  Inet.inet_aton "010.0x10.1.1" = Some 0x08100101%N.
Proof. reflexivity. Qed.

Example inet_aton_out_of_range :
  Inet.inet_aton "999.999.999.999" = None.
Proof. reflexivity. Qed.

Example inet_aton_bad_octal : Inet.inet_aton "08.8.8.8" = None.
Proof. reflexivity. Qed.

Example inet_aton_five_parts : Inet.inet_aton "1.2.3.4.5" = None.
Proof. reflexivity. Qed.

Example inet_aton_not_a_number : Inet.inet_aton "dns.example" = None.
Proof. reflexivity. Qed.

Example dotted_quad_examples :
  Pattern.dotted_quad "208.67.222.222" = true
  ∧ Pattern.dotted_quad "256.1.1.1" = false
  ∧ Pattern.dotted_quad "127.1" = false
  ∧ Pattern.dotted_quad "1.2.3.4.5" = false.
Proof. repeat split. Qed.

Example fmt_0f_examples :
  fmt_0f (5 # 2) = "2" ∧ fmt_0f (7 # 2) = "4" ∧ fmt_0f (1234567 # 1000) = "1235"
  ∧ fmt_0f 0 = "0" ∧ fmt_0f (-3 # 2) = "-2".
Proof. repeat split. Qed.

(** ** The probe, case by case *)

Section ProbeFacts.

Context (env : Env) (server domain : string) (timeout : Z)
  (include_firewall : bool) (st : State).

Let probe := test_single_server env server domain timeout include_firewall.
Let query := (server, domain, timeout).

(** [ValueError] is no [OSError]: the clause of the address check lets
    it through, and the probe leaves with it. *)
Lemma probe_nul :
  has_nul server = true →
  probe st = (Raise (Exn ValueError "embedded null character"), st).
Proof.
  intros Hnul. unfold probe, test_single_server. py_unfold.
  rewrite Hnul. reflexivity.
Qed.

Lemma probe_invalid :
  has_nul server = false →
  Inet.inet_aton server = None →
  probe st = (Ret (Spec.encode server Spec.InvalidAddress), st).
Proof.
  intros Hnul Hbad. unfold probe, test_single_server. py_unfold.
  rewrite Hnul, Hbad. reflexivity.
Qed.

(** An exception out of the building of the resolver leaves the probe. *)
Lemma probe_crashed e :
  has_nul server = false →
  is_Some (Inet.inet_aton server) →
  resolver_fault env server timeout = Some e →
  probe st = (Raise e, reads 1 st).
Proof.
  intros Hnul [a Hok] Hfault. unfold probe, test_single_server. py_unfold.
  rewrite Hnul, Hok. simpl. rewrite Hfault. reflexivity.
Qed.

Lemma probe_raised e :
  query_is_sent env server timeout →
  dns_reply env server domain timeout = Raise e →
  probe st =
    (Ret (Spec.encode server
            (Spec.failure_of e (elapsed_ms env (clock_reads st) 1))),
     reads 2 (sent query st)).
Proof.
  intros (Hnul & [a Hok] & Hbuilt) Hraise.
  unfold probe, test_single_server. py_unfold.
  rewrite Hnul, Hok. simpl. rewrite Hbuilt. simpl. rewrite Hraise.
  destruct e as [[] msg]; reflexivity.
Qed.

Lemma probe_unblocked answers :
  query_is_sent env server timeout →
  dns_reply env server domain timeout = Ret answers →
  Spec.first_sentinel answers = None →
  probe st =
    (Ret (Spec.encode server
            (Spec.ProtocolError (elapsed_ms env (clock_reads st) 2)
               Spec.unknown)),
     reads 3 (sent query st)).
Proof.
  intros (Hnul & [a Hok] & Hbuilt) Hreply Hnone.
  unfold probe, test_single_server. py_unfold.
  rewrite Hnul, Hok. simpl. rewrite Hbuilt. simpl. rewrite Hreply.
  rewrite firewall_found_first_sentinel, Hnone.
  rewrite bool_decide_eq_false_2 by (intros [? ?]; discriminate).
  destruct answers; reflexivity.
Qed.

Lemma probe_blocked answers fw :
  query_is_sent env server timeout →
  dns_reply env server domain timeout = Ret answers →
  Spec.first_sentinel answers = Some fw →
  let rt := elapsed_ms env (clock_reads st) 1 in
  probe st =
    (Ret (Spec.encode server (Spec.FirewallBlocked rt fw include_firewall)),
     if include_firewall
     then (real_time_save env
             (server +:+ " (firewall:" +:+ fw +:+ ") ("
                +:+ fmt_0f rt +:+ "ms)")
             (reads 2 (sent query st))).2
     else reads 2 (sent query st)).
Proof.
  intros (Hnul & [a Hok] & Hbuilt) Hreply Hfw rt.
  unfold probe, test_single_server. py_unfold.
  rewrite Hnul, Hok. simpl. rewrite Hbuilt. simpl. rewrite Hreply.
  rewrite firewall_found_first_sentinel, Hfw.
  rewrite bool_decide_eq_true_2 by eauto.
  destruct answers as [|first_ip rest]; [discriminate|].
  rewrite next_fw_first_sentinel, Hfw.
  destruct include_firewall; [|reflexivity].
  fold rt.
  destruct (real_time_save_returns env
              (server +:+ " (firewall:" +:+ fw +:+ ") ("
                 +:+ fmt_0f rt +:+ "ms)")
              (reads 2 (sent query st))) as (st' & Hsave & _).
  change (reads 1 (sent (server, domain, timeout) (reads 1 st)))
    with (reads 2 (sent query st)).
  change ((clock env (S (clock_reads st)) - clock env (clock_reads st))
            * 1000)%Q with rt.
  rewrite Hsave. reflexivity.
Qed.

End ProbeFacts.

Lemma clock_monotone env :
  (∀ n, (clock env n <= clock env (S n))%Q) →
  ∀ n k, (0 <= elapsed_ms env n k)%Q.
Proof.
  intros Hstep n k. unfold elapsed_ms.
  assert (clock env n <= clock env (k + n))%Q as Hle.
  { induction k as [|k IH]; simpl.
    - apply Qle_refl.
    - eapply Qle_trans; [exact IH | apply Hstep]. }
  apply Qmult_le_0_compat; [|discriminate].
  unfold Qminus. rewrite <- Qle_minus_iff. exact Hle.
Qed.

Lemma encode_latency server o :
  (Spec.encode server o).1.2 = (server, Spec.latency o).
Proof. destruct o as [| ? ? [] | | | | ? [] |]; reflexivity. Qed.

Lemma encode_working server o :
  (Spec.encode server o).1.1 = Spec.counts_as_working o.
Proof. destruct o as [| ? ? [] | | | | ? [] |]; reflexivity. Qed.

Lemma working_has_latency o :
  Spec.counts_as_working o = true → is_Some (Spec.latency o).
Proof. destruct o as [| ? ? [] | | | | |]; simpl; try discriminate; eauto. Qed.

Lemma failure_is_not_working e rt :
  Spec.counts_as_working (Spec.failure_of e rt) = false.
Proof. unfold Spec.failure_of. repeat case_match; reflexivity. Qed.

Lemma blocked_is_not_success server rt fw accepted rt' ip :
  Spec.encode server (Spec.FirewallBlocked rt fw accepted)
  ≠ Spec.encode server (Spec.Success rt' ip).
Proof.
  destruct accepted; simpl; [|discriminate].
  intros [= _ Hmsg]. apply String.app_inj in Hmsg. discriminate.
Qed.

Lemma sentinel_present answers :
  (∃ ip, ip ∈ answers ∧ ip ∈ firewall_ips) →
  ∃ fw, Spec.first_sentinel answers = Some fw.
Proof.
  intros (ip & Hin & Hsent).
  destruct (Spec.first_sentinel answers) as [fw|] eqn:Hfw; [eauto|].
  apply first_sentinel_None in Hfw.
  rewrite Forall_forall in Hfw. destruct (Hfw ip Hin Hsent).
Qed.

(** The probe gets as far as the query, or stops before it. *)
Lemma query_is_sent_cases env server timeout :
  has_nul server = true
  ∨ (has_nul server = false ∧ Inet.inet_aton server = None)
  ∨ (∃ e, has_nul server = false ∧ is_Some (Inet.inet_aton server)
          ∧ resolver_fault env server timeout = Some e)
  ∨ query_is_sent env server timeout.
Proof.
  unfold query_is_sent.
  destruct (has_nul server); [left; reflexivity|right].
  destruct (Inet.inet_aton server) as [a|]; [right|left; split; reflexivity].
  destruct (resolver_fault env server timeout) as [e|]; [left|right]; eauto 6.
Qed.

(** A probe leaves with an exception before its query, from the check
    of the address or from the building of the resolver, or returns
    one of the outcomes; every outcome but [InvalidAddress] carries the
    time between the first read of the clock and one of the two reads
    after it. *)
Lemma probe_cases env server domain timeout include_firewall st :
  (has_nul server = true
   ∧ test_single_server env server domain timeout include_firewall st
     = (Raise (Exn ValueError "embedded null character"), st))
  ∨ (∃ e, has_nul server = false
          ∧ is_Some (Inet.inet_aton server)
          ∧ resolver_fault env server timeout = Some e
          ∧ test_single_server env server domain timeout include_firewall st
            = (Raise e, reads 1 st))
  ∨ (∃ o st',
       has_nul server = false
       ∧ (Inet.inet_aton server = None
          ∨ resolver_fault env server timeout = None)
       ∧ test_single_server env server domain timeout include_firewall st
         = (Ret (Spec.encode server o), st')
       ∧ (o = Spec.InvalidAddress
          ∨ ∃ k, (1 ≤ k ≤ 2)%nat
                 ∧ Spec.latency o
                   = Some (elapsed_ms env (clock_reads st) k))).
Proof.
  destruct (query_is_sent_cases env server timeout)
    as [Hnul | [[Hnul Hbad] | [(e & Hnul & Hok & Hbuilt) | Hsent]]].
  - left. split; [exact Hnul | apply probe_nul, Hnul].
  - right. right. eexists _, _. split; [exact Hnul|].
    split; [left; exact Hbad|].
    split; [apply probe_invalid; assumption|]. left. reflexivity.
  - right. left. exists e. repeat split; try assumption.
    apply probe_crashed; assumption.
  - right. right. pose proof Hsent as (Hnul & _ & Hbuilt).
    destruct (dns_reply env server domain timeout) as [answers|e] eqn:Hreply.
    + destruct (Spec.first_sentinel answers) as [fw|] eqn:Hfw.
      * eexists _, _. split; [exact Hnul|]. split; [right; exact Hbuilt|].
        split; [eapply probe_blocked; eassumption|].
        right. exists 1%nat. split; [lia | reflexivity].
      * eexists _, _. split; [exact Hnul|]. split; [right; exact Hbuilt|].
        split; [eapply probe_unblocked; eassumption|].
        right. exists 2%nat. split; [lia | reflexivity].
    + eexists _, _. split; [exact Hnul|]. split; [right; exact Hbuilt|].
      split; [eapply probe_raised; eassumption|].
      right. exists 1%nat. split; [lia|].
      unfold Spec.failure_of. repeat case_match; reflexivity.
Qed.

Lemma probe_returned env server domain timeout include_firewall st r st' :
  test_single_server env server domain timeout include_firewall st
  = (Ret r, st') →
  ∃ o, r = Spec.encode server o
       ∧ (o = Spec.InvalidAddress
          ∨ ∃ k, (1 ≤ k ≤ 2)%nat
                 ∧ Spec.latency o
                   = Some (elapsed_ms env (clock_reads st) k)).
Proof.
  intros Hrun.
  destruct (probe_cases env server domain timeout include_firewall st)
    as [[_ Hcrash] | [(e & _ & _ & _ & Hcrash)
                     | (o & st1 & _ & _ & Hret & Hlat)]].
  - rewrite Hcrash in Hrun. discriminate.
  - rewrite Hcrash in Hrun. discriminate.
  - rewrite Hret in Hrun. injection Hrun as <- _. eauto.
Qed.


(** The sign of a latency is decided by the two reads it is made of. *)
Lemma elapsed_ms_sign env n k :
  (0 <= elapsed_ms env n k)%Q ↔ (clock env n <= clock env (k + n))%Q.
Proof.
  unfold elapsed_ms.
  rewrite <- (Qmult_0_l 1000).
  rewrite (Qmult_le_r 0 (clock env (k + n) - clock env n) 1000)
    by reflexivity.
  unfold Qminus. rewrite <- Qle_minus_iff. reflexivity.
Qed.

(** ** The sink and the loop body *)

Lemma write_header_returns env test_domain include_firewall st :
  ∃ st', write_header env test_domain include_firewall st = (Ret (), st')
         ∧ clock_reads st' = clock_reads st.
Proof.
  unfold write_header, try_except, open_w_write.
  unfold mbind, Py_bind, print.
  destruct (header_fault env) as [[e [n|]]|]; simpl;
    rewrite ?isinstance_Exception; eauto.
Qed.

Section CollectFacts.

Context (working : list (string * option Q)) (failed : list string)
  (future : Py probe_result) (server : string) (st : State).

Lemma collect_returned ok ip lat msg st' :
  future st = (Ret (ok, (ip, lat), msg), st') →
  collect (working, failed) (future, server) st =
    (Ret (if ok then (working ++ [(ip, lat)], failed)
          else (working, failed ++ [ip])),
     printed ((if ok then "✅ " else "❌ ") +:+ msg) st').
Proof.
  intros Hrun. unfold collect, try_except, mbind, Py_bind.
  rewrite Hrun. destruct ok; reflexivity.
Qed.

Lemma collect_crashed e st' :
  future st = (Raise e, st') →
  collect (working, failed) (future, server) st =
    (Ret (working, failed ++ [server]),
     printed ("❌ crash " +:+ server) st').
Proof.
  intros Hrun. unfold collect, try_except, mbind, Py_bind.
  rewrite Hrun. simpl. rewrite isinstance_Exception. reflexivity.
Qed.

(** Whatever the future did, one of the two lists grows by one. *)
Lemma collect_counts_once :
  ∃ working' failed' st',
    collect (working, failed) (future, server) st
    = (Ret (working', failed'), st')
    ∧ ((∃ result, working' = working ++ [result] ∧ failed' = failed)
       ∨ (∃ ip, working' = working ∧ failed' = failed ++ [ip])).
Proof.
  destruct (future st) as [[[[ok [ip lat]] msg]|e] st'] eqn:Hrun.
  - rewrite (collect_returned ok ip lat msg st' Hrun).
    destruct ok; eexists _, _, _; (split; [reflexivity|]); eauto.
  - rewrite (collect_crashed e st' Hrun).
    eexists _, _, _. split; [reflexivity|]. eauto.
Qed.

End CollectFacts.

(** The loop body on a probe: the outcome decides the list. *)
Lemma collect_probe env server domain timeout include_firewall
    working failed st o st' :
  test_single_server env server domain timeout include_firewall st
  = (Ret (Spec.encode server o), st') →
  collect (working, failed)
    (test_single_server env server domain timeout include_firewall, server) st
  = (Ret (if Spec.counts_as_working o
          then (working ++ [(server, Spec.latency o)], failed)
          else (working, failed ++ [server])),
     printed ((if Spec.counts_as_working o then "✅ " else "❌ ")
                +:+ (Spec.encode server o).2) st').
Proof.
  intros Hrun.
  pose proof (encode_latency server o) as Hlat.
  pose proof (encode_working server o) as Hok.
  destruct (Spec.encode server o) as [[ok [ip lat]] msg] eqn:Henc.
  simpl in Hlat, Hok. injection Hlat as -> ->. subst ok.
  apply collect_returned. exact Hrun.
Qed.

(** ** The pool *)

Lemma as_completed_Permutation {A} env (pending : list A) step :
  as_completed env step (length pending) pending ≡ₚ pending.
Proof.
  remember (length pending) as n eqn:Hn.
  revert pending step Hn.
  induction n as [|n IH]; intros pending step Hn.
  - destruct pending; [reflexivity | discriminate].
  - simpl. rewrite <- Hn.
    assert (next_done env step `mod` S n < length pending)%nat as Hlt.
    { rewrite <- Hn. apply Nat.mod_upper_bound. lia. }
    destruct (lookup_lt_is_Some_2 _ _ Hlt) as [future Hfuture].
    rewrite Hfuture.
    etrans; [|symmetry; exact (delete_Permutation pending _ future Hfuture)].
    constructor. apply IH.
    rewrite length_delete by eauto. lia.
Qed.

Lemma as_completed_fmap {A B} (f : A → B) env step n (pending : list A) :
  as_completed env step n (f <$> pending)
  = f <$> as_completed env step n pending.
Proof.
  revert step pending.
  induction n as [|n IH]; intros step pending; [reflexivity|].
  simpl. rewrite length_fmap, list_lookup_fmap.
  destruct (pending !! _) as [future|]; [|reflexivity].
  simpl. rewrite <- list_fmap_delete, IH. reflexivity.
Qed.

(** ** The ranking *)

Section RankingFacts.

Implicit Types (x y : string * option Q) (l : list (string * option Q)).

Lemma key_le_lat_le x y :
  has_latency x → has_latency y → key_le x y = true → lat_le x y.
Proof.
  intros [a Ha] [b Hb]. unfold key_le, lat_le. rewrite Ha, Hb.
  intros Hle. apply Qle_bool_iff in Hle. eauto.
Qed.

Lemma key_le_false_lat_le x y :
  has_latency x → has_latency y → key_le x y = false → lat_le y x.
Proof.
  intros [a Ha] [b Hb]. unfold key_le, lat_le. rewrite Ha, Hb.
  intros Hnle. exists b, a. repeat split.
  apply Qlt_le_weak, Qnot_le_lt. intros Hle.
  apply Qle_bool_iff in Hle. congruence.
Qed.

Lemma lat_le_trans x y z : lat_le x y → lat_le y z → lat_le x z.
Proof.
  intros (a & b & Ha & Hb & Hab) (b' & c & Hb' & Hc & Hbc).
  rewrite Hb in Hb'. injection Hb' as <-.
  exists a, c. repeat split; try assumption. eapply Qle_trans; eassumption.
Qed.

Lemma insert_sorted_Permutation x l : insert_sorted x l ≡ₚ x :: l.
Proof.
  induction l as [|y l IH]; simpl; [reflexivity|].
  destruct (key_le x y); [reflexivity|].
  rewrite IH. apply Permutation_swap.
Qed.

Lemma stable_sort_Permutation l : stable_sort l ≡ₚ l.
Proof.
  induction l as [|x l IH]; simpl; [reflexivity|].
  rewrite insert_sorted_Permutation, IH. reflexivity.
Qed.

Lemma insert_sorted_StronglySorted x l :
  has_latency x → Forall has_latency l →
  StronglySorted lat_le l → StronglySorted lat_le (insert_sorted x l).
Proof.
  intros Hx Hl Hsorted.
  induction Hsorted as [|y l Hsorted IH Hy]; simpl.
  - repeat constructor.
  - apply Forall_cons in Hl as [Hylat Hl].
    destruct (key_le x y) eqn:Hxy.
    + constructor; [constructor; assumption|].
      pose proof (key_le_lat_le x y Hx Hylat Hxy) as Hle.
      constructor; [exact Hle|].
      eapply Forall_impl; [exact Hy|].
      intros z Hyz. eapply lat_le_trans; eassumption.
    + constructor; [apply IH; assumption|].
      rewrite insert_sorted_Permutation. constructor; [|exact Hy].
      apply key_le_false_lat_le; assumption.
Qed.

Lemma stable_sort_StronglySorted l :
  Forall has_latency l → StronglySorted lat_le (stable_sort l).
Proof.
  induction 1 as [|x l Hx Hl IH]; simpl; [constructor|].
  apply insert_sorted_StronglySorted; try assumption.
  rewrite stable_sort_Permutation. exact Hl.
Qed.

Lemma tied_key_le k x y : tied k x → tied k y → key_le x y = true.
Proof.
  unfold tied, key_le. destruct x.2 as [a|], y.2 as [b|]; try tauto.
  intros Ha Hb. apply Qle_bool_iff. rewrite Ha, Hb. apply Qle_refl.
Qed.

(** Inserting keeps the entries of one latency in their order. *)
Lemma insert_sorted_tied k x l :
  filter (tied k) (insert_sorted x l) = filter (tied k) (x :: l).
Proof.
  induction l as [|y l IH]; simpl; [reflexivity|].
  destruct (key_le x y) eqn:Hxy; [reflexivity|].
  rewrite !filter_cons in *.
  destruct (decide (tied k x)) as [Hx|Hx], (decide (tied k y)) as [Hy|Hy];
    rewrite IH; try reflexivity.
  rewrite (tied_key_le k x y Hx Hy) in Hxy. discriminate.
Qed.

Lemma stable_sort_tied k l :
  filter (tied k) (stable_sort l) = filter (tied k) l.
Proof.
  induction l as [|x l IH]; simpl; [reflexivity|].
  rewrite insert_sorted_tied, !filter_cons, IH. reflexivity.
Qed.

Lemma sorted_returns l st :
  Forall has_latency l → sorted l st = (Ret (stable_sort l), st).
Proof.
  intros Hl. unfold sorted.
  replace (existsb _ l) with false; [rewrite andb_false_r; reflexivity|].
  symmetry. induction Hl as [|x l [a Ha] _ IH]; [reflexivity|].
  simpl. rewrite Ha, IH. reflexivity.
Qed.

Lemma StronglySorted_take n l :
  StronglySorted lat_le l → StronglySorted lat_le (take n l).
Proof.
  intros Hsorted. revert n.
  induction Hsorted as [|x l Hsorted IH Hx]; intros [|n]; simpl;
    try constructor.
  - apply IH.
  - apply Forall_take. exact Hx.
Qed.

End RankingFacts.

(** ** The loop *)

Lemma for_each_cons {A B} (body : B → A → Py B) acc x l st :
  for_each body acc (x :: l) st
  = match body acc x st with
    | (Ret acc', st') => for_each body acc' l st'
    | (Raise e, st') => (Raise e, st')
    end.
Proof. reflexivity. Qed.

(** Futures of any kind: every one of them adds one entry to one list. *)
Lemma for_each_collect_counts futures :
  ∀ working failed st,
  ∃ working' failed' st',
    for_each collect (working, failed) futures st
    = (Ret (working', failed'), st')
    ∧ (length working' + length failed'
       = length working + length failed + length futures)%nat.
Proof.
  induction futures as [|[future server] futures IH]; intros working failed st.
  - exists working, failed, st. split; [reflexivity | simpl; lia].
  - destruct (collect_counts_once working failed future server st)
      as (working1 & failed1 & st1 & Hstep & Hgrow).
    destruct (IH working1 failed1 st1)
      as (working' & failed' & st' & Hrest & Hlen).
    exists working', failed', st'. split.
    + rewrite for_each_cons, Hstep. exact Hrest.
    + rewrite Hlen.
      destruct Hgrow as [(result & -> & ->) | (ip & -> & ->)];
        rewrite length_app; simpl; lia.
Qed.

(** The probes of [order], taken one after the other: those that count
    as working are added to [working] in that order, all the others,
    crashed ones among them, to [failed]. *)
Lemma for_each_collect_probes env cfg order :
  ∀ working failed st,
  ∃ new failed_new st',
    for_each collect (working, failed) (submitted env cfg order) st
    = (Ret (working ++ new, failed ++ failed_new), st')
    ∧ Forall has_latency new
    ∧ new.*1 ++ failed_new ≡ₚ order
    ∧ sublist new.*1 order.
Proof.
  induction order as [|server order IH]; intros working failed st.
  - exists [], [], st. rewrite !app_nil_r.
    repeat split; [constructor | reflexivity | constructor].
  - change (submitted env cfg (server :: order))
      with ((test_single_server env server (domain cfg) (timeout cfg)
               (include_firewall cfg), server) :: submitted env cfg order).
    rewrite for_each_cons.
    assert (∃ lat_or_failed st1,
              collect (working, failed)
                (test_single_server env server (domain cfg) (timeout cfg)
                   (include_firewall cfg), server) st
              = (Ret (match lat_or_failed with
                      | Some lat => (working ++ [(server, Some lat)], failed)
                      | None => (working, failed ++ [server])
                      end), st1))
      as (verdict & st1 & Hstep).
    { destruct (probe_cases env server (domain cfg) (timeout cfg)
                  (include_firewall cfg) st)
        as [[_ Hcrash] | [(e & _ & _ & _ & Hcrash)
                         | (o & st1 & _ & _ & Hrun & _)]].
      - exists None. eexists. eapply collect_crashed. exact Hcrash.
      - exists None. eexists. eapply collect_crashed. exact Hcrash.
      - pose proof (collect_probe _ _ _ _ _ working failed _ _ _ Hrun)
          as Hstep.
        destruct (Spec.counts_as_working o) eqn:Hwork.
        + destruct (working_has_latency o Hwork) as [lat Hlat].
          exists (Some lat). eexists. rewrite Hstep, Hlat. reflexivity.
        + exists None. eexists. exact Hstep. }
    rewrite Hstep.
    destruct verdict as [lat|].
    + destruct (IH (working ++ [(server, Some lat)]) failed st1)
        as (new & failed_new & st' & Hrest & Hlat & Hperm & Hsub).
      exists ((server, Some lat) :: new), failed_new, st'.
      rewrite Hrest, <- app_assoc. repeat split.
      * constructor; [|exact Hlat]. eexists. reflexivity.
      * simpl. constructor. exact Hperm.
      * simpl. constructor. exact Hsub.
    + destruct (IH working (failed ++ [server]) st1)
        as (new & failed_new & st' & Hrest & Hlat & Hperm & Hsub).
      exists new, (server :: failed_new), st'.
      rewrite Hrest, <- app_assoc. repeat split.
      * exact Hlat.
      * rewrite <- Permutation_middle. constructor. exact Hperm.
      * constructor. exact Hsub.
Qed.

(** ** The run *)

Lemma check_dns_servers_run env servers cfg st :
  ∃ report st',
    check_dns_servers env servers cfg st = (Ret report, st')
    ∧ total_tested report = length servers
    ∧ Forall has_latency (working report)
    ∧ (working report).*1 ++ failed report ≡ₚ servers
    ∧ sublist (working report).*1
        (as_completed env 0 (length servers) servers)
    ∧ top5 report = take 5 (stable_sort (working report)).
Proof.
  destruct servers as [|server servers].
  - eexists _, _. split; [reflexivity|]. simpl.
    repeat split; constructor.
  - set (all := server :: servers).
    destruct (write_header_returns env (domain cfg) (include_firewall cfg) st)
      as (st1 & Hheader & _).
    destruct (for_each_collect_probes env cfg
                (as_completed env 0 (length all) all) [] [] (reads 1 st1))
      as (working & failed & st2 & Hloop & Hlat & Hperm & Hsub).
    rewrite as_completed_Permutation in Hperm.
    simpl app in Hloop.
    unfold submitted in Hloop. rewrite <- as_completed_fmap in Hloop.
    rewrite <- (length_fmap
                  (λ server0,
                     (test_single_server env server0 (domain cfg)
                        (timeout cfg) (include_firewall cfg), server0)) all)
      in Hloop.
    unfold check_dns_servers, mbind, Py_bind, time_time.
    subst all. cbv beta iota. rewrite Hheader, Hloop.
    destruct working as [|entry working].
    + eexists _, _. split; [reflexivity|]. simpl.
      repeat split; assumption.
    + rewrite (sorted_returns (entry :: working)) by exact Hlat.
      eexists _, _. split; [reflexivity|]. simpl.
      repeat split; assumption.
Qed.

(** A probe that leaves with an exception is a crash for the engine:
    the server goes to [failed], the others are not disturbed. *)
Example crash_is_counted_as_failed :
  Inet.inet_aton "010.1.1.1" = Some 0x08010101%N
  ∧ test_single_server Scenario.strict_resolver "010.1.1.1" "example.com" 3
      true Scenario.fresh
    = (Raise (Exn ValueError
                "nameserver 010.1.1.1 is not a dns.nameserver.Nameserver instance or text form, IP address, nor a valid https URL"),
       reads 1 Scenario.fresh)
  ∧ ∃ report st',
      check_dns_servers Scenario.strict_resolver ["010.1.1.1"; "8.8.8.8"]
        (Scenario.config true) Scenario.fresh
      = (Ret report, st')
      ∧ (working report).*1 = ["8.8.8.8"]
      ∧ failed report = ["010.1.1.1"]
      ∧ stdout st'
        = ["header written to working_dns.txt";
           "❌ crash 010.1.1.1";
           "✅ 8.8.8.8 firewall blocked 10ms (10.10.34.34)"].
Proof.
  split; [reflexivity|]. split; [reflexivity|].
  eexists _, _. split; [vm_compute; reflexivity|].
  repeat split.
Qed.

(** ** The engine, turn by turn *)

Section StepFacts.

Context (env : Env) (cfg : Config).

Let probe (server : string) : Py probe_result :=
  test_single_server env server (domain cfg) (timeout cfg)
    (include_firewall cfg).

(** One turn of the loop, in full. *)
Lemma collect_step working failed server st :
  ∃ st',
    collect (working, failed) (probe server, server) st
    = (Ret (if counted_working env cfg server
            then (working
                    ++ [(server, Some (elapsed_ms env (clock_reads st) 1))],
                  failed)
            else (working, failed ++ [server])), st')
    ∧ wire st'
      = wire st ++ (if queried env cfg server
                    then [(server, domain cfg, timeout cfg)] else [])
    ∧ append_calls st'
      = (if counted_working env cfg server then S (append_calls st)
         else append_calls st)
    ∧ working_dns_txt st'
      = working_dns_txt st ++ appended env cfg server st.
Proof.
  unfold appended, counted_working, queried, sentinel_reply, probe.
  destruct (has_nul server) eqn:Hnul; cbn [negb andb];
    [|destruct (Inet.inet_aton server) as [a|] eqn:Hinet;
      [destruct (resolver_fault env server (timeout cfg))
         as [crash|] eqn:Hbuilt|]].
  - (* the check of the address raises *)
    rewrite andb_false_r. simpl.
    eexists. split.
    + eapply collect_crashed, probe_nul. exact Hnul.
    + simpl. rewrite !app_nil_r. auto.
  - (* the resolver cannot be built *)
    rewrite andb_false_r. simpl.
    eexists. split.
    + eapply collect_crashed, probe_crashed;
        [exact Hnul | rewrite Hinet; eauto | eassumption].
    + simpl. rewrite !app_nil_r. auto.
  - assert (query_is_sent env server (timeout cfg)) as Hsent
      by (split; [exact Hnul | split; [rewrite Hinet; eauto | exact Hbuilt]]).
    rewrite andb_true_r.
    destruct (dns_reply env server (domain cfg) (timeout cfg))
      as [answers|e] eqn:Hreply.
    + rewrite firewall_found_first_sentinel.
      destruct (Spec.first_sentinel answers) as [fw|] eqn:Hfw.
      * rewrite bool_decide_eq_true_2 by eauto. rewrite andb_true_r.
        pose proof (probe_blocked env server (domain cfg) (timeout cfg)
                      (include_firewall cfg) st answers fw Hsent Hreply Hfw)
          as Hrun.
        cbv zeta in Hrun.
        pose proof (collect_probe _ _ _ _ _ working failed _ _ _ Hrun)
          as Hloop.
        destruct (include_firewall cfg); eexists; (split; [exact Hloop|]);
          simpl; [|rewrite app_nil_r; auto].
        unfold real_time_save, try_except, open_a_write. simpl.
        destruct (append_fault env (append_calls st)) as [e|]; simpl.
        -- rewrite isinstance_Exception. simpl. rewrite app_nil_r. auto.
        -- auto.
      * rewrite bool_decide_eq_false_2 by (intros [? ?]; discriminate).
        rewrite andb_false_r.
        pose proof (probe_unblocked env server (domain cfg) (timeout cfg)
                      (include_firewall cfg) st answers Hsent Hreply Hfw)
          as Hrun.
        pose proof (collect_probe _ _ _ _ _ working failed _ _ _ Hrun)
          as Hloop.
        eexists. split; [exact Hloop|]. simpl. rewrite app_nil_r. auto.
    + rewrite andb_false_r.
      pose proof (probe_raised env server (domain cfg) (timeout cfg)
                    (include_firewall cfg) st e Hsent Hreply) as Hrun.
      pose proof (collect_probe _ _ _ _ _ working failed _ _ _ Hrun)
        as Hloop.
      rewrite failure_is_not_working in Hloop.
      eexists. split; [exact Hloop|]. simpl. rewrite app_nil_r. auto.
  - (* invalid ip *)
    rewrite andb_false_r. simpl.
    pose proof (probe_invalid env server (domain cfg) (timeout cfg)
                  (include_firewall cfg) st Hnul Hinet) as Hrun.
    pose proof (collect_probe _ _ _ _ _ working failed _ _ _ Hrun) as Hloop.
    eexists. split; [exact Hloop|]. simpl. rewrite !app_nil_r. auto.
Qed.

End StepFacts.

Section LoopFacts.

Context (env : Env) (cfg : Config).

(** What one probe adds to the file: nothing, or the record of the entry
    it adds to [working]. *)
Lemma appended_cases server st :
  (appended env cfg server st = []
   ∧ (counted_working env cfg server = true →
      is_Some (append_fault env (append_calls st))))
  ∨ (counted_working env cfg server = true
     ∧ append_fault env (append_calls st) = None
     ∧ ∃ line,
         appended env cfg server st = [line]
         ∧ record_of line
             (server, Some (elapsed_ms env (clock_reads st) 1))).
Proof.
  unfold appended.
  destruct (counted_working env cfg server) eqn:Hcount;
    [|left; split; [reflexivity | discriminate]].
  destruct (append_fault env (append_calls st)) as [e|] eqn:Hfault;
    [left; split; [reflexivity | eauto]|].
  right. split; [reflexivity|]. split; [reflexivity|].
  unfold counted_working, sentinel_reply in Hcount.
  apply andb_prop in Hcount as [_ Hreply].
  destruct (dns_reply env server (domain cfg) (timeout cfg))
    as [answers|e]; [|discriminate].
  rewrite firewall_found_first_sentinel in Hreply.
  apply bool_decide_eq_true_1 in Hreply as [fw Hfw]. rewrite Hfw.
  eexists. split; [reflexivity|].
  exists fw. eexists. split; [|split; reflexivity].
  apply first_sentinel_Some in Hfw as (? & ? & _ & Hin & _). exact Hin.
Qed.

(** The loop over the probes of [order], in full: who goes where, what
    goes on the wire, and what goes into the file. *)
Lemma for_each_collect_full order :
  ∀ working failed st,
  ∃ new records kept st',
    for_each collect (working, failed) (submitted env cfg order) st
    = (Ret (working ++ new,
            failed ++ filter (λ s, counted_working env cfg s = false) order),
       st')
    ∧ new.*1 = filter (λ s, counted_working env cfg s = true) order
    ∧ Forall has_latency new
    ∧ wire st'
      = wire st
          ++ ((λ s, (s, domain cfg, timeout cfg))
                <$> filter (λ s, queried env cfg s = true) order)
    ∧ append_calls st' = (append_calls st + length new)%nat
    ∧ working_dns_txt st' = working_dns_txt st ++ records
    ∧ Forall2 record_of records kept
    ∧ sublist kept new
    ∧ ((∀ n, append_fault env n = None) → kept = new).
Proof.
  induction order as [|server order IH]; intros working failed st.
  - exists [], [], [], st. rewrite !app_nil_r. simpl.
    repeat split; auto; constructor.
  - change (submitted env cfg (server :: order))
      with ((test_single_server env server (domain cfg) (timeout cfg)
               (include_firewall cfg), server) :: submitted env cfg order).
    rewrite for_each_cons.
    destruct (collect_step env cfg working failed server st)
      as (st1 & Hstep & Hwire & Hcalls & Hfile).
    rewrite Hstep, !filter_cons.
    assert (wire st1
            = wire st
                ++ ((λ s, (s, domain cfg, timeout cfg))
                      <$> (if decide (queried env cfg server = true)
                           then [server] else []))) as Hwire'.
    { rewrite Hwire. destruct (queried env cfg server);
        [rewrite decide_True by reflexivity
        |rewrite decide_False by discriminate]; reflexivity. }
    assert (∀ tail : list string,
              (if decide (queried env cfg server = true)
               then server :: tail else tail)
              = (if decide (queried env cfg server = true)
                 then [server] else []) ++ tail) as Hsplit
      by (intros; case_decide; reflexivity).
    rewrite Hsplit. clear Hwire Hsplit.
    destruct (appended_cases server st)
      as [[Hnone Hwhy] | (Hcount & Hgo & line & Hline & Hrec)];
      [destruct (counted_working env cfg server) eqn:Hcount|].
    + (* counted, the append refused *)
      destruct (IH (working
                      ++ [(server, Some (elapsed_ms env (clock_reads st) 1))])
                  failed st1)
        as (new & records & kept & st' & Hrest & Hnames & Hlat & Hw & Hc
            & Hf & Hrecs & Hsub & Hall).
      exists ((server, Some (elapsed_ms env (clock_reads st) 1)) :: new),
        records, kept, st'.
      rewrite Hrest, <- app_assoc.
      rewrite (decide_True (P := true = true)) by reflexivity.
      rewrite (decide_False (P := true = false)) by discriminate.
      repeat split; try assumption.
      * simpl. f_equal. exact Hnames.
      * constructor; [eexists; reflexivity | exact Hlat].
      * rewrite Hw, Hwire', fmap_app, <- app_assoc. reflexivity.
      * rewrite Hc, Hcalls. simpl. lia.
      * rewrite Hf, Hfile, Hnone, app_nil_r. reflexivity.
      * constructor. exact Hsub.
      * intros Hdisk. destruct (Hwhy eq_refl) as [e He].
        rewrite Hdisk in He. discriminate.
    + (* not counted *)
      destruct (IH working (failed ++ [server]) st1)
        as (new & records & kept & st' & Hrest & Hnames & Hlat & Hw & Hc
            & Hf & Hrecs & Hsub & Hall).
      exists new, records, kept, st'.
      rewrite Hrest, <- app_assoc.
      rewrite (decide_False (P := false = true)) by discriminate.
      rewrite (decide_True (P := false = false)) by reflexivity.
      repeat split; try assumption.
      * rewrite Hw, Hwire', fmap_app, <- app_assoc. reflexivity.
      * rewrite Hc, Hcalls. reflexivity.
      * rewrite Hf, Hfile, Hnone, app_nil_r. reflexivity.
    + (* counted, the line appended *)
      rewrite Hcount in *.
      destruct (IH (working
                      ++ [(server, Some (elapsed_ms env (clock_reads st) 1))])
                  failed st1)
        as (new & records & kept & st' & Hrest & Hnames & Hlat & Hw & Hcs
            & Hf & Hrecs & Hsub & Hall).
      exists ((server, Some (elapsed_ms env (clock_reads st) 1)) :: new),
        (line :: records),
        ((server, Some (elapsed_ms env (clock_reads st) 1)) :: kept), st'.
      rewrite Hrest, <- app_assoc.
      rewrite (decide_True (P := true = true)) by reflexivity.
      rewrite (decide_False (P := true = false)) by discriminate.
      repeat split; try assumption.
      * simpl. f_equal. exact Hnames.
      * constructor; [eexists; reflexivity | exact Hlat].
      * rewrite Hw, Hwire', fmap_app, <- app_assoc. reflexivity.
      * rewrite Hcs, Hcalls. simpl. lia.
      * rewrite Hf, Hfile, Hline, <- app_assoc. reflexivity.
      * constructor; assumption.
      * constructor. exact Hsub.
      * intros Hdisk. rewrite (Hall Hdisk). reflexivity.
Qed.

End LoopFacts.

Section RunFacts.

Context (env : Env) (cfg : Config).

Lemma write_header_effect st :
  ∃ st1,
    write_header env (domain cfg) (include_firewall cfg) st = (Ret (), st1)
    ∧ clock_reads st1 = clock_reads st
    ∧ append_calls st1 = append_calls st
    ∧ wire st1 = wire st
    ∧ working_dns_txt st1 = after_header env cfg (working_dns_txt st).
Proof.
  unfold write_header, try_except, open_w_write, after_header, header_lines.
  unfold mbind, Py_bind, print.
  destruct (header_fault env) as [[e [n|]]|]; simpl;
    rewrite ?isinstance_Exception; eexists; repeat split.
Qed.

Lemma counted_working_true server :
  counted_working env cfg server = true ↔
  include_firewall cfg = true
  ∧ query_is_sent env server (timeout cfg)
  ∧ ∃ answers,
      dns_reply env server (domain cfg) (timeout cfg) = Ret answers
      ∧ ∃ ip, ip ∈ answers ∧ ip ∈ firewall_ips.
Proof.
  unfold counted_working, queried, sentinel_reply, query_is_sent.
  split.
  - intros Hall. apply andb_prop in Hall as [Hrest Hreply].
    apply andb_prop in Hrest as [Hmode Hq].
    split; [exact Hmode|].
    destruct (has_nul server); [discriminate|].
    destruct (Inet.inet_aton server) as [a|]; [|discriminate].
    destruct (resolver_fault env server (timeout cfg)); [discriminate|].
    split; [eauto|].
    destruct (dns_reply env server (domain cfg) (timeout cfg))
      as [answers|e]; [|discriminate].
    exists answers. split; [reflexivity|].
    rewrite firewall_found_first_sentinel in Hreply.
    apply bool_decide_eq_true_1 in Hreply as [fw Hfw].
    apply first_sentinel_Some in Hfw as (before & after & -> & Hin & _).
    exists fw. split; [|exact Hin].
    apply list_elem_of_In, in_elt.
  - intros (-> & (-> & [a ->] & ->) & answers & -> & Hhit).
    destruct (sentinel_present answers Hhit) as [fw Hfw].
    rewrite firewall_found_first_sentinel, Hfw.
    rewrite bool_decide_eq_true_2 by eauto. reflexivity.
Qed.

(** A run over a list that is not empty, in full. *)
Lemma check_dns_servers_full server servers st :
  let all := server :: servers in
  let order := as_completed env 0 (length all) all in
  ∃ report st1 st' records kept,
    write_header env (domain cfg) (include_firewall cfg) st = (Ret (), st1)
    ∧ check_dns_servers env all cfg st = (Ret report, st')
    ∧ total_tested report = length all
    ∧ (working report).*1
      = filter (λ s, counted_working env cfg s = true) order
    ∧ failed report = filter (λ s, counted_working env cfg s = false) order
    ∧ Forall has_latency (working report)
    ∧ success_rate report
      = (inject_Z (Z.of_nat (length (working report)))
           / inject_Z (Z.of_nat (length all)) * 100)%Q
    ∧ top5 report = take 5 (stable_sort (working report))
    ∧ wire st'
      = wire st
          ++ ((λ s, (s, domain cfg, timeout cfg))
                <$> filter (λ s, queried env cfg s = true) order)
    ∧ append_calls st'
      = (append_calls st + length (working report))%nat
    ∧ working_dns_txt st' = working_dns_txt st1 ++ records
    ∧ Forall2 record_of records kept
    ∧ sublist kept (working report)
    ∧ ((∀ n, append_fault env n = None) → kept = working report).
Proof.
  intros all order.
  destruct (write_header_effect st) as (st1 & Hheader & _ & Hcalls1 & Hwire1 & _).
  destruct (for_each_collect_full env cfg order [] [] (reads 1 st1))
    as (won & records & kept & st2 & Hloop & Hnames & Hlat & Hwire
        & Hcalls & Hfile & Hrecs & Hsub & Hall).
  rewrite !app_nil_l in Hloop.
  change (wire (reads 1 st1)) with (wire st1) in Hwire.
  change (append_calls (reads 1 st1)) with (append_calls st1) in Hcalls.
  change (working_dns_txt (reads 1 st1)) with (working_dns_txt st1) in Hfile.
  rewrite Hwire1 in Hwire. rewrite Hcalls1 in Hcalls.
  set (submit := λ server0 : string,
         (test_single_server env server0 (domain cfg) (timeout cfg)
            (include_firewall cfg), server0)).
  assert (as_completed env 0 (length (submit <$> all)) (submit <$> all)
          = submitted env cfg order) as Hfutures.
  { rewrite length_fmap, as_completed_fmap. reflexivity. }
  unfold check_dns_servers, mbind, Py_bind, time_time.
  subst all. cbv beta iota zeta. fold submit.
  rewrite Hheader, Hfutures, Hloop.
  destruct won as [|entry won].
  - eexists _, st1, _, records, kept. split; [reflexivity|].
    split; [reflexivity|].
    cbn [total_tested working failed success_rate top5].
    repeat split; assumption.
  - rewrite (sorted_returns (entry :: won)) by exact Hlat.
    eexists _, st1, _, records, kept. split; [reflexivity|].
    split; [reflexivity|].
    cbn [total_tested working failed success_rate top5].
    repeat split; assumption.
Qed.

(** Whether a probe succeeds does not depend on when it is run. *)
Lemma probe_succeeds_iff server st :
  succeeds (test_single_server env server (domain cfg) (timeout cfg)
              (include_firewall cfg)) st
  ↔ counted_working env cfg server = true.
Proof.
  destruct (collect_step env cfg [] [] server st) as (st' & Hstep & _).
  cbv zeta in Hstep. split.
  - intros (result & message & st1 & Hrun). destruct result as [ip lat].
    erewrite collect_returned in Hstep by exact Hrun.
    destruct (counted_working env cfg server); [reflexivity|].
    discriminate Hstep.
  - intros Hcounted. rewrite Hcounted in Hstep.
    destruct (test_single_server env server (domain cfg) (timeout cfg)
                (include_firewall cfg) st)
      as [[[[ok [ip lat]] msg]|e] st1] eqn:Hrun.
    + erewrite collect_returned in Hstep by exact Hrun.
      destruct ok; [|discriminate Hstep].
      exists (ip, lat), msg, st1. exact Hrun.
    + erewrite collect_crashed in Hstep by exact Hrun. discriminate Hstep.
Qed.

End RunFacts.

(** A run, by the verdicts of its probes. *)
Lemma check_dns_servers_verdicts env servers cfg st :
  ∃ report st',
    check_dns_servers env servers cfg st = (Ret report, st')
    ∧ total_tested report = length servers
    ∧ (working report).*1 ++ failed report ≡ₚ servers
    ∧ (∀ s, s ∈ (working report).*1
            ↔ s ∈ servers ∧ counted_working env cfg s = true)
    ∧ (∀ s, s ∈ failed report
            ↔ s ∈ servers ∧ counted_working env cfg s = false).
Proof.
  destruct (check_dns_servers_run env servers cfg st)
    as (report & st' & Hrun & Htested & _ & Hperm & _).
  exists report, st'. split; [exact Hrun|]. split; [exact Htested|].
  split; [exact Hperm|].
  destruct servers as [|server servers].
  - injection Hrun as <- _. simpl.
    split; intros s; split;
      solve [intros Hin; inversion Hin | intros [Hin _]; inversion Hin].
  - destruct (check_dns_servers_full env cfg server servers st)
      as (report' & st1 & st'' & records & kept & _ & Hrun' & _ & Hnames
          & Hfailed & _).
    rewrite Hrun in Hrun'. injection Hrun' as <- _.
    split; intros s.
    + rewrite Hnames, list_elem_of_filter, as_completed_Permutation. tauto.
    + rewrite Hfailed, list_elem_of_filter, as_completed_Permutation. tauto.
Qed.

(** An address the check lets through is queried once the resolver is
    built. *)
Lemma accepted_address_is_queried
    env server domain timeout include_firewall st :
  query_is_sent env server timeout →
  wire (test_single_server env server domain timeout include_firewall st).2
  = wire st ++ [(server, domain, timeout)].
Proof.
  intros Hsent.
  destruct (dns_reply env server domain timeout) as [answers|e] eqn:Hreply.
  - destruct (Spec.first_sentinel answers) as [fw|] eqn:Hfw.
    + rewrite (probe_blocked env server domain timeout include_firewall st
                 answers fw Hsent Hreply Hfw). simpl.
      destruct include_firewall; [|reflexivity].
      match goal with
      | |- wire (real_time_save ?e ?l ?s).2 = _ =>
          destruct (real_time_save_returns e l s) as (st' & Hsave & _ & Hwire);
          rewrite Hsave; simpl; rewrite Hwire
      end.
      reflexivity.
    + rewrite (probe_unblocked env server domain timeout include_firewall st
                 answers Hsent Hreply Hfw). reflexivity.
  - rewrite (probe_raised env server domain timeout include_firewall st
               e Hsent Hreply). reflexivity.
Qed.


(* ==================================================================== *)
(** * The claims *)

(** C1, on the program: two servers that resolve normally, in the
    filtering mode.  Both probes end in the generic error, nothing is
    added to the file after the four lines of the header, and the
    success rate is zero. *)
Theorem normal_answers_end_in_error :
  ∃ report st',
    check_dns_servers Scenario.resolves_normally
      ["1.1.1.1"; "8.8.8.8"] (Scenario.config false) Scenario.fresh
    = (Ret report, st')
    ∧ working report = []
    ∧ failed report = ["1.1.1.1"; "8.8.8.8"]
    ∧ (success_rate report == 0)%Q
    ∧ working_dns_txt st'
      = ["# working dns servers - tested: 26-01-01 00:00:00";
         "# test domain: example.com";
         "# mode: filtering firewall responses - 10.10.34.34, 10.10.34.35, 10.10.34.36";
         "# format: ip (response_time_ms) [firewall: fw_ip]"]
    ∧ wire st'
      = [("1.1.1.1", "example.com", 3%Z); ("8.8.8.8", "example.com", 3%Z)]
    ∧ stdout st'
      = ["header written to working_dns.txt";
         "❌ 1.1.1.1 error"; "❌ 8.8.8.8 error"].
Proof.
  eexists _, _. split; [vm_compute; reflexivity|].
  repeat split.
Qed.



(** C3: when the query is sent and the answers hold a sentinel, the
    outcome is [FirewallBlocked] with the first sentinel in the order of
    the answers, in either mode, and it is no [Success]. *)
Theorem sentinel_answer_is_firewall_blocked
    env server domain timeout include_firewall st answers :
  query_is_sent env server timeout →
  dns_reply env server domain timeout = Ret answers →
  (∃ ip, ip ∈ answers ∧ ip ∈ firewall_ips) →
  ∃ fw before after st',
    answers = before ++ fw :: after
    ∧ fw ∈ firewall_ips
    ∧ Forall (λ ip, ip ∉ firewall_ips) before
    ∧ test_single_server env server domain timeout include_firewall st
      = (Ret (Spec.encode server
                (Spec.FirewallBlocked (elapsed_ms env (clock_reads st) 1)
                   fw include_firewall)), st')
    ∧ ∀ rt ip,
        Spec.encode server
          (Spec.FirewallBlocked (elapsed_ms env (clock_reads st) 1)
             fw include_firewall)
        ≠ Spec.encode server (Spec.Success rt ip).
Proof.
  intros Hsent Hreply Hhit.
  destruct (sentinel_present answers Hhit) as [fw Hfw].
  pose proof Hfw as Hsplit.
  apply first_sentinel_Some in Hsplit as (before & after & Heq & Hin & Hpre).
  exists fw, before, after. eexists. repeat split; try assumption.
  - eapply probe_blocked; eassumption.
  - intros rt ip. apply blocked_is_not_success.
Qed.

Lemma sentinel_answer_witness :
  query_is_sent Scenario.intercepted "1.1.1.1" 3
  ∧ dns_reply Scenario.intercepted "1.1.1.1" "example.com" 3
    = Ret ["93.184.216.34"; "10.10.34.35"; "10.10.34.34"]
  ∧ (∃ ip, ip ∈ ["93.184.216.34"; "10.10.34.35"; "10.10.34.34"]
           ∧ ip ∈ firewall_ips)
  ∧ ∃ fw before after st',
      ["93.184.216.34"; "10.10.34.35"; "10.10.34.34"] = before ++ fw :: after
      ∧ fw ∈ firewall_ips
      ∧ Forall (λ ip, ip ∉ firewall_ips) before
      ∧ test_single_server Scenario.intercepted "1.1.1.1" "example.com" 3
          false Scenario.fresh
        = (Ret (Spec.encode "1.1.1.1"
                  (Spec.FirewallBlocked
                     (elapsed_ms Scenario.intercepted 0 1) fw false)), st')
      ∧ ∀ rt ip,
          Spec.encode "1.1.1.1"
            (Spec.FirewallBlocked (elapsed_ms Scenario.intercepted 0 1)
               fw false)
          ≠ Spec.encode "1.1.1.1" (Spec.Success rt ip).
Proof.
  assert (query_is_sent Scenario.intercepted "1.1.1.1" 3) as Hsent
    by (split; [reflexivity | split; [vm_compute; eauto | reflexivity]]).
  assert (∃ ip, ip ∈ ["93.184.216.34"; "10.10.34.35"; "10.10.34.34"]
                ∧ ip ∈ firewall_ips) as Hhit.
  { exists "10.10.34.35". split; [|vm_compute; reflexivity].
    apply list_elem_of_In. simpl. auto. }
  split; [exact Hsent|]. split; [reflexivity|]. split; [exact Hhit|].
  exact (sentinel_answer_is_firewall_blocked Scenario.intercepted
           "1.1.1.1" "example.com" 3 false Scenario.fresh _
           Hsent eq_refl Hhit).
Defined.







(** C6, as stated, fails on the ties: two servers answer in the same
    time, 9.765625 ms, the future of the second of the input is yielded
    first, and it is listed first. *)
Lemma ties_follow_yield_order_not_input :
  ∃ report st',
    check_dns_servers Scenario.second_yielded_first
      ["1.1.1.1"; "8.8.8.8"] (Scenario.config true) Scenario.fresh
    = (Ret report, st')
    ∧ (top5 report).*1 = ["8.8.8.8"; "1.1.1.1"]
    ∧ Forall (tied (625 # 64)) (top5 report)
    ∧ ¬ ties_follow_input_order ["1.1.1.1"; "8.8.8.8"] (top5 report).
Proof.
  eexists _, _. split; [vm_compute; reflexivity|].
  split; [reflexivity|].
  split; [repeat constructor|].
  intros Hclaim.
  destruct (Hclaim 0%nat 1%nat _ _ ltac:(lia) eq_refl eq_refl)
    as (p & q & Hp & Hq & Hlt).
  - eexists _, _. split; [reflexivity|]. split; [reflexivity|].
    vm_compute. reflexivity.
  - destruct q as [|[|q]]; simpl in Hq; try discriminate. lia.
Qed.

(** C6, amended: the five listed (fewer when fewer worked) are the head
    of a ranking of [working] which is ascending in latency and keeps
    entries of equal latency in the order of [working], that is the
    order in which [as_completed] yielded their futures. *)
Theorem top5_is_head_of_stable_ranking env servers cfg st :
  ∃ report st' ranking,
    check_dns_servers env servers cfg st = (Ret report, st')
    ∧ top5 report = take 5 ranking
    ∧ length (top5 report) = (5 `min` length (working report))%nat
    ∧ StronglySorted lat_le (top5 report)
    ∧ ranking ≡ₚ working report
    ∧ StronglySorted lat_le ranking
    ∧ (∀ k, filter (tied k) ranking = filter (tied k) (working report))
    ∧ sublist (working report).*1
        (as_completed env 0 (length servers) servers).
Proof.
  destruct (check_dns_servers_run env servers cfg st)
    as (report & st' & Hrun & _ & Hlat & _ & Hsub & Htop).
  exists report, st', (stable_sort (working report)).
  repeat split; try assumption.
  - rewrite Htop, length_take.
    rewrite (Permutation_length (stable_sort_Permutation _)). reflexivity.
  - rewrite Htop. apply StronglySorted_take, stable_sort_StronglySorted, Hlat.
  - apply stable_sort_Permutation.
  - apply stable_sort_StronglySorted, Hlat.
  - intros k. apply stable_sort_tied.
Qed.

(** C7, as stated, fails: [time.time()] is the clock of the wall, and
    when it is set back between the two reads of a probe the latency is
    negative.  Here the clock reads one second, then 5/512 of a second:
    the latency is -990.234375 ms. *)
Lemma latency_is_negative_when_the_clock_is_set_back :
  (test_single_server Scenario.clock_set_back "1.1.1.1" "example.com" 3
     true Scenario.fresh).1
  = Ret (true,
         ("1.1.1.1", Some (elapsed_ms Scenario.clock_set_back 0 1)),
         "1.1.1.1 firewall blocked -990ms (10.10.34.35)")
  ∧ (elapsed_ms Scenario.clock_set_back 0 1 == - (63375 # 64))%Q
  ∧ ¬ latency_never_negative Scenario.clock_set_back "1.1.1.1".
Proof.
  split; [vm_compute; reflexivity|]. split; [reflexivity|].
  intros Hclaim.
  assert (0 <= elapsed_ms Scenario.clock_set_back 0 1)%Q as Hpos.
  { apply (Hclaim "example.com" 3%Z true Scenario.fresh
             (Spec.FirewallBlocked (elapsed_ms Scenario.clock_set_back 0 1)
                "10.10.34.35" true)
             (test_single_server Scenario.clock_set_back "1.1.1.1"
                "example.com" 3 true Scenario.fresh).2);
      [vm_compute; reflexivity | reflexivity]. }
  vm_compute in Hpos. apply Hpos. reflexivity.
Qed.

(** C7, amended: the only outcome without a latency is
    [InvalidAddress].  Every other outcome carries the time between the
    read of the clock at the start of the probe and the first or the
    second read after it, in milliseconds: it is non-negative exactly
    when the clock did not go back between these two reads, so it is
    never negative with a clock that never goes back. *)
Theorem latency_is_made_of_two_clock_reads
    env server domain timeout include_firewall st ok ip lat msg st' :
  test_single_server env server domain timeout include_firewall st
  = (Ret (ok, (ip, lat), msg), st') →
  ip = server
  ∧ (lat = None ↔
     (ok, (ip, lat), msg) = Spec.encode server Spec.InvalidAddress)
  ∧ (∀ q, lat = Some q →
       ∃ k, (1 ≤ k ≤ 2)%nat
            ∧ q = elapsed_ms env (clock_reads st) k
            ∧ ((0 <= q)%Q
               ↔ (clock env (clock_reads st)
                  <= clock env (k + clock_reads st))%Q))
  ∧ ((∀ n, (clock env n <= clock env (S n))%Q) →
     ∀ q, lat = Some q → (0 <= q)%Q).
Proof.
  intros Hrun.
  destruct (probe_returned _ _ _ _ _ _ _ _ Hrun) as (o & Henc & Hlat).
  pose proof (encode_latency server o) as Hpair.
  rewrite <- Henc in Hpair. simpl in Hpair. injection Hpair as -> ->.
  split; [reflexivity|].
  destruct Hlat as [-> | (k & Hk & Hread)].
  - split; [split; [intros _; exact Henc | reflexivity]|].
    split; [discriminate|]. intros _. discriminate.
  - rewrite Hread. split; [|split].
    + split; [discriminate|]. intros Heq. simpl in Heq. discriminate Heq.
    + intros q [= <-]. exists k. split; [exact Hk|].
      split; [reflexivity|]. apply elapsed_ms_sign.
    + intros Hstep q [= <-]. apply clock_monotone. exact Hstep.
Qed.

Lemma latency_witness :
  test_single_server Scenario.silent "1.1.1.1" "example.com" 3 false
    Scenario.fresh
  = (Ret (false, ("1.1.1.1", Some (elapsed_ms Scenario.silent 0 1)),
          "1.1.1.1 timeout"),
     reads 2 (sent ("1.1.1.1", "example.com", 3%Z) Scenario.fresh))
  ∧ (0 <= elapsed_ms Scenario.silent 0 1)%Q.
Proof.
  assert (∀ n, (clock Scenario.silent n <= clock Scenario.silent (S n))%Q)
    as Hstep.
  { intros n. unfold Qle. simpl. lia. }
  assert (test_single_server Scenario.silent "1.1.1.1" "example.com" 3 false
            Scenario.fresh
          = (Ret (false, ("1.1.1.1", Some (elapsed_ms Scenario.silent 0 1)),
                  "1.1.1.1 timeout"),
             reads 2 (sent ("1.1.1.1", "example.com", 3%Z) Scenario.fresh)))
    as Hrun by reflexivity.
  split; [exact Hrun|].
  destruct (latency_is_made_of_two_clock_reads Scenario.silent
              "1.1.1.1" "example.com" 3 false Scenario.fresh
              _ _ _ _ _ Hrun) as (_ & _ & _ & Hpos).
  apply (Hpos Hstep). reflexivity.
Defined.

(** C8: the classification reads the answers only.  With no sentinel
    among them there is no match; otherwise the match is the first
    sentinel in the order of the answers; asking twice gives the same
    match twice and leaves the world as it was. *)
Theorem classification_is_first_sentinel (answers : list string) (st : State) :
  (Forall (λ ip, ip ∉ firewall_ips) answers → firewall_found answers = false)
  ∧ (∀ before fw after,
       answers = before ++ fw :: after →
       fw ∈ firewall_ips →
       Forall (λ ip, ip ∉ firewall_ips) before →
       firewall_found answers = true
       ∧ next_fw answers st = (Ret fw, st)
       ∧ (first ← next_fw answers; again ← next_fw answers;
          mret (first, again)) st = (Ret (fw, fw), st))
  ∧ firewall_found answers
    = bool_decide (is_Some (Spec.first_sentinel answers)).
Proof.
  split; [|split].
  - intros Hnone. apply first_sentinel_None in Hnone.
    rewrite firewall_found_first_sentinel, Hnone. reflexivity.
  - intros before fw after Heq Hfw Hpre.
    assert (Spec.first_sentinel answers = Some fw) as Hfirst.
    { apply first_sentinel_Some. eauto. }
    split; [|split].
    + rewrite firewall_found_first_sentinel, Hfirst. reflexivity.
    + rewrite next_fw_first_sentinel, Hfirst. reflexivity.
    + unfold mbind, Py_bind, mret, Py_ret.
      rewrite next_fw_first_sentinel, Hfirst.
      rewrite next_fw_first_sentinel, Hfirst. reflexivity.
  - apply firewall_found_first_sentinel.
Qed.

(** C9: every task is counted once, by what its future did.  One turn
    of the loop, for any future: a success puts its result at the end of
    [working], a failure puts the address it returned at the end of
    [failed], and an exception puts the server of the future at the end
    of [failed]; the other list is left as it is.  So a loop over any
    futures adds as many entries as there are futures.  After a run the
    servers tested are the working ones together with the failed ones,
    a server is in [working] exactly when its probe succeeds, and in
    [failed] exactly when its probe fails or raises. *)
Theorem every_task_counted_once env servers cfg st :
  (∀ working failed (future : Py probe_result) server s,
     collect (working, failed) (future, server) s
     = match future s with
       | (Ret (true, result, message), s') =>
           (Ret (working ++ [result], failed),
            printed ("✅ " +:+ message) s')
       | (Ret (false, (server_ip, _), message), s') =>
           (Ret (working, failed ++ [server_ip]),
            printed ("❌ " +:+ message) s')
       | (Raise _, s') =>
           (Ret (working, failed ++ [server]),
            printed ("❌ crash " +:+ server) s')
       end)
  ∧ (∀ futures working failed s,
       ∃ working' failed' s',
         for_each collect (working, failed) futures s
         = (Ret (working', failed'), s')
         ∧ (length working' + length failed'
            = length working + length failed + length futures)%nat)
  ∧ (∃ report st',
       check_dns_servers env servers cfg st = (Ret report, st')
       ∧ total_tested report = length servers
       ∧ (length (working report) + length (failed report))%nat
         = total_tested report
       ∧ (working report).*1 ++ failed report ≡ₚ servers
       ∧ (∀ s, s ∈ (working report).*1
               ↔ s ∈ servers
                 ∧ ∀ st0,
                     succeeds
                       (test_single_server env s (domain cfg) (timeout cfg)
                          (include_firewall cfg)) st0)
       ∧ (∀ s, s ∈ failed report
               ↔ s ∈ servers
                 ∧ ∀ st0,
                     ¬ succeeds
                         (test_single_server env s (domain cfg)
                            (timeout cfg) (include_firewall cfg)) st0)).
Proof.
  split; [|split].
  - intros working failed future server s.
    destruct (future s) as [[[[ok [ip lat]] msg]|e] s'] eqn:Hrun.
    + rewrite (collect_returned _ _ _ _ _ ok ip lat msg s' Hrun).
      destruct ok; reflexivity.
    + apply (collect_crashed _ _ _ _ _ e). exact Hrun.
  - intros. apply for_each_collect_counts.
  - destruct (check_dns_servers_verdicts env servers cfg st)
      as (report & st' & Hrun & Htested & Hperm & Hworking & Hfailed).
    exists report, st'. split; [exact Hrun|]. split; [exact Htested|].
    split; [|split; [exact Hperm|split]].
    + rewrite Htested. apply Permutation_length in Hperm.
      rewrite length_app, length_fmap in Hperm. exact Hperm.
    + intros s. rewrite Hworking. split.
      * intros [Hin Hcounted]. split; [exact Hin|].
        intros st0. apply probe_succeeds_iff. exact Hcounted.
      * intros [Hin Hall]. split; [exact Hin|].
        apply (probe_succeeds_iff env cfg s st), Hall.
    + intros s. rewrite Hfailed. split.
      * intros [Hin Hcounted]. split; [exact Hin|].
        intros st0 Hgood. apply probe_succeeds_iff in Hgood. congruence.
      * intros [Hin Hall]. split; [exact Hin|].
        destruct (counted_working env cfg s) eqn:Hcounted; [|reflexivity].
        destruct (Hall st). apply probe_succeeds_iff. exact Hcounted.
Qed.



(* ==================================================================== *)
(** * Further properties *)

(** ** The engine *)

Lemma filter_none {A} (P : A → Prop) `{∀ x, Decision (P x)} (l : list A) :
  (∀ x, ¬ P x) → filter P l = [].
Proof.
  intros Hnever. induction l as [|x l IH]; [reflexivity|].
  rewrite filter_cons, decide_False by apply Hnever. exact IH.
Qed.

Lemma filter_all {A} (P : A → Prop) `{∀ x, Decision (P x)} (l : list A) :
  (∀ x, P x) → filter P l = l.
Proof.
  intros Halways. induction l as [|x l IH]; [reflexivity|].
  rewrite filter_cons, decide_True by apply Halways. rewrite IH. reflexivity.
Qed.

(** X1: in the filtering mode no server is ever counted as working: every
    server ends in [failed], the list of the fastest is empty, the rate is
    zero, and [real_time_save] is never called. *)
Theorem filtering_mode_counts_nothing_working env servers cfg st :
  include_firewall cfg = false →
  ∃ report st',
    check_dns_servers env servers cfg st = (Ret report, st')
    ∧ working report = []
    ∧ top5 report = []
    ∧ failed report ≡ₚ servers
    ∧ (success_rate report == 0)%Q
    ∧ append_calls st' = append_calls st.
Proof.
  intros Hmode.
  destruct servers as [|server servers].
  - eexists _, _. split; [reflexivity|]. simpl. repeat split; constructor.
  - destruct (check_dns_servers_full env cfg server servers st)
      as (report & st1 & st' & records & kept & _ & Hrun & _ & Hnames
          & Hfailed & _ & Hrate & Htop & _ & Hcalls & _).
    assert (∀ s, counted_working env cfg s = false) as Hnever
      by (intros s; unfold counted_working; rewrite Hmode; reflexivity).
    rewrite filter_none in Hnames
      by (intros s; rewrite Hnever; discriminate).
    apply fmap_nil_inv in Hnames.
    rewrite filter_all in Hfailed by exact Hnever.
    exists report, st'. split; [exact Hrun|].
    rewrite Htop, Hrate, Hfailed, Hcalls, Hnames.
    repeat split.
    + apply as_completed_Permutation.
    + simpl. lia.
Qed.

Lemma filtering_mode_witness :
  include_firewall (Scenario.config false) = false
  ∧ ∃ report st',
      check_dns_servers Scenario.intercepted ["1.1.1.1"; "8.8.8.8"]
        (Scenario.config false) Scenario.fresh
      = (Ret report, st')
      ∧ working report = []
      ∧ top5 report = []
      ∧ failed report ≡ₚ ["1.1.1.1"; "8.8.8.8"]
      ∧ (success_rate report == 0)%Q
      ∧ append_calls st' = append_calls Scenario.fresh.
Proof.
  split; [reflexivity|].
  exact (filtering_mode_counts_nothing_working Scenario.intercepted
           ["1.1.1.1"; "8.8.8.8"] (Scenario.config false) Scenario.fresh
           eq_refl).
Defined.

(** X2: who is counted as working.  The servers of [working] are, in the
    order in which their futures are yielded, those probed in the
    including mode whose query is sent and whose reply holds a sentinel;
    all the others are in [failed], in that order too. *)
Theorem working_servers_characterised env servers cfg st :
  ∃ report st',
    check_dns_servers env servers cfg st = (Ret report, st')
    ∧ (working report).*1
      = filter (λ s, counted_working env cfg s = true)
          (as_completed env 0 (length servers) servers)
    ∧ failed report
      = filter (λ s, counted_working env cfg s = false)
          (as_completed env 0 (length servers) servers)
    ∧ ∀ s,
        s ∈ (working report).*1 ↔
        s ∈ servers
        ∧ include_firewall cfg = true
        ∧ query_is_sent env s (timeout cfg)
        ∧ ∃ answers,
            dns_reply env s (domain cfg) (timeout cfg) = Ret answers
            ∧ ∃ ip, ip ∈ answers ∧ ip ∈ firewall_ips.
Proof.
  assert (∃ report st',
            check_dns_servers env servers cfg st = (Ret report, st')
            ∧ (working report).*1
              = filter (λ s, counted_working env cfg s = true)
                  (as_completed env 0 (length servers) servers)
            ∧ failed report
              = filter (λ s, counted_working env cfg s = false)
                  (as_completed env 0 (length servers) servers))
    as (report & st' & Hrun & Hnames & Hfailed).
  { destruct servers as [|server servers].
    - eexists _, _. split; [reflexivity|]. split; reflexivity.
    - destruct (check_dns_servers_full env cfg server servers st)
        as (report & st1 & st' & records & kept & _ & Hrun & _ & Hnames
            & Hfailed & _).
      eauto. }
  exists report, st'. split; [exact Hrun|]. split; [exact Hnames|].
  split; [exact Hfailed|].
  intros s.
  rewrite Hnames, list_elem_of_filter, counted_working_true,
    as_completed_Permutation.
  tauto.
Qed.



(** X4: on a disk that takes the header and every append, the file
    holds, after the four header lines, one record for each entry of
    [working] and nothing else.  Nothing is said of the order of the
    records among themselves. *)
Theorem file_mirrors_working env servers cfg st :
  servers ≠ [] →
  header_fault env = None →
  (∀ n, append_fault env n = None) →
  ∃ report st' records entries,
    check_dns_servers env servers cfg st = (Ret report, st')
    ∧ working_dns_txt st' = header_lines env cfg ++ records
    ∧ Forall2 record_of records entries
    ∧ entries ≡ₚ working report
    ∧ length (working_dns_txt st') = (4 + length (working report))%nat.
Proof.
  intros Hsome Hheader Hdisk.
  destruct servers as [|server servers]; [congruence|].
  destruct (check_dns_servers_full env cfg server servers st)
    as (report & st1 & st' & records & kept & Hhead & Hrun & _ & _ & _
        & _ & _ & _ & _ & _ & Hfile & Hrecs & _ & Hall).
  destruct (write_header_effect env cfg st)
    as (st1' & Hhead' & _ & _ & _ & Hfile1).
  rewrite Hhead in Hhead'. injection Hhead' as <-.
  unfold after_header in Hfile1. rewrite Hheader in Hfile1.
  rewrite Hfile1 in Hfile.
  rewrite (Hall Hdisk) in Hrecs.
  exists report, st', records, (working report).
  split; [exact Hrun|]. split; [exact Hfile|]. split; [exact Hrecs|].
  split; [reflexivity|].
  rewrite Hfile, length_app. simpl.
  rewrite (Forall2_length _ _ _ Hrecs). reflexivity.
Qed.

Lemma file_mirrors_working_witness :
  ["1.1.1.1"; "8.8.8.8"] ≠ []
  ∧ header_fault Scenario.intercepted = None
  ∧ (∀ n, append_fault Scenario.intercepted n = None)
  ∧ ∃ report st' records entries,
      check_dns_servers Scenario.intercepted ["1.1.1.1"; "8.8.8.8"]
        (Scenario.config true) Scenario.fresh
      = (Ret report, st')
      ∧ working_dns_txt st'
        = header_lines Scenario.intercepted (Scenario.config true) ++ records
      ∧ Forall2 record_of records entries
      ∧ entries ≡ₚ working report
      ∧ length (working_dns_txt st') = (4 + length (working report))%nat.
Proof.
  assert (["1.1.1.1"; "8.8.8.8"] ≠ @nil string) as Hsome by discriminate.
  assert (∀ n, append_fault Scenario.intercepted n = None) as Hdisk
    by (intros n; reflexivity).
  split; [exact Hsome|]. split; [reflexivity|]. split; [exact Hdisk|].
  exact (file_mirrors_working Scenario.intercepted
           ["1.1.1.1"; "8.8.8.8"] (Scenario.config true) Scenario.fresh
           Hsome eq_refl Hdisk).
Defined.

(** X5: what a run puts on the wire.  One query, for the configured
    domain and timeout, for each server whose address the check lets
    through and whose resolver is built; no query for any other server.
    Nothing is said of the order of the queries among themselves. *)
Theorem one_query_per_reachable_server env servers cfg st :
  ∃ report st' queries,
    check_dns_servers env servers cfg st = (Ret report, st')
    ∧ wire st' = wire st ++ queries
    ∧ queries
      ≡ₚ (λ s, (s, domain cfg, timeout cfg))
           <$> filter (λ s, queried env cfg s = true) servers
    ∧ (length (wire st') ≤ length (wire st) + length servers)%nat.
Proof.
  destruct servers as [|server servers].
  - eexists _, _, []. split; [reflexivity|]. simpl.
    rewrite app_nil_r. split; [reflexivity|]. split; [reflexivity | lia].
  - destruct (check_dns_servers_full env cfg server servers st)
      as (report & st1 & st' & records & kept & _ & Hrun & _ & _ & _
          & _ & _ & _ & Hwire & _).
    eexists report, st', _. split; [exact Hrun|]. split; [exact Hwire|].
    split.
    + rewrite (as_completed_Permutation env _ 0). reflexivity.
    + rewrite Hwire, length_app, length_fmap.
      pose proof (length_filter (λ s, queried env cfg s = true)
                    (as_completed env 0 (length (server :: servers))
                       (server :: servers))) as Hle.
      rewrite (Permutation_length (as_completed_Permutation env _ 0)) in Hle.
      lia.
Qed.

(** X6: the success rate is a percentage: it lies between 0 and 100, and
    it is 100 exactly when no server failed. *)
Theorem success_rate_is_a_percentage env servers cfg st :
  servers ≠ [] →
  ∃ report st',
    check_dns_servers env servers cfg st = (Ret report, st')
    ∧ (0 <= success_rate report)%Q
    ∧ (success_rate report <= 100)%Q
    ∧ ((success_rate report == 100)%Q ↔ failed report = []).
Proof.
  intros Hsome. destruct servers as [|server servers]; [congruence|].
  destruct (check_dns_servers_full env cfg server servers st)
    as (report & st1 & st' & records & kept & _ & Hrun & _ & Hnames
        & Hfailed & _ & Hrate & _).
  exists report, st'. split; [exact Hrun|].
  set (order := as_completed env 0 (length (server :: servers))
                  (server :: servers)) in *.
  assert (length (working report) + length (failed report)
          = S (length servers))%nat as Hcount.
  { rewrite <- (length_fmap fst (working report)), Hnames, Hfailed.
    pose proof (filter_app_complement
                  (λ s, counted_working env cfg s = true) order) as Hperm.
    apply Permutation_length in Hperm. rewrite length_app in Hperm.
    unfold order in Hperm at 3.
    rewrite (Permutation_length (as_completed_Permutation env _ 0)) in Hperm.
    simpl in Hperm. rewrite <- Hperm. f_equal.
    f_equal. apply list_filter_iff. intros s.
    destruct (counted_working env cfg s); split; congruence. }
  rewrite Hrate. clear Hrate.
  change (length (server :: servers)) with (S (length servers)).
  rewrite Nat2Z.inj_succ.
  assert (failed report = [] ↔ length (failed report) = 0%nat) as ->
    by (split; [intros ->; reflexivity | apply nil_length_inv]).
  unfold Qle, Qeq, Qdiv, Qmult, Qinv. simpl.
  destruct (Z.succ (Z.of_nat (length servers))) as [|p|p] eqn:Hp;
    [lia | | lia].
  simpl. repeat split; try lia.
Qed.

Lemma success_rate_witness :
  ["1.1.1.1"; "8.8.8.8"] ≠ []
  ∧ ∃ report st',
      check_dns_servers Scenario.intercepted ["1.1.1.1"; "8.8.8.8"]
        (Scenario.config true) Scenario.fresh
      = (Ret report, st')
      ∧ (0 <= success_rate report)%Q
      ∧ (success_rate report <= 100)%Q
      ∧ ((success_rate report == 100)%Q ↔ failed report = []).
Proof.
  assert (["1.1.1.1"; "8.8.8.8"] ≠ @nil string) as Hsome by discriminate.
  split; [exact Hsome|].
  exact (success_rate_is_a_percentage Scenario.intercepted
           ["1.1.1.1"; "8.8.8.8"] (Scenario.config true) Scenario.fresh
           Hsome).
Defined.

Lemma StronglySorted_take_drop n (l : list (string * option Q)) :
  StronglySorted lat_le l →
  ∀ x y, x ∈ take n l → y ∈ drop n l → lat_le x y.
Proof.
  intros Hsorted. revert n.
  induction Hsorted as [|z l Hsorted IH Hz]; intros n x y Hx Hy.
  - rewrite take_nil in Hx. inversion Hx.
  - destruct n as [|n]; simpl in *; [inversion Hx|].
    apply elem_of_cons in Hx as [-> | Hx].
    + rewrite Forall_forall in Hz. apply Hz.
      eapply elem_of_sublist; [exact Hy | apply sublist_drop].
    + eapply IH; eassumption.
Qed.

(** X7: the five listed are the fastest: [working] splits into the list
    and the rest, and no entry of the rest is faster than a listed one. *)
Theorem top5_are_the_fastest env servers cfg st :
  ∃ report st' rest,
    check_dns_servers env servers cfg st = (Ret report, st')
    ∧ working report ≡ₚ top5 report ++ rest
    ∧ (length rest = length (working report) - 5)%nat
    ∧ ∀ x y, x ∈ top5 report → y ∈ rest → lat_le x y.
Proof.
  destruct (check_dns_servers_run env servers cfg st)
    as (report & st' & Hrun & _ & Hlat & _ & _ & Htop).
  exists report, st', (drop 5 (stable_sort (working report))).
  split; [exact Hrun|]. rewrite Htop. split; [|split].
  - rewrite take_drop. symmetry. apply stable_sort_Permutation.
  - rewrite length_drop.
    rewrite (Permutation_length (stable_sort_Permutation _)). reflexivity.
  - apply StronglySorted_take_drop, stable_sort_StronglySorted, Hlat.
Qed.

(** ** The prompts *)

Section StrFacts.

Lemma rev_app_list (s1 s2 : string) :
  list_ascii_of_string (String.rev_app s1 s2)
  = rev_append (list_ascii_of_string s1) (list_ascii_of_string s2).
Proof.
  revert s2. induction s1 as [|c s1 IH]; intros s2; simpl; [reflexivity|].
  rewrite IH. reflexivity.
Qed.

Lemma rev_list (s : string) :
  list_ascii_of_string (String.rev s) = rev (list_ascii_of_string s).
Proof.
  unfold String.rev. rewrite rev_app_list. simpl.
  rewrite rev_append_rev, app_nil_r. reflexivity.
Qed.

Lemma rev_rev (s : string) : String.rev (String.rev s) = s.
Proof.
  rewrite <- (string_of_list_ascii_of_string (String.rev (String.rev s))).
  rewrite !rev_list, rev_involutive.
  apply string_of_list_ascii_of_string.
Qed.

Lemma lstrip_no_space (s : string) :
  Forall (λ c, Str.isspace c = false) (list_ascii_of_string s) →
  Str.lstrip s = s.
Proof.
  destruct s as [|c s]; simpl; [reflexivity|].
  intros Hall. inversion Hall as [|? ? Hc _]; subst. rewrite Hc. reflexivity.
Qed.

(** Text without white space is left as it is. *)
Lemma strip_no_space (s : string) :
  Forall (λ c, Str.isspace c = false) (list_ascii_of_string s) →
  Str.strip s = s.
Proof.
  intros Hall. unfold Str.strip, Str.rstrip.
  rewrite (lstrip_no_space s Hall).
  rewrite lstrip_no_space; [apply rev_rev|].
  rewrite rev_list. apply Forall_rev, Hall.
Qed.

Lemma isdigit_not_space (c : ascii) :
  Inet.isdigit c = true → Str.isspace c = false.
Proof.
  unfold Inet.isdigit, Str.isspace. cbv zeta.
  destruct (N_of_ascii c) as [|p]; [discriminate|].
  intros H. apply andb_true_iff in H as [H1 H2].
  apply N.leb_le in H1, H2.
  apply orb_false_iff. split; apply andb_false_iff.
  - right. apply N.leb_gt. lia.
  - right. apply N.leb_gt. lia.
Qed.

Lemma int_digits_all (s : string) (acc : Z) (flag : bool) :
  forallb Inet.isdigit (list_ascii_of_string s) = true →
  (s ≠ "" ∨ flag = true) →
  (0 ≤ acc)%Z →
  ∃ n, Str.int_digits acc flag s = Some n ∧ (0 ≤ n)%Z.
Proof.
  revert acc flag. induction s as [|c s IH]; intros acc flag Hall Hne Hacc.
  - destruct Hne as [Hne|Hflag]; [congruence|]. subst flag.
    exists acc. split; [reflexivity|lia].
  - simpl in Hall. apply andb_true_iff in Hall as [Hc Hall].
    simpl. rewrite Hc. apply IH; [exact Hall|right; reflexivity|].
    unfold Inet.isdigit in Hc. cbv zeta in Hc.
    apply andb_true_iff in Hc as [H1 _]. apply N.leb_le in H1. lia.
Qed.

(** [int] reads every string of digits. *)
Lemma to_int_isdigit (s : string) :
  Str.isdigit s = true → ∃ n, Str.to_int s = Some n ∧ (0 ≤ n)%Z.
Proof.
  unfold Str.isdigit. intros H. apply andb_true_iff in H as [Hne Hall].
  apply negb_true_iff, bool_decide_eq_false in Hne.
  unfold Str.to_int. rewrite strip_no_space.
  - destruct s as [|c s]; [congruence|].
    assert (Inet.isdigit c = true) as Hc.
    { simpl in Hall. apply andb_true_iff in Hall as [Hc _]. exact Hc. }
    assert (c ≠ "+"%char ∧ c ≠ "-"%char) as [Hplus Hminus].
    { split; intros ->; discriminate Hc. }
    assert (∃ n, Str.int_digits 0 false (String c s) = Some n ∧ (0 ≤ n)%Z)
      as Hn.
    { apply int_digits_all; [exact Hall|left; congruence|lia]. }
    destruct c as [[] [] [] [] [] [] [] []]; try exact Hn; congruence.
  - apply Forall_forall. intros c Hin. apply isdigit_not_space.
    rewrite forallb_forall in Hall. apply Hall, list_elem_of_In, Hin.
Qed.

End StrFacts.

Section Turns.

Import Console.

Context {A : Type} (body : Ask (option A)) (choice : string → option A).

Hypothesis body_line : ∀ line rest scr, ∃ more,
  body {| keyboard := line :: rest; screen := scr |}
  = (Ret (choice line), {| keyboard := rest; screen := scr ++ more |}).

Hypothesis body_eof : ∀ scr, ∃ more,
  body {| keyboard := []; screen := scr |}
  = (Raise EOFError, {| keyboard := []; screen := scr ++ more |}).

(** A loop whose turn reads one line and answers by [choice] stops at the
    first line that answers, or with [EOFError] after the last line. *)
Lemma turns_first_choice (n : nat) (lines scr : list string) :
  (length lines < n)%nat →
  ∃ more,
    turns n body {| keyboard := lines; screen := scr |}
    = match first_choice choice lines with
      | Some (a, rest) =>
          (Ret a, {| keyboard := rest; screen := scr ++ more |})
      | None => (Raise EOFError, {| keyboard := []; screen := scr ++ more |})
      end.
Proof.
  revert n scr. induction lines as [|line rest IH]; intros n scr Hn.
  - destruct n as [|n]; [lia|]. destruct (body_eof scr) as [more Hb].
    exists more. simpl. unfold mbind, Ask_bind. rewrite Hb. reflexivity.
  - destruct n as [|n]; [simpl in Hn; lia|].
    destruct (body_line line rest scr) as [more Hb].
    simpl. unfold mbind, Ask_bind. rewrite Hb.
    destruct (choice line) as [a|].
    + exists more. reflexivity.
    + destruct (IH n (scr ++ more)) as [more' Hrest]; [simpl in Hn; lia|].
      exists (more ++ more'). rewrite Hrest, app_assoc. reflexivity.
Qed.

Lemma while_true_first_choice (tty : Tty) :
  ∃ more,
    while_true body tty
    = match first_choice choice (keyboard tty) with
      | Some (a, rest) =>
          (Ret a, {| keyboard := rest; screen := screen tty ++ more |})
      | None =>
          (Raise EOFError, {| keyboard := []; screen := screen tty ++ more |})
      end.
Proof.
  destruct tty as [lines scr]. unfold while_true.
  apply (turns_first_choice (S (length lines))). simpl. lia.
Qed.

End Turns.

Section FirstChoice.

Context {A : Type} (choice : string → option A).

Lemma first_choice_Some (lines rest : list string) (a : A) :
  first_choice choice lines = Some (a, rest) ↔
  ∃ skipped line,
    lines = skipped ++ line :: rest
    ∧ Forall (λ l, choice l = None) skipped
    ∧ choice line = Some a.
Proof.
  split.
  - induction lines as [|l lines IH]; simpl; [discriminate|].
    destruct (choice l) as [b|] eqn:Hl.
    + intros [= -> ->]. exists [], l. auto.
    + intros H. destruct (IH H) as (skipped & line & -> & Hs & Hc).
      exists (l :: skipped), line. auto.
  - intros (skipped & line & -> & Hs & Hc).
    induction Hs as [|l skipped Hl _ IH]; simpl.
    + rewrite Hc. reflexivity.
    + rewrite Hl. exact IH.
Qed.

Lemma first_choice_None (lines : list string) :
  first_choice choice lines = None ↔ Forall (λ l, choice l = None) lines.
Proof.
  induction lines as [|l lines IH]; simpl.
  - split; auto.
  - destruct (choice l) as [b|] eqn:Hl.
    + split; [discriminate|]. intros H. inversion H; congruence.
    + rewrite IH. split; [auto|]. intros H. inversion H; assumption.
Qed.

End FirstChoice.

Section PromptFacts.

Import Console.

#[local] Arguments Str.startswith : simpl never.
#[local] Arguments Str.contains : simpl never.

Ltac run_turn :=
  unfold try_except, mbind, Ask_bind, mret, Ask_ret, print, input, int,
    raise, shown; simpl.

Lemma get_worker_count_run (tty : Tty) :
  ∃ more,
    get_worker_count tty
    = match first_choice (number_choice 1 500 100) (keyboard tty) with
      | Some (workers, rest) =>
          (Ret workers, {| keyboard := rest; screen := screen tty ++ more |})
      | None =>
          (Raise EOFError, {| keyboard := []; screen := screen tty ++ more |})
      end.
Proof.
  unfold get_worker_count. apply while_true_first_choice.
  - intros line rest scr. unfold number_choice. run_turn.
    destruct (bool_decide (Str.strip line = "")).
    { rewrite <- !app_assoc. eexists. reflexivity. }
    destruct (Str.to_int (Str.strip line)) as [n|]; simpl.
    + destruct ((1 <=? n)%Z && (n <=? 500)%Z); simpl;
        rewrite <- !app_assoc; eexists; reflexivity.
    + rewrite <- !app_assoc. eexists. reflexivity.
  - intros scr. run_turn. rewrite <- !app_assoc. eexists. reflexivity.
Qed.

Lemma get_timeout_run (tty : Tty) :
  ∃ more,
    get_timeout tty
    = match first_choice (number_choice 1 10 3) (keyboard tty) with
      | Some (timeout, rest) =>
          (Ret timeout, {| keyboard := rest; screen := screen tty ++ more |})
      | None =>
          (Raise EOFError, {| keyboard := []; screen := screen tty ++ more |})
      end.
Proof.
  unfold get_timeout. apply while_true_first_choice.
  - intros line rest scr. unfold number_choice. run_turn.
    destruct (bool_decide (Str.strip line = "")).
    { rewrite <- !app_assoc. eexists. reflexivity. }
    destruct (Str.to_int (Str.strip line)) as [n|]; simpl.
    + destruct ((1 <=? n)%Z && (n <=? 10)%Z); simpl;
        rewrite <- !app_assoc; eexists; reflexivity.
    + rewrite <- !app_assoc. eexists. reflexivity.
  - intros scr. run_turn. rewrite <- !app_assoc. eexists. reflexivity.
Qed.

Ltac else_chain line :=
  destruct (bool_decide (Str.strip line = "")),
    (Str.contains "." (Str.strip line)),
    (Str.startswith "http://" (Str.strip line)),
    (Str.startswith "https://" (Str.strip line)); simpl;
  rewrite <- ?app_assoc; eexists; reflexivity.

Lemma get_filter_option_run (tty : Tty) :
  ∃ more,
    get_filter_option tty
    = match first_choice filter_choice (keyboard tty) with
      | Some (include_firewall, rest) =>
          (Ret include_firewall,
           {| keyboard := rest; screen := screen tty ++ more |})
      | None =>
          (Raise EOFError, {| keyboard := []; screen := screen tty ++ more |})
      end.
Proof.
  unfold get_filter_option.
  match goal with |- context [while_true ?b] => set (body := b) end.
  assert (∀ line rest scr, ∃ more,
            body {| keyboard := line :: rest; screen := scr |}
            = (Ret (filter_choice line),
               {| keyboard := rest; screen := scr ++ more |})) as Hline.
  { intros line rest scr. subst body. unfold filter_choice. run_turn.
    destruct (bool_decide (Str.strip line = "1")); simpl.
    { rewrite <- !app_assoc. eexists. reflexivity. }
    destruct (bool_decide (Str.strip line = "2")); simpl;
      rewrite <- !app_assoc; eexists; reflexivity. }
  assert (∀ scr, ∃ more,
            body {| keyboard := []; screen := scr |}
            = (Raise EOFError, {| keyboard := []; screen := scr ++ more |}))
    as Heof.
  { intros scr. subst body. run_turn. eexists. reflexivity. }
  destruct tty as [lines scr]. unfold mbind, Ask_bind, print, shown. simpl.
  edestruct (while_true_first_choice body filter_choice Hline Heof)
    as [more Hrun].
  rewrite Hrun. simpl.
  destruct (first_choice filter_choice lines) as [[b rest]|];
    rewrite <- !app_assoc; eexists; reflexivity.
Qed.

Lemma get_test_domain_run (tty : Tty) :
  ∃ more,
    get_test_domain tty
    = match first_choice domain_choice (keyboard tty) with
      | Some (domain, rest) =>
          (Ret domain, {| keyboard := rest; screen := screen tty ++ more |})
      | None =>
          (Raise EOFError, {| keyboard := []; screen := screen tty ++ more |})
      end.
Proof.
  unfold get_test_domain.
  match goal with |- context [while_true ?b] => set (body := b) end.
  assert (∀ line rest scr, ∃ more,
            body {| keyboard := line :: rest; screen := scr |}
            = (Ret (domain_choice line),
               {| keyboard := rest; screen := scr ++ more |})) as Hline.
  { intros line rest scr. subst body. unfold domain_choice. run_turn.
    destruct (Str.isdigit (Str.strip line)) eqn:Hdigit; [|else_chain line].
    destruct (to_int_isdigit _ Hdigit) as (n & Hn & Hpos).
    rewrite Hn. simpl.
    destruct n as [|p|p]; [else_chain line| |lia].
    destruct p as [[p|p|]|[p|p|]|]; simpl;
      first [eexists; reflexivity | else_chain line]. }
  assert (∀ scr, ∃ more,
            body {| keyboard := []; screen := scr |}
            = (Raise EOFError, {| keyboard := []; screen := scr ++ more |}))
    as Heof.
  { intros scr. subst body. run_turn. eexists. reflexivity. }
  destruct tty as [lines scr]. unfold mbind, Ask_bind, print, shown. simpl.
  edestruct (while_true_first_choice body domain_choice Hline Heof)
    as [more Hrun].
  rewrite Hrun. simpl.
  destruct (first_choice domain_choice lines) as [[b rest]|];
    rewrite <- !app_assoc; eexists; reflexivity.
Qed.

End PromptFacts.

Section PromptProperties.

Import Console.

Lemma number_choice_range (lo hi default : Z) (line : string) (n : Z) :
  (lo ≤ default ≤ hi)%Z →
  number_choice lo hi default line = Some n →
  (lo ≤ n ≤ hi)%Z.
Proof.
  intros Hdefault. unfold number_choice. cbv zeta.
  destruct (bool_decide (Str.strip line = "")); [intros [= <-]; exact Hdefault|].
  destruct (Str.to_int (Str.strip line)) as [m|]; [|discriminate].
  destruct ((lo <=? m)%Z && (m <=? hi)%Z) eqn:Hrange; [|discriminate].
  intros [= <-]. apply andb_true_iff in Hrange as [H1 H2].
  apply Z.leb_le in H1, H2. lia.
Qed.

Lemma domain_choice_dotted (line domain : string) :
  domain_choice line = Some domain →
  Str.contains "." domain = true
  ∧ Str.startswith "http://" domain = false
  ∧ Str.startswith "https://" domain = false.
Proof.
  unfold domain_choice. cbv zeta.
  assert (∀ d, d = "google.com" ∨ d = "cloudflare.com" ∨ d = "example.com" →
               Str.contains "." d = true
               ∧ Str.startswith "http://" d = false
               ∧ Str.startswith "https://" d = false) as Hmenu.
  { intros d [Hd|[Hd|Hd]]; subst d; repeat split; reflexivity. }
  assert ((if bool_decide (Str.strip line = "") then Some "google.com"
           else if Str.contains "." (Str.strip line)
                   && negb (Str.startswith "http://" (Str.strip line)
                            || Str.startswith "https://" (Str.strip line))
           then Some (Str.strip line) else None) = Some domain →
          Str.contains "." domain = true
          ∧ Str.startswith "http://" domain = false
          ∧ Str.startswith "https://" domain = false) as Htyped.
  { destruct (bool_decide (Str.strip line = "")).
    { intros [= <-]. apply Hmenu. auto. }
    destruct (Str.contains "." (Str.strip line)) eqn:Hdot; [|discriminate].
    destruct (Str.startswith "http://" (Str.strip line)) eqn:Hhttp;
      [discriminate|].
    destruct (Str.startswith "https://" (Str.strip line)) eqn:Hhttps;
      [discriminate|].
    intros [= <-]. auto. }
  destruct (if Str.isdigit (Str.strip line) then Str.to_int (Str.strip line)
            else None) as [[|p|p]|]; try exact Htyped.
  destruct p as [[p|p|]|[p|p|]|]; try exact Htyped;
    intros [= <-]; apply Hmenu; auto.
Qed.

Lemma returned_by_choice {A} (choice : string → option A) (lines : list string)
    (scr more : list string) (a : A) :
  (match first_choice choice lines with
   | Some (a, rest) => (Ret a, {| keyboard := rest; screen := scr ++ more |})
   | None => (Raise EOFError, {| keyboard := []; screen := scr ++ more |})
   end).1 = Ret a →
  ∃ line, line ∈ lines ∧ choice line = Some a.
Proof.
  destruct (first_choice choice lines) as [[b rest]|] eqn:Hfirst;
    [|discriminate].
  simpl. intros [= ->].
  apply first_choice_Some in Hfirst as (skipped & line & -> & _ & Hline).
  exists line. split; [|exact Hline]. set_solver.
Qed.

End PromptProperties.

(** X8: the worker count handed back by the prompt lies between 1 and
    500, whatever is typed. *)
Theorem get_worker_count_in_range (tty : Console.Tty) (workers : Z) :
  typed tty →
  (get_worker_count tty).1 = Ret workers →
  (1 ≤ workers ≤ 500)%Z.
Proof.
  intros _ Hrun. destruct (get_worker_count_run tty) as [more Heq].
  rewrite Heq in Hrun.
  apply returned_by_choice in Hrun as (line & _ & Hline).
  apply (number_choice_range 1 500 100 line); [lia|exact Hline].
Qed.

Lemma get_worker_count_in_range_witness :
  typed {| Console.keyboard := ["many"; "0"; " 250 "; "7"];
           Console.screen := [] |}
  ∧ (1 ≤ 250 ≤ 500)%Z.
Proof.
  assert (typed {| Console.keyboard := ["many"; "0"; " 250 "; "7"];
                   Console.screen := [] |}) as Htyped.
  { repeat constructor. }
  split; [exact Htyped|].
  exact (get_worker_count_in_range _ 250 Htyped eq_refl).
Defined.

(** X9: the timeout handed back by the prompt lies between 1 and 10,
    whatever is typed. *)
Theorem get_timeout_in_range (tty : Console.Tty) (timeout : Z) :
  typed tty →
  (get_timeout tty).1 = Ret timeout →
  (1 ≤ timeout ≤ 10)%Z.
Proof.
  intros _ Hrun. destruct (get_timeout_run tty) as [more Heq].
  rewrite Heq in Hrun.
  apply returned_by_choice in Hrun as (line & _ & Hline).
  apply (number_choice_range 1 10 3 line); [lia|exact Hline].
Qed.

Lemma get_timeout_in_range_witness :
  typed {| Console.keyboard := ["11"; "-1"; "+5"]; Console.screen := [] |}
  ∧ (1 ≤ 5 ≤ 10)%Z.
Proof.
  assert (typed {| Console.keyboard := ["11"; "-1"; "+5"];
                   Console.screen := [] |}) as Htyped.
  { repeat constructor. }
  split; [exact Htyped|].
  exact (get_timeout_in_range _ 5 Htyped eq_refl).
Defined.

(** X10: [get_worker_count] is decided by the first line that is blank
    (100) or a number from 1 to 500: it returns that answer and leaves
    the lines after it untouched; lines before it are read and refused.
    With no such line it ends in [EOFError]: no [ValueError] of [int]
    escapes, and no value is made up.  What was on the screen stays. *)
Theorem get_worker_count_takes_first_answer (tty : Console.Tty) :
  typed tty →
  ∃ more,
    get_worker_count tty
    = match first_choice (number_choice 1 500 100) (Console.keyboard tty) with
      | Some (workers, rest) =>
          (Ret workers,
           {| Console.keyboard := rest;
              Console.screen := Console.screen tty ++ more |})
      | None =>
          (Raise Console.EOFError,
           {| Console.keyboard := [];
              Console.screen := Console.screen tty ++ more |})
      end.
Proof. intros _. apply get_worker_count_run. Qed.

Lemma get_worker_count_takes_first_answer_witness :
  typed {| Console.keyboard := ["many"; "501"; "1_0"; "7"];
           Console.screen := [] |}
  ∧ ∃ more,
      get_worker_count {| Console.keyboard := ["many"; "501"; "1_0"; "7"];
                          Console.screen := [] |}
      = (Ret 10%Z, {| Console.keyboard := ["7"]; Console.screen := more |}).
Proof.
  assert (typed {| Console.keyboard := ["many"; "501"; "1_0"; "7"];
                   Console.screen := [] |}) as Htyped.
  { repeat constructor. }
  split; [exact Htyped|].
  exact (get_worker_count_takes_first_answer _ Htyped).
Defined.

(** X11: [get_timeout] is decided by the first line that is blank (3) or
    a number from 1 to 10, and ends in [EOFError] when there is none. *)
Theorem get_timeout_takes_first_answer (tty : Console.Tty) :
  typed tty →
  ∃ more,
    get_timeout tty
    = match first_choice (number_choice 1 10 3) (Console.keyboard tty) with
      | Some (timeout, rest) =>
          (Ret timeout,
           {| Console.keyboard := rest;
              Console.screen := Console.screen tty ++ more |})
      | None =>
          (Raise Console.EOFError,
           {| Console.keyboard := [];
              Console.screen := Console.screen tty ++ more |})
      end.
Proof. intros _. apply get_timeout_run. Qed.

Lemma get_timeout_takes_first_answer_witness :
  typed {| Console.keyboard := ["0"; "ten"]; Console.screen := [] |}
  ∧ ∃ more,
      get_timeout {| Console.keyboard := ["0"; "ten"]; Console.screen := [] |}
      = (Raise Console.EOFError,
         {| Console.keyboard := []; Console.screen := more |}).
Proof.
  assert (typed {| Console.keyboard := ["0"; "ten"]; Console.screen := [] |})
    as Htyped.
  { repeat constructor. }
  split; [exact Htyped|].
  exact (get_timeout_takes_first_answer _ Htyped).
Defined.

(** X12: [get_filter_option] is decided by the first line that is 1 or 2
    once white space around it is dropped: it returns [False] for 1 and
    [True] for 2; every other line, the blank one too, is refused, and
    with no such line the prompt ends in [EOFError]. *)
Theorem get_filter_option_takes_first_answer (tty : Console.Tty) :
  typed tty →
  ∃ more,
    get_filter_option tty
    = match first_choice filter_choice (Console.keyboard tty) with
      | Some (include_firewall, rest) =>
          (Ret include_firewall,
           {| Console.keyboard := rest;
              Console.screen := Console.screen tty ++ more |})
      | None =>
          (Raise Console.EOFError,
           {| Console.keyboard := [];
              Console.screen := Console.screen tty ++ more |})
      end.
Proof. intros _. apply get_filter_option_run. Qed.

Lemma get_filter_option_takes_first_answer_witness :
  typed {| Console.keyboard := [""; "yes"; " 2"; "1"]; Console.screen := [] |}
  ∧ ∃ more,
      get_filter_option {| Console.keyboard := [""; "yes"; " 2"; "1"];
                           Console.screen := [] |}
      = (Ret true, {| Console.keyboard := ["1"]; Console.screen := more |}).
Proof.
  assert (typed {| Console.keyboard := [""; "yes"; " 2"; "1"];
                   Console.screen := [] |}) as Htyped.
  { repeat constructor. }
  split; [exact Htyped|].
  exact (get_filter_option_takes_first_answer _ Htyped).
Defined.

(** X13: [get_test_domain] is decided by the first line that is a number
    of the menu (1, 2 or 3, written with digits only), a text with a dot
    that does not start with http:// or https://, or blank (google.com);
    with no such line it ends in [EOFError]. *)
Theorem get_test_domain_takes_first_answer (tty : Console.Tty) :
  typed tty →
  ∃ more,
    get_test_domain tty
    = match first_choice domain_choice (Console.keyboard tty) with
      | Some (domain, rest) =>
          (Ret domain,
           {| Console.keyboard := rest;
              Console.screen := Console.screen tty ++ more |})
      | None =>
          (Raise Console.EOFError,
           {| Console.keyboard := [];
              Console.screen := Console.screen tty ++ more |})
      end.
Proof. intros _. apply get_test_domain_run. Qed.

Lemma get_test_domain_takes_first_answer_witness :
  typed {| Console.keyboard := ["7"; "http://a.b"; "002"; "x.y"];
           Console.screen := [] |}
  ∧ ∃ more,
      get_test_domain {| Console.keyboard := ["7"; "http://a.b"; "002"; "x.y"];
                         Console.screen := [] |}
      = (Ret "cloudflare.com",
         {| Console.keyboard := ["x.y"]; Console.screen := more |}).
Proof.
  assert (typed {| Console.keyboard := ["7"; "http://a.b"; "002"; "x.y"];
                   Console.screen := [] |}) as Htyped.
  { repeat constructor. }
  split; [exact Htyped|].
  exact (get_test_domain_takes_first_answer _ Htyped).
Defined.

(** X14: the domain handed back by the prompt always holds a dot and
    never starts with http:// or https://. *)
Theorem get_test_domain_is_dotted (tty : Console.Tty) (domain : string) :
  typed tty →
  (get_test_domain tty).1 = Ret domain →
  Str.contains "." domain = true
  ∧ Str.startswith "http://" domain = false
  ∧ Str.startswith "https://" domain = false.
Proof.
  intros _ Hrun. destruct (get_test_domain_run tty) as [more Heq].
  rewrite Heq in Hrun.
  apply returned_by_choice in Hrun as (line & _ & Hline).
  exact (domain_choice_dotted line domain Hline).
Qed.

Lemma get_test_domain_is_dotted_witness :
  typed {| Console.keyboard := ["localhost"; " dns.example "];
           Console.screen := [] |}
  ∧ Str.contains "." "dns.example" = true
  ∧ Str.startswith "http://" "dns.example" = false
  ∧ Str.startswith "https://" "dns.example" = false.
Proof.
  assert (typed {| Console.keyboard := ["localhost"; " dns.example "];
                   Console.screen := [] |}) as Htyped.
  { repeat constructor. }
  split; [exact Htyped|].
  exact (get_test_domain_is_dotted _ "dns.example" Htyped eq_refl).
Defined.

(** ** The pattern of [load_servers] *)

Section CharFacts.

Lemma in_range_true (lo hi c : ascii) :
  Pattern.in_range lo hi c = true
  ↔ (N_of_ascii lo ≤ N_of_ascii c ∧ N_of_ascii c ≤ N_of_ascii hi)%N.
Proof.
  unfold Pattern.in_range. rewrite andb_true_iff, !N.leb_le. reflexivity.
Qed.

Lemma in_range_false (lo hi c : ascii) :
  Pattern.in_range lo hi c = false
  ↔ (N_of_ascii c < N_of_ascii lo ∨ N_of_ascii hi < N_of_ascii c)%N.
Proof.
  unfold Pattern.in_range. rewrite andb_false_iff, !N.leb_gt. reflexivity.
Qed.

Lemma char_eq_true (c d : ascii) :
  bool_decide (c = d) = true ↔ N_of_ascii c = N_of_ascii d.
Proof.
  rewrite bool_decide_eq_true. split; [congruence|].
  intros H. rewrite <- (ascii_N_embedding c), <- (ascii_N_embedding d), H.
  reflexivity.
Qed.

Lemma char_eq_false (c d : ascii) :
  bool_decide (c = d) = false ↔ N_of_ascii c ≠ N_of_ascii d.
Proof.
  rewrite <- char_eq_true. destruct (bool_decide (c = d)); split; congruence.
Qed.

End CharFacts.

(** Turns the tests on characters among the hypotheses into arithmetic
    on their codes. *)
Ltac codes :=
  repeat match goal with
    | H : Pattern.in_range _ _ _ = true |- _ =>
        apply in_range_true in H; simpl N_of_ascii in H
    | H : Pattern.in_range _ _ _ = false |- _ =>
        apply in_range_false in H; simpl N_of_ascii in H
    | H : bool_decide (_ = _ :> ascii) = true |- _ =>
        apply char_eq_true in H; simpl N_of_ascii in H
    | H : bool_decide (_ = _ :> ascii) = false |- _ =>
        apply char_eq_false in H; simpl N_of_ascii in H
    end.


Section ReFacts.

(** Takes the next test of the matcher apart. *)
Ltac branch :=
  match goal with
  | |- context [if ?b then _ else _] => destruct b eqn:?
  | |- context [match ?k ?p ?r with Some _ => _ | None => _ end] =>
      destruct (k p r) eqn:?
  end.

Ltac octet_holds :=
  unfold Pattern.octet;
  rewrite ?orb_true_iff, ?andb_true_iff, ?in_range_true, ?char_eq_true;
  simpl N_of_ascii; codes; lia.

Lemma octet_sound {X} (prev : option ascii) (s : string)
    (k : option ascii → string → option X) (x : X) :
  Re.run Re.octet prev s k = Some x →
  ∃ f rest p, s = f +:+ rest ∧ Pattern.octet f = true ∧ k p rest = Some x.
Proof.
  unfold Re.octet.
  destruct s as [|a [|b [|c s]]]; simpl; repeat branch; try discriminate;
    intros Hx; try (injection Hx as ->).
  all: first
    [ exists (String a ""); eexists _, _;
      split; [reflexivity|]; split; [octet_holds|eassumption]
    | exists (String a (String b "")); eexists _, _;
      split; [reflexivity|]; split; [octet_holds|eassumption]
    | exists (String a (String b (String c ""))); eexists _, _;
      split; [reflexivity|]; split; [octet_holds|eassumption] ].
Qed.

Lemma append_nil (t : string) : "" +:+ t = t.
Proof. reflexivity. Qed.

Lemma append_cons (c : ascii) (s t : string) :
  String c s +:+ t = String c (s +:+ t).
Proof. reflexivity. Qed.

Lemma append_assoc (a b c : string) : (a +:+ b) +:+ c = a +:+ (b +:+ c).
Proof.
  induction a as [|x a IH]; [reflexivity|].
  rewrite !append_cons, IH. reflexivity.
Qed.

Lemma length_append (a b : string) :
  String.length (a +:+ b) = (String.length a + String.length b)%nat.
Proof.
  induction a as [|x a IH]; [reflexivity|].
  rewrite append_cons. simpl. rewrite IH. reflexivity.
Qed.

Lemma substring_append (q rest : string) :
  substring 0 (String.length (q +:+ rest) - String.length rest) (q +:+ rest)
  = q.
Proof.
  rewrite length_append.
  replace (String.length q + String.length rest - String.length rest)%nat
    with (String.length q) by lia.
  induction q as [|x q IH].
  - destruct rest; reflexivity.
  - rewrite append_cons. simpl. rewrite IH. reflexivity.
Qed.

Lemma octet_digits (f : string) :
  Pattern.octet f = true → all_digits f ∧ f ≠ "".
Proof.
  unfold all_digits.
  destruct f as [|a [|b [|c [|d f]]]]; simpl; try discriminate;
    rewrite ?orb_true_iff, ?andb_true_iff; intros H; (split; [|discriminate]);
    repeat constructor; apply in_range_true; simpl N_of_ascii;
    rewrite ?in_range_true, ?char_eq_true in H; simpl N_of_ascii in H; lia.
Qed.

Lemma fields_digits_dot (f t : string) :
  all_digits f → Pattern.fields (f +:+ String "." t) = f :: Pattern.fields t.
Proof.
  unfold all_digits. induction f as [|c f IH]; intros Hd.
  - reflexivity.
  - rewrite append_cons. simpl in *.
    inversion Hd as [|? ? Hc Hf]; subst. rewrite (IH Hf).
    destruct (bool_decide (c = "."%char)) eqn:Hdot; [|reflexivity].
    codes. lia.
Qed.

Lemma fields_digits (f : string) : all_digits f → Pattern.fields f = [f].
Proof.
  unfold all_digits. induction f as [|c f IH]; simpl; intros Hd.
  - reflexivity.
  - inversion Hd as [|? ? Hc Hf]; subst. rewrite (IH Hf).
    destruct (bool_decide (c = "."%char)) eqn:Hdot; [|reflexivity].
    codes. lia.
Qed.

Lemma quad_append (f1 f2 f3 f4 rest : string) :
  quad f1 f2 f3 f4 +:+ rest
  = f1 +:+ String "." (f2 +:+ String "." (f3 +:+ String "." (f4 +:+ rest))).
Proof.
  unfold quad. rewrite ?append_assoc, ?append_cons.
  rewrite ?append_assoc, ?append_cons. rewrite ?append_assoc, ?append_cons.
  reflexivity.
Qed.

Lemma dotted_quad_quad (f1 f2 f3 f4 : string) :
  Pattern.octet f1 = true → Pattern.octet f2 = true →
  Pattern.octet f3 = true → Pattern.octet f4 = true →
  Pattern.dotted_quad (quad f1 f2 f3 f4) = true.
Proof.
  intros H1 H2 H3 H4. unfold Pattern.dotted_quad, quad.
  rewrite !fields_digits_dot, fields_digits
    by (eapply proj1, octet_digits; eassumption).
  rewrite H1, H2, H3, H4. reflexivity.
Qed.

#[local] Opaque Re.octet.

Lemma ip_pattern_sound {X} (prev : option ascii) (s : string)
    (k : option ascii → string → option X) (x : X) :
  Re.run Re.ip_pattern prev s k = Some x →
  ∃ q rest p,
    s = q +:+ rest ∧ Pattern.dotted_quad q = true ∧ k p rest = Some x.
Proof.
  unfold Re.ip_pattern. simpl.
  destruct (xorb _ _); [|discriminate]. intros H.
  apply octet_sound in H as (f1 & r1 & p1 & -> & Ho1 & H).
  destruct r1 as [|c r1]; [discriminate|].
  destruct (bool_decide (c = "."%char)) eqn:Hc; [|discriminate].
  apply bool_decide_eq_true in Hc. subst c.
  apply octet_sound in H as (f2 & r2 & p2 & -> & Ho2 & H).
  destruct r2 as [|c r2]; [discriminate|].
  destruct (bool_decide (c = "."%char)) eqn:Hc; [|discriminate].
  apply bool_decide_eq_true in Hc. subst c.
  apply octet_sound in H as (f3 & r3 & p3 & -> & Ho3 & H).
  destruct r3 as [|c r3]; [discriminate|].
  destruct (bool_decide (c = "."%char)) eqn:Hc; [|discriminate].
  apply bool_decide_eq_true in Hc. subst c.
  apply octet_sound in H as (f4 & rest & p4 & -> & Ho4 & H).
  destruct (xorb _ _); [|discriminate].
  exists (quad f1 f2 f3 f4), rest, p4.
  split; [symmetry; apply quad_append|].
  split; [apply dotted_quad_quad; assumption|exact H].
Qed.

#[local] Transparent Re.octet.

Lemma digit_is_word (c : ascii) :
  Pattern.in_range "0" "9" c = true → Re.word_at (Some c) = true.
Proof. intros H. simpl. unfold Re.is_word. rewrite H. reflexivity. Qed.

Lemma not_word_not_digit (c : ascii) :
  Re.is_word c = false → Pattern.in_range "0" "9" c = false.
Proof.
  unfold Re.is_word. intros H.
  destruct (Pattern.in_range "0" "9" c); [discriminate H|reflexivity].
Qed.

Ltac absurd_codes Ho :=
  exfalso; unfold Pattern.octet in Ho;
  rewrite ?orb_true_iff, ?andb_true_iff, ?in_range_true, ?char_eq_true in Ho;
  simpl N_of_ascii in Ho; codes; lia.

Lemma octet_complete {X} (prev : option ascii) (f rest : string)
    (k : option ascii → string → option X) (x : X) :
  Pattern.octet f = true →
  (∀ c, Re.head rest = Some c → Pattern.in_range "0" "9" c = false) →
  (∀ p, Re.word_at p = true → k p rest = Some x) →
  Re.run Re.octet prev (f +:+ rest) k = Some x.
Proof.
  intros Ho Hnext Hk. destruct (octet_digits f Ho) as [Hd _].
  unfold all_digits in Hd.
  destruct f as [|a [|b [|c [|d f]]]]; try discriminate Ho; simpl in Hd.
  - inversion Hd as [|? ? Ha _]; subst.
    pose proof (Hk _ (digit_is_word a Ha)) as Ka.
    destruct rest as [|n rest]; [|specialize (Hnext n eq_refl)];
      unfold Re.octet; rewrite ?append_cons, ?append_nil; simpl;
      rewrite ?Ka; repeat branch; try reflexivity; absurd_codes Ho.
  - inversion Hd as [|? ? Ha Hd']; subst.
    inversion Hd' as [|? ? Hb _]; subst.
    pose proof (Hk _ (digit_is_word b Hb)) as Kb.
    destruct rest as [|n rest]; [|specialize (Hnext n eq_refl)];
      unfold Re.octet; rewrite ?append_cons, ?append_nil; simpl;
      rewrite ?Kb; repeat branch; try reflexivity; absurd_codes Ho.
  - inversion Hd as [|? ? Ha Hd']; subst.
    inversion Hd' as [|? ? Hb Hd'']; subst.
    inversion Hd'' as [|? ? Hc _]; subst.
    pose proof (Hk _ (digit_is_word c Hc)) as Kc.
    destruct rest as [|n rest]; [|specialize (Hnext n eq_refl)];
      unfold Re.octet; rewrite ?append_cons, ?append_nil; simpl;
      rewrite ?Kc; repeat branch; try reflexivity; absurd_codes Ho.
Qed.

Lemma fields_not_nil (s : string) : Pattern.fields s ≠ [].
Proof.
  induction s as [|c s IH]; simpl; [discriminate|].
  destruct (bool_decide (c = "."%char)); [discriminate|].
  destruct (Pattern.fields s); [congruence|discriminate].
Qed.

Lemma fields_inv (s f : string) (fs : list string) :
  Pattern.fields s = f :: fs →
  match fs with
  | [] => s = f
  | _ :: _ => ∃ t, s = f +:+ String "." t ∧ Pattern.fields t = fs
  end.
Proof.
  revert f fs. induction s as [|c s IH]; intros f fs; simpl.
  - intros [= <- <-]. reflexivity.
  - destruct (bool_decide (c = "."%char)) eqn:Hc.
    + apply bool_decide_eq_true in Hc. subst c. intros [= <- <-].
      pose proof (fields_not_nil s) as Hne.
      destruct (Pattern.fields s) as [|g gs] eqn:Hs; [congruence|].
      exists s. split; [reflexivity|exact Hs].
    + destruct (Pattern.fields s) as [|g gs] eqn:Hs.
      { destruct (fields_not_nil s Hs). }
      intros [= <- <-]. specialize (IH g gs eq_refl).
      destruct gs as [|g' gs].
      * subst s. reflexivity.
      * destruct IH as (t & -> & Ht). exists t. split; [reflexivity|exact Ht].
Qed.

Lemma dotted_quad_inv (q : string) :
  Pattern.dotted_quad q = true →
  ∃ f1 f2 f3 f4,
    q = quad f1 f2 f3 f4
    ∧ Pattern.octet f1 = true ∧ Pattern.octet f2 = true
    ∧ Pattern.octet f3 = true ∧ Pattern.octet f4 = true.
Proof.
  unfold Pattern.dotted_quad.
  destruct (Pattern.fields q) as [|f1 [|f2 [|f3 [|f4 [|f5 fs]]]]] eqn:Hq;
    try discriminate.
  rewrite !andb_true_iff. intros [[[H1 H2] H3] H4].
  apply fields_inv in Hq as (t1 & -> & Hq).
  apply fields_inv in Hq as (t2 & -> & Hq).
  apply fields_inv in Hq as (t3 & -> & Hq).
  apply fields_inv in Hq as ->.
  exists f1, f2, f3, f4. auto.
Qed.

Lemma head_octet (f t : string) :
  Pattern.octet f = true → Re.word_at (Re.head (f +:+ t)) = true.
Proof.
  intros Ho. destruct (octet_digits f Ho) as [Hd Hne]. unfold all_digits in Hd.
  destruct f as [|a f]; [congruence|]. rewrite append_cons.
  simpl in Hd. inversion Hd; subst. apply digit_is_word. assumption.
Qed.

#[local] Opaque Re.octet.

(** At a dotted quad that stands between characters that are no word
    characters, the pattern matches the whole quad. *)
Lemma ip_pattern_complete (prev : option ascii) (q rest : string) :
  Pattern.dotted_quad q = true →
  Re.word_at prev = false →
  Re.word_at (Re.head rest) = false →
  Re.match_at Re.ip_pattern prev (q +:+ rest) = Some rest.
Proof.
  intros Hq Hprev Hrest.
  destruct (dotted_quad_inv q Hq) as (f1 & f2 & f3 & f4 & -> & H1 & H2 & H3 & H4).
  rewrite quad_append. unfold Re.match_at, Re.ip_pattern. simpl.
  rewrite (head_octet f1 _ H1), Hprev. simpl.
  apply octet_complete; [exact H1|intros c [= <-]; reflexivity|].
  intros p1 _. simpl.
  apply octet_complete; [exact H2|intros c [= <-]; reflexivity|].
  intros p2 _. simpl.
  apply octet_complete; [exact H3|intros c [= <-]; reflexivity|].
  intros p3 _. simpl.
  apply octet_complete; [exact H4| |].
  - intros c Hc. rewrite Hc in Hrest. apply not_word_not_digit, Hrest.
  - intros p4 Hp4. simpl. rewrite Hp4, Hrest. reflexivity.
Qed.

#[local] Transparent Re.octet.

(** Where no digit stands, no match starts. *)
Lemma ip_pattern_needs_digit (prev : option ascii) (c : ascii) (s : string) :
  Pattern.in_range "0" "9" c = false →
  Re.match_at Re.ip_pattern prev (String c s) = None.
Proof.
  intros Hc. unfold Re.match_at, Re.ip_pattern, Re.octet. simpl.
  destruct (xorb _ _); [|reflexivity].
  repeat branch; try reflexivity; exfalso; codes; lia.
Qed.

Lemma scan_cons (r : Re.regex) (skip : nat) (prev : option ascii)
    (c : ascii) (s : string) :
  Re.scan r skip prev (String c s)
  = match skip with
    | S skip' => Re.scan r skip' (Some c) s
    | O =>
        match Re.match_at r prev (String c s) with
        | Some rest =>
            let found :=
              substring 0 (String.length (String c s) - String.length rest)
                (String c s) in
            found :: Re.scan r (String.length found - 1) (Some c) s
        | None => Re.scan r 0 (Some c) s
        end
    end.
Proof. reflexivity. Qed.

Lemma scan_sound (s : string) (skip : nat) (prev : option ascii) :
  Forall (λ ip, Pattern.dotted_quad ip = true)
    (Re.scan Re.ip_pattern skip prev s).
Proof.
  revert skip prev. induction s as [|c s IH]; intros skip prev.
  - constructor.
  - rewrite scan_cons. destruct skip as [|skip]; [|apply IH].
    destruct (Re.match_at Re.ip_pattern prev (String c s)) as [rest|] eqn:Hm;
      [|apply IH].
    cbv zeta. constructor; [|apply IH].
    apply ip_pattern_sound in Hm as (q & rest' & p & Hs & Hq & [= ->]).
    rewrite Hs, substring_append. exact Hq.
Qed.

Lemma scan_skip (r : Re.regex) (a b : string) (prev : option ascii)
    (found : list string) :
  (∀ p, Re.scan r 0 p b = found) →
  Re.scan r (String.length a) prev (a +:+ b) = found.
Proof.
  intros Hb. revert prev. induction a as [|c a IH]; intros prev.
  - apply Hb.
  - rewrite append_cons. simpl String.length. rewrite scan_cons. apply IH.
Qed.

Lemma scan_one_per_line (servers : list string) (prev : option ascii) :
  Forall (λ ip, Pattern.dotted_quad ip = true) servers →
  Re.word_at prev = false →
  Re.scan Re.ip_pattern 0 prev (one_per_line servers) = servers.
Proof.
  intros Hall. revert prev.
  induction Hall as [|q servers Hq _ IH]; intros prev Hprev; [reflexivity|].
  change (one_per_line (q :: servers))
    with (q +:+ nl +:+ one_per_line servers).
  assert (∀ p, Re.scan Re.ip_pattern 0 p (nl +:+ one_per_line servers)
               = servers) as Hnext.
  { intros p. unfold nl. rewrite append_cons, append_nil, scan_cons.
    rewrite ip_pattern_needs_digit by reflexivity.
    apply IH. reflexivity. }
  pose proof (ip_pattern_complete prev q (nl +:+ one_per_line servers)
                Hq Hprev eq_refl) as Hm.
  pose proof (substring_append q (nl +:+ one_per_line servers)) as Hsub.
  destruct (dotted_quad_inv q Hq) as (f1 & f2 & f3 & f4 & Hquad & H1 & _).
  destruct (octet_digits f1 H1) as [_ Hne].
  destruct q as [|c q].
  { unfold quad in Hquad. destruct f1; [congruence|discriminate Hquad]. }
  rewrite append_cons in *. rewrite scan_cons, Hm. cbv zeta.
  rewrite Hsub. f_equal.
  replace (String.length (String c q) - 1)%nat with (String.length q)
    by (simpl; lia).
  apply scan_skip, Hnext.
Qed.

End ReFacts.

(** ** The loader: files *)

Section SetFacts.

Import Loader.

Lemma handed_out_Permutation (order : nat → nat) (members : list string)
    (step : nat) :
  handed_out order step (length members) members ≡ₚ members.
Proof.
  remember (length members) as n eqn:Hn.
  revert members step Hn.
  induction n as [|n IH]; intros members step Hn.
  - destruct members; [reflexivity | discriminate].
  - simpl. rewrite <- Hn.
    assert (order step `mod` S n < length members)%nat as Hlt.
    { rewrite <- Hn. apply Nat.mod_upper_bound. lia. }
    destruct (lookup_lt_is_Some_2 _ _ Hlt) as [x Hx].
    rewrite Hx.
    etrans; [|symmetry; exact (delete_Permutation members _ x Hx)].
    constructor. apply IH.
    rewrite length_delete by eauto. lia.
Qed.

Lemma list_set_Permutation (order : nat → nat) (l : list string) :
  list_set order l ≡ₚ remove_dups l.
Proof. apply handed_out_Permutation. Qed.

Lemma list_set_NoDup (order : nat → nat) (l : list string) :
  NoDup (list_set order l).
Proof. rewrite list_set_Permutation. apply NoDup_remove_dups. Qed.

Lemma list_set_elem_of (order : nat → nat) (l : list string) (x : string) :
  x ∈ list_set order l ↔ x ∈ l.
Proof. rewrite list_set_Permutation. apply elem_of_remove_dups. Qed.

Lemma list_set_nil (order : nat → nat) (l : list string) :
  list_set order l = [] ↔ l = [].
Proof.
  split.
  - intros H. destruct l as [|x l]; [reflexivity|].
    assert (x ∈ list_set order (x :: l)) as Hx
      by (apply list_set_elem_of; left).
    rewrite H in Hx. inversion Hx.
  - intros ->. reflexivity.
Qed.

End SetFacts.

Section LoaderFacts.

Import Loader.

Context (host : Host).

Lemma isinstance_On_Exception (e : exn) :
  isinstance (Thrown e) (On Exception) = true.
Proof. apply isinstance_Exception. Qed.

(** [create_sample_servers] returns, whatever the disk does; a file that
    is there is left alone, and so is every other file. *)
Lemma create_sample_servers_run (filename : string) (disk : Disk) :
  ∃ disk',
    create_sample_servers host filename disk = (Ok (), disk')
    ∧ (is_Some (files disk !! path host filename) → disk' = disk)
    ∧ (∀ p, p ≠ path host filename → files disk' !! p = files disk !! p)
    ∧ (files disk' !! path host filename = None →
       files disk !! path host filename = None)
    ∧ (files disk !! path host filename = None →
       match create_fault host (opened disk) with
       | None =>
           files disk'
           = <[path host filename := one_per_line sample_servers]> (files disk)
       | Some (_, Some n) =>
           files disk'
           = <[path host filename := substring 0 n (one_per_line sample_servers)]>
               (files disk)
       | Some (_, None) => files disk' = files disk
       end
       ∧ opened disk' = S (opened disk)).
Proof.
  unfold create_sample_servers, os_path_exists, try_except, open_w, print,
    mbind, Load_bind, mret, Load_ret.
  generalize (one_per_line sample_servers). intros text.
  generalize (pretty (length sample_servers)). intros count.
  cbv zeta beta iota.
  destruct (files disk !! path host filename) as [content|] eqn:Hfile.
  - rewrite bool_decide_eq_true_2 by eauto.
    exists disk. split; [reflexivity|]. split; [reflexivity|].
    split; [reflexivity|]. split; intros H; congruence.
  - rewrite bool_decide_eq_false_2 by (intros [? ?]; discriminate).
    destruct (create_fault host (opened disk)) as [[e [n|]]|] eqn:Hfault;
      cbv beta iota; simpl; rewrite ?isinstance_Exception;
      eexists; (split; [reflexivity|]); simpl;
      (split; [intros [? ?]; discriminate|]);
      (split; [intros p Hp; rewrite ?lookup_insert_ne by congruence;
               reflexivity|]);
      (split; [try (rewrite lookup_insert; discriminate); auto|]);
      intros _; split; reflexivity.
Qed.

Lemma load_servers_0 (filename : string) (disk : Disk) :
  load_servers host 0 filename disk = (Err (RecursionError host), disk).
Proof. reflexivity. Qed.

Lemma load_servers_S (depth : nat) (filename : string) :
  load_servers host (S depth) filename
  = try_except
      (content ← open_r host (path host filename);
       let all_ips := Re.findall Re.ip_pattern content in
       let servers := list_set (set_order host) all_ips in
       print ("extracted " +:+ pretty (length servers)
              +:+ " unique ipv4 addresses from " +:+ path host filename);;
       print ("total ips found (with duplicates): "
              +:+ pretty (length all_ips));;
       if bool_decide (servers = []) then
         print "no valid ipv4 addresses found. creating sample file...";;
         create_sample_servers host filename;;
         load_servers host depth filename
       else mret servers)
      [(OnFileNotFoundError,
        λ _, print (path host filename
                    +:+ " not found. creating sample file...");;
             create_sample_servers host filename;;
             load_servers host depth filename);
       (On Exception,
        λ e, print ("error loading servers: " +:+ text_of e);;
             mret [])].
Proof. reflexivity. Qed.

(** The four ways a call of [load_servers] can go. *)
Lemma load_servers_missing (depth : nat) (filename : string) (disk : Disk) :
  files disk !! path host filename = None →
  ∃ disk1,
    files disk1 = files disk ∧ opened disk1 = opened disk
    ∧ load_servers host (S depth) filename disk
      = load_servers host depth filename
          (create_sample_servers host filename disk1).2.
Proof.
  intros Hfile.
  destruct (create_sample_servers_run filename
              {| files := files disk; opened := opened disk;
                 printed_lines :=
                   printed_lines disk
                   ++ [path host filename
                       +:+ " not found. creating sample file..."] |})
    as (disk2 & Hcreate & _).
  exists {| files := files disk; opened := opened disk;
            printed_lines :=
              printed_lines disk
              ++ [path host filename
                  +:+ " not found. creating sample file..."] |}.
  split; [reflexivity|]. split; [reflexivity|].
  rewrite load_servers_S.
  unfold try_except, mbind at 1, Load_bind at 1, open_r.
  rewrite Hfile. cbv beta iota. simpl dispatch.
  unfold mbind, Load_bind, print. rewrite Hcreate. reflexivity.
Qed.

Lemma load_servers_unreadable (depth : nat) (filename : string) (disk : Disk)
    (content : string) (e : exn) :
  files disk !! path host filename = Some content →
  read_fault host (opened disk) = Some e →
  load_servers host (S depth) filename disk
  = (Ok [],
     {| files := files disk; opened := S (opened disk);
        printed_lines :=
          printed_lines disk ++ ["error loading servers: " +:+ str e] |}).
Proof.
  intros Hfile Hfault. rewrite load_servers_S.
  unfold try_except, mbind at 1, Load_bind at 1, open_r.
  rewrite Hfile, Hfault. cbv beta iota. simpl dispatch.
  rewrite isinstance_Exception. reflexivity.
Qed.

Lemma load_servers_found (depth : nat) (filename : string) (disk : Disk)
    (content : string) :
  files disk !! path host filename = Some content →
  read_fault host (opened disk) = None →
  Re.findall Re.ip_pattern content ≠ [] →
  ∃ more,
    load_servers host (S depth) filename disk
    = (Ok (list_set (set_order host) (Re.findall Re.ip_pattern content)),
       {| files := files disk; opened := S (opened disk);
          printed_lines := printed_lines disk ++ more |}).
Proof.
  intros Hfile Hfault Hsome. rewrite load_servers_S.
  unfold try_except, mbind, Load_bind, open_r, print.
  rewrite Hfile, Hfault. cbv beta iota zeta.
  rewrite bool_decide_eq_false_2 by (rewrite list_set_nil; exact Hsome).
  unfold mret, Load_ret. cbn [files opened printed_lines].
  rewrite <- app_assoc. eexists. reflexivity.
Qed.

(** A file without addresses: the call goes on with the next call, in
    the [try]. *)
Lemma load_servers_empty (depth : nat) (filename : string) (disk : Disk)
    (content : string) :
  files disk !! path host filename = Some content →
  read_fault host (opened disk) = None →
  Re.findall Re.ip_pattern content = [] →
  ∃ more,
    load_servers host (S depth) filename disk
    = match load_servers host depth filename
              {| files := files disk; opened := S (opened disk);
                 printed_lines := printed_lines disk ++ more |} with
      | (Ok servers, disk') => (Ok servers, disk')
      | (Err t, disk') =>
          dispatch t
            [(OnFileNotFoundError,
              λ _, print (path host filename
                          +:+ " not found. creating sample file...");;
                   create_sample_servers host filename;;
                   load_servers host depth filename);
             (On Exception,
              λ e, print ("error loading servers: " +:+ text_of e);;
                   mret [])] disk'
      end.
Proof.
  intros Hfile Hfault Hnone. rewrite load_servers_S.
  unfold try_except, mbind at 1 2 3, Load_bind at 1 2 3, open_r, print at 1 2.
  rewrite Hfile, Hfault. cbv beta iota zeta.
  rewrite bool_decide_eq_true_2 by (rewrite list_set_nil; exact Hnone).
  unfold mbind at 1 2, Load_bind at 1 2, print at 1. cbv beta iota.
  match goal with
  | |- context [create_sample_servers host filename ?d] =>
      destruct (create_sample_servers_run filename d)
        as (disk2 & Hcreate & Hthere & _)
  end.
  rewrite Hcreate. rewrite Hthere by (simpl; eauto).
  cbn [files opened printed_lines]. rewrite <- !app_assoc.
  eexists. reflexivity.
Qed.

(** Only the limit of the interpreter makes [load_servers] raise. *)
Lemma load_servers_raises (depth : nat) (filename : string) (disk disk' : Disk)
    (t : thrown) :
  load_servers host depth filename disk = (Err t, disk') →
  t = RecursionError host.
Proof.
  revert disk disk' t. induction depth as [|depth IH]; intros disk disk' t.
  - rewrite load_servers_0. intros [= <- _]. reflexivity.
  - destruct (files disk !! path host filename) as [content|] eqn:Hfile.
    + destruct (read_fault host (opened disk)) as [e|] eqn:Hfault.
      { rewrite (load_servers_unreadable _ _ _ _ _ Hfile Hfault).
        discriminate. }
      destruct (Re.findall Re.ip_pattern content) as [|ip ips] eqn:Hips.
      * destruct (load_servers_empty depth _ _ _ Hfile Hfault Hips)
          as [more ->].
        destruct (load_servers host depth filename _) as [[servers|t'] disk2]
          eqn:Hnext; [discriminate|].
        apply IH in Hnext. subst t'. discriminate.
      * destruct (load_servers_found depth _ _ _ Hfile Hfault) as [more ->];
          [rewrite Hips; discriminate|discriminate].
    + destruct (load_servers_missing depth _ _ Hfile) as (disk1 & _ & _ & ->).
      apply IH.
Qed.

(** Whatever [load_servers] returns is a list of dotted quads without
    duplicates. *)
Lemma load_servers_returned (depth : nat) (filename : string)
    (disk disk' : Disk) (servers : list string) :
  load_servers host depth filename disk = (Ok servers, disk') →
  NoDup servers ∧ Forall (λ ip, Pattern.dotted_quad ip = true) servers.
Proof.
  revert disk disk'. induction depth as [|depth IH]; intros disk disk'.
  - rewrite load_servers_0. discriminate.
  - destruct (files disk !! path host filename) as [content|] eqn:Hfile.
    + destruct (read_fault host (opened disk)) as [e|] eqn:Hfault.
      { rewrite (load_servers_unreadable _ _ _ _ _ Hfile Hfault).
        intros [= <- _]. split; constructor. }
      destruct (Re.findall Re.ip_pattern content) as [|ip ips] eqn:Hips.
      * destruct (load_servers_empty depth _ _ _ Hfile Hfault Hips)
          as [more ->].
        destruct (load_servers host depth filename _) as [[found|t] disk2]
          eqn:Hnext.
        { intros [= <- _]. exact (IH _ _ Hnext). }
        apply load_servers_raises in Hnext. subst t.
        intros [= <- _]. split; constructor.
      * destruct (load_servers_found depth _ _ _ Hfile Hfault) as [more ->];
          [rewrite Hips; discriminate|].
        intros [= <- _]. split; [apply list_set_NoDup|].
        apply Forall_forall. intros x Hx. apply list_set_elem_of in Hx.
        pose proof (scan_sound content 0 None) as Hall.
        rewrite Forall_forall in Hall. apply Hall. exact Hx.
    + destruct (load_servers_missing depth _ _ Hfile) as (disk1 & _ & _ & ->).
      apply IH.
Qed.

(** [load_servers] writes to no file but its own, and to that one only
    when it is missing. *)
Lemma load_servers_frame (depth : nat) (filename : string) (disk : Disk) :
  (∀ p, p ≠ path host filename →
        files (load_servers host depth filename disk).2 !! p
        = files disk !! p)
  ∧ (is_Some (files disk !! path host filename) →
     files (load_servers host depth filename disk).2 = files disk).
Proof.
  revert disk. induction depth as [|depth IH]; intros disk.
  - rewrite load_servers_0. split; reflexivity.
  - destruct (files disk !! path host filename) as [content|] eqn:Hfile.
    + assert (files (load_servers host (S depth) filename disk).2
              = files disk) as Hsame.
      { destruct (read_fault host (opened disk)) as [e|] eqn:Hfault.
        { rewrite (load_servers_unreadable _ _ _ _ _ Hfile Hfault).
          reflexivity. }
        destruct (Re.findall Re.ip_pattern content) as [|ip ips] eqn:Hips.
        - destruct (load_servers_empty depth _ _ _ Hfile Hfault Hips)
            as [more ->].
          match goal with
          | |- context [load_servers host depth filename ?d] =>
              destruct (IH d) as [_ Hkeep];
              specialize (Hkeep ltac:(simpl; eauto));
              destruct (load_servers host depth filename d)
                as [[found|t] disk2] eqn:Hnext
          end; [exact Hkeep|].
          apply load_servers_raises in Hnext. subst t. exact Hkeep.
        - destruct (load_servers_found depth _ _ _ Hfile Hfault) as [more ->];
            [rewrite Hips; discriminate|reflexivity]. }
      split; [intros p _; rewrite Hsame; reflexivity|intros _; exact Hsame].
    + split; [|intros [? ?]; discriminate].
      intros p Hp.
      destruct (load_servers_missing depth _ _ Hfile)
        as (disk1 & Hfiles & _ & ->).
      destruct (create_sample_servers_run filename disk1)
        as (disk2 & Hcreate & _ & Hothers & _).
      rewrite Hcreate. simpl.
      destruct (IH disk2) as [Hp' _]. rewrite (Hp' p Hp), (Hothers p Hp), Hfiles.
      reflexivity.
Qed.

End LoaderFacts.

(** ** The loader: properties *)

(** X15: every address [load_servers] takes out of a text is a dotted
    quad: four fields of one to three decimal digits, each at most 255,
    with dots between them. *)
Theorem findall_yields_dotted_quads (content : string) :
  ascii_text content = true →
  Forall (λ ip, Pattern.dotted_quad ip = true)
    (Re.findall Re.ip_pattern content).
Proof. intros _. apply scan_sound. Qed.

Lemma findall_yields_dotted_quads_witness :
  ascii_text "dns 8.8.8.8, 1.1.1.1; not 1.2.3 nor 256.1.1.1" = true
  ∧ Forall (λ ip, Pattern.dotted_quad ip = true)
      (Re.findall Re.ip_pattern
         "dns 8.8.8.8, 1.1.1.1; not 1.2.3 nor 256.1.1.1").
Proof.
  split; [reflexivity|].
  exact (findall_yields_dotted_quads
           "dns 8.8.8.8, 1.1.1.1; not 1.2.3 nor 256.1.1.1" eq_refl).
Defined.

(** X16: a file written with one dotted quad on each line, as
    [create_sample_servers] writes it, is read back as just these
    addresses, in their order and with their repetitions. *)
Theorem findall_reads_back_one_per_line (servers : list string) :
  Forall (λ ip, Pattern.dotted_quad ip = true) servers →
  Re.findall Re.ip_pattern (one_per_line servers) = servers.
Proof. intros Hall. apply scan_one_per_line; [exact Hall|reflexivity]. Qed.

Lemma findall_reads_back_one_per_line_witness :
  Forall (λ ip, Pattern.dotted_quad ip = true)
    ["10.0.0.1"; "192.168.1.254"; "10.0.0.1"]
  ∧ Re.findall Re.ip_pattern
      (one_per_line ["10.0.0.1"; "192.168.1.254"; "10.0.0.1"])
    = ["10.0.0.1"; "192.168.1.254"; "10.0.0.1"].
Proof.
  assert (Forall (λ ip, Pattern.dotted_quad ip = true)
            ["10.0.0.1"; "192.168.1.254"; "10.0.0.1"]) as Hall.
  { repeat constructor. }
  split; [exact Hall|].
  exact (findall_reads_back_one_per_line _ Hall).
Defined.

(** X17: [create_sample_servers] always returns (an error of the disk is
    printed, not raised); it leaves a file that is there as it is, and
    with it the whole disk; it touches no file but its own; and when its
    file is missing and the disk takes the writes, the file then holds
    the nine sample servers, one on each line. *)
Theorem create_sample_servers_spares_files (host : Loader.Host)
    (filename : string) (disk : Loader.Disk) :
  ∃ disk',
    create_sample_servers host filename disk = (Loader.Ok (), disk')
    ∧ (is_Some (Loader.files disk !! Loader.path host filename) →
       disk' = disk)
    ∧ (∀ p, p ≠ Loader.path host filename →
            Loader.files disk' !! p = Loader.files disk !! p)
    ∧ (Loader.files disk !! Loader.path host filename = None →
       Loader.create_fault host (Loader.opened disk) = None →
       Loader.files disk' !! Loader.path host filename
       = Some (one_per_line sample_servers)).
Proof.
  destruct (create_sample_servers_run host filename disk)
    as (disk' & Hrun & Hthere & Hothers & _ & Hmissing).
  exists disk'. split; [exact Hrun|]. split; [exact Hthere|].
  split; [exact Hothers|].
  intros Hnone Hfault. destruct (Hmissing Hnone) as [Hfiles _].
  rewrite Hfault in Hfiles. rewrite Hfiles. apply lookup_insert_eq.
Qed.

(** X18: whatever [load_servers] returns, from whatever disk and at
    whatever depth, is a list without duplicates of dotted quads. *)
Theorem load_servers_returns_unique_dotted_quads (host : Loader.Host)
    (depth : nat) (filename : string) (disk : Loader.Disk)
    (servers : list string) :
  plain_disk disk →
  (load_servers host depth filename disk).1 = Loader.Ok servers →
  NoDup servers ∧ Forall (λ ip, Pattern.dotted_quad ip = true) servers.
Proof.
  intros _ Hrun.
  destruct (load_servers host depth filename disk) as [result disk'] eqn:Hload.
  simpl in Hrun. subst result.
  exact (load_servers_returned host depth filename disk disk' servers Hload).
Qed.

Lemma load_servers_returns_unique_dotted_quads_witness :
  plain_disk (Rooms.holding "8.8.8.8 1.1.1.1 8.8.8.8")
  ∧ NoDup ["1.1.1.1"; "8.8.8.8"]
  ∧ Forall (λ ip, Pattern.dotted_quad ip = true) ["1.1.1.1"; "8.8.8.8"].
Proof.
  assert (plain_disk (Rooms.holding "8.8.8.8 1.1.1.1 8.8.8.8")) as Hplain.
  { apply map_Forall_singleton. reflexivity. }
  split; [exact Hplain|].
  exact (load_servers_returns_unique_dotted_quads Rooms.quiet 1
           "dns_servers.txt" (Rooms.holding "8.8.8.8 1.1.1.1 8.8.8.8")
           ["1.1.1.1"; "8.8.8.8"] Hplain eq_refl).
Defined.

(** X19: a file that can be read and holds an address is not changed,
    and what [load_servers] returns are its addresses, each once. *)
Theorem load_servers_reads_the_file (host : Loader.Host) (depth : nat)
    (filename : string) (disk : Loader.Disk) (content : string) :
  Loader.files disk !! Loader.path host filename = Some content →
  ascii_text content = true →
  Loader.read_fault host (Loader.opened disk) = None →
  Re.findall Re.ip_pattern content ≠ [] →
  ∃ servers disk',
    load_servers host (S depth) filename disk = (Loader.Ok servers, disk')
    ∧ NoDup servers
    ∧ (∀ ip, ip ∈ servers ↔ ip ∈ Re.findall Re.ip_pattern content)
    ∧ servers ≠ []
    ∧ Loader.files disk' = Loader.files disk.
Proof.
  intros Hfile _ Hfault Hsome.
  destruct (load_servers_found host depth filename disk content
              Hfile Hfault Hsome) as [more Hrun].
  eexists _, _. split; [exact Hrun|].
  split; [apply list_set_NoDup|].
  split; [intros ip; apply list_set_elem_of|].
  split; [rewrite list_set_nil; exact Hsome|reflexivity].
Qed.

Lemma load_servers_reads_the_file_witness :
  Loader.files (Rooms.holding "8.8.8.8 1.1.1.1 8.8.8.8")
    !! Loader.path Rooms.quiet "dns_servers.txt"
  = Some "8.8.8.8 1.1.1.1 8.8.8.8"
  ∧ ∃ servers disk',
      load_servers Rooms.quiet 1 "dns_servers.txt"
        (Rooms.holding "8.8.8.8 1.1.1.1 8.8.8.8")
      = (Loader.Ok servers, disk')
      ∧ NoDup servers
      ∧ (∀ ip, ip ∈ servers
               ↔ ip ∈ Re.findall Re.ip_pattern "8.8.8.8 1.1.1.1 8.8.8.8")
      ∧ servers ≠ []
      ∧ Loader.files disk'
        = Loader.files (Rooms.holding "8.8.8.8 1.1.1.1 8.8.8.8").
Proof.
  split; [reflexivity|].
  apply (load_servers_reads_the_file Rooms.quiet 0 "dns_servers.txt"
           (Rooms.holding "8.8.8.8 1.1.1.1 8.8.8.8")
           "8.8.8.8 1.1.1.1 8.8.8.8");
    [reflexivity|reflexivity|reflexivity|discriminate].
Defined.

(** X20: when the file is missing and the disk takes the writes,
    [load_servers] leaves the file with the nine sample servers and
    returns them, each once. *)
Theorem load_servers_creates_the_samples (host : Loader.Host) (depth : nat)
    (filename : string) (disk : Loader.Disk) :
  Loader.files disk !! Loader.path host filename = None →
  Loader.create_fault host (Loader.opened disk) = None →
  Loader.read_fault host (S (Loader.opened disk)) = None →
  ∃ servers disk',
    load_servers host (S (S depth)) filename disk = (Loader.Ok servers, disk')
    ∧ servers ≡ₚ sample_servers
    ∧ Loader.files disk'
      = <[Loader.path host filename := one_per_line sample_servers]>
          (Loader.files disk).
Proof.
  intros Hfile Hcreate Hread.
  destruct (load_servers_missing host (S depth) filename disk Hfile)
    as (disk1 & Hfiles1 & Hopened1 & ->).
  destruct (create_sample_servers_run host filename disk1)
    as (disk2 & Hrun & _ & _ & _ & Hmissing).
  rewrite Hrun. simpl snd.
  destruct Hmissing as [Hfiles2 Hopened2]; [rewrite Hfiles1; exact Hfile|].
  rewrite Hopened1, Hcreate in Hfiles2. rewrite Hopened1 in Hopened2.
  assert (Re.findall Re.ip_pattern (one_per_line sample_servers)
          = sample_servers) as Hback.
  { apply scan_one_per_line; [repeat constructor|reflexivity]. }
  destruct (load_servers_found host depth filename disk2
              (one_per_line sample_servers)) as [more Hload].
  { rewrite Hfiles2. apply lookup_insert_eq. }
  { rewrite Hopened2. exact Hread. }
  { rewrite Hback. discriminate. }
  eexists _, _. split; [exact Hload|].
  split; [|simpl; rewrite Hfiles2, Hfiles1; reflexivity].
  rewrite Hback, list_set_Permutation.
  assert (remove_dups sample_servers = sample_servers) as -> by reflexivity.
  reflexivity.
Qed.

Lemma load_servers_creates_the_samples_witness :
  Loader.files Rooms.bare !! Loader.path Rooms.quiet "dns_servers.txt" = None
  ∧ ∃ servers disk',
      load_servers Rooms.quiet 2 "dns_servers.txt" Rooms.bare
      = (Loader.Ok servers, disk')
      ∧ servers ≡ₚ sample_servers
      ∧ Loader.files disk'
        = <[Loader.path Rooms.quiet "dns_servers.txt"
            := one_per_line sample_servers]> (Loader.files Rooms.bare).
Proof.
  split; [reflexivity|].
  exact (load_servers_creates_the_samples Rooms.quiet 0 "dns_servers.txt"
           Rooms.bare eq_refl eq_refl eq_refl).
Defined.

(** X21: a file that is there but cannot be read gives no servers: the
    error is printed, the empty list returned, no sample file written
    and no further call made. *)
Theorem load_servers_gives_up_on_unreadable_file (host : Loader.Host)
    (depth : nat) (filename : string) (disk : Loader.Disk)
    (content : string) (e : exn) :
  Loader.files disk !! Loader.path host filename = Some content →
  Loader.read_fault host (Loader.opened disk) = Some e →
  ∃ disk',
    load_servers host (S depth) filename disk = (Loader.Ok [], disk')
    ∧ Loader.files disk' = Loader.files disk
    ∧ Loader.opened disk' = S (Loader.opened disk)
    ∧ Loader.printed_lines disk'
      = Loader.printed_lines disk ++ ["error loading servers: " +:+ str e].
Proof.
  intros Hfile Hfault.
  rewrite (load_servers_unreadable host depth filename disk content e
             Hfile Hfault).
  eexists. repeat split; reflexivity.
Qed.

Lemma load_servers_gives_up_on_unreadable_file_witness :
  Loader.files (Rooms.holding "8.8.8.8")
    !! Loader.path Rooms.locked "dns_servers.txt" = Some "8.8.8.8"
  ∧ ∃ disk',
      load_servers Rooms.locked 1 "dns_servers.txt" (Rooms.holding "8.8.8.8")
      = (Loader.Ok [], disk')
      ∧ Loader.files disk' = Loader.files (Rooms.holding "8.8.8.8")
      ∧ Loader.opened disk' = 1%nat
      ∧ Loader.printed_lines disk'
        = ["error loading servers: [Errno 13] Permission denied"].
Proof.
  split; [reflexivity|].
  exact (load_servers_gives_up_on_unreadable_file Rooms.locked 0
           "dns_servers.txt" (Rooms.holding "8.8.8.8") "8.8.8.8"
           (Exn OSError "[Errno 13] Permission denied") eq_refl eq_refl).
Defined.

Section LimitFacts.

Import Loader.

Context (host : Host).

Lemma load_servers_no_address (depth : nat) (filename : string) (disk : Disk)
    (content : string) :
  files disk !! path host filename = Some content →
  Re.findall Re.ip_pattern content = [] →
  ∃ disk',
    load_servers host (S depth) filename disk = (Ok [], disk')
    ∧ files disk' = files disk.
Proof.
  intros Hfile Hnone. revert disk Hfile.
  induction depth as [|depth IH]; intros disk Hfile.
  - destruct (read_fault host (opened disk)) as [e|] eqn:Hfault.
    { rewrite (load_servers_unreadable host _ _ _ _ _ Hfile Hfault).
      eexists. split; reflexivity. }
    destruct (load_servers_empty host 0 _ _ _ Hfile Hfault Hnone)
      as [more ->].
    rewrite load_servers_0. eexists. split; reflexivity.
  - destruct (read_fault host (opened disk)) as [e|] eqn:Hfault.
    { rewrite (load_servers_unreadable host _ _ _ _ _ Hfile Hfault).
      eexists. split; reflexivity. }
    destruct (load_servers_empty host (S depth) _ _ _ Hfile Hfault Hnone)
      as [more ->].
    match goal with
    | |- context [load_servers host (S depth) filename ?d] =>
        destruct (IH d) as (disk' & -> & Hfiles); [exact Hfile|]
    end.
    exists disk'. split; [reflexivity|exact Hfiles].
Qed.

Lemma load_servers_no_place (depth : nat) (filename : string) (disk : Disk) :
  files disk !! path host filename = None →
  (∀ n, ∃ e, create_fault host n = Some (e, None)) →
  ∃ disk',
    load_servers host depth filename disk = (Err (RecursionError host), disk')
    ∧ files disk' = files disk.
Proof.
  intros Hfile Hfault. revert disk Hfile.
  induction depth as [|depth IH]; intros disk Hfile.
  - rewrite load_servers_0. eexists. split; reflexivity.
  - destruct (load_servers_missing host depth filename disk Hfile)
      as (disk1 & Hfiles1 & _ & ->).
    destruct (create_sample_servers_run host filename disk1)
      as (disk2 & Hrun & _ & _ & _ & Hmissing).
    rewrite Hrun. simpl snd.
    destruct Hmissing as [Hfiles2 _]; [rewrite Hfiles1; exact Hfile|].
    destruct (Hfault (opened disk1)) as [e He]. rewrite He in Hfiles2.
    destruct (IH disk2) as (disk' & -> & Hfiles').
    { rewrite Hfiles2, Hfiles1. exact Hfile. }
    exists disk'. split; [reflexivity|].
    rewrite Hfiles', Hfiles2, Hfiles1. reflexivity.
Qed.

End LimitFacts.

(** X22: a file that holds no address is never replaced by the samples:
    [create_sample_servers] finds it there and leaves it, and
    [load_servers] calls itself again on the same file until the
    interpreter refuses a further call, which the last call still running
    takes as a failed load.  At every depth the result is the empty
    list, and the disk is as before. *)
Theorem load_servers_keeps_a_file_without_addresses (host : Loader.Host)
    (depth : nat) (filename : string) (disk : Loader.Disk)
    (content : string) :
  Loader.files disk !! Loader.path host filename = Some content →
  ascii_text content = true →
  Re.findall Re.ip_pattern content = [] →
  ∃ disk',
    load_servers host (S depth) filename disk = (Loader.Ok [], disk')
    ∧ Loader.files disk' = Loader.files disk.
Proof.
  intros Hfile _ Hnone.
  exact (load_servers_no_address host depth filename disk content Hfile Hnone).
Qed.

Lemma load_servers_keeps_a_file_without_addresses_witness :
  Loader.files (Rooms.holding "no address here")
    !! Loader.path Rooms.quiet "dns_servers.txt" = Some "no address here"
  ∧ ∃ disk',
      load_servers Rooms.quiet 1000 "dns_servers.txt"
        (Rooms.holding "no address here")
      = (Loader.Ok [], disk')
      ∧ Loader.files disk' = Loader.files (Rooms.holding "no address here").
Proof.
  split; [reflexivity|].
  exact (load_servers_keeps_a_file_without_addresses Rooms.quiet 999
           "dns_servers.txt" (Rooms.holding "no address here")
           "no address here" eq_refl eq_refl eq_refl).
Defined.

(** X23: when the file is missing and cannot be created, [load_servers]
    does not return: it calls itself from its handler until the
    interpreter refuses, and the [RecursionError] leaves it (the calls
    are made outside the [try]).  No file is written. *)
Theorem load_servers_raises_without_a_place_to_write (host : Loader.Host)
    (depth : nat) (filename : string) (disk : Loader.Disk) :
  Loader.files disk !! Loader.path host filename = None →
  (∀ n, ∃ e, Loader.create_fault host n = Some (e, None)) →
  ∃ disk',
    load_servers host depth filename disk
    = (Loader.Err (Loader.RecursionError host), disk')
    ∧ Loader.files disk' = Loader.files disk.
Proof. exact (load_servers_no_place host depth filename disk). Qed.

Lemma load_servers_raises_without_a_place_to_write_witness :
  Loader.files Rooms.bare !! Loader.path Rooms.read_only "dns_servers.txt"
  = None
  ∧ (∀ n, ∃ e, Loader.create_fault Rooms.read_only n = Some (e, None))
  ∧ ∃ disk',
      load_servers Rooms.read_only 1000 "dns_servers.txt" Rooms.bare
      = (Loader.Err (Loader.RecursionError Rooms.read_only), disk')
      ∧ Loader.files disk' = Loader.files Rooms.bare.
Proof.
  assert (∀ n, ∃ e, Loader.create_fault Rooms.read_only n = Some (e, None))
    as Hfault.
  { intros n. eexists. reflexivity. }
  split; [reflexivity|]. split; [exact Hfault|].
  exact (load_servers_raises_without_a_place_to_write Rooms.read_only 1000
           "dns_servers.txt" Rooms.bare eq_refl Hfault).
Defined.

(** X24: [load_servers] writes to no file but its own, and to that one
    only when it is missing: however the call ends, every other file is
    as before, and so is its own file when it was there. *)
Theorem load_servers_spares_files (host : Loader.Host) (depth : nat)
    (filename : string) (disk : Loader.Disk) :
  plain_disk disk →
  (∀ p, p ≠ Loader.path host filename →
        Loader.files (load_servers host depth filename disk).2 !! p
        = Loader.files disk !! p)
  ∧ (is_Some (Loader.files disk !! Loader.path host filename) →
     Loader.files (load_servers host depth filename disk).2
     = Loader.files disk).
Proof. intros _. apply load_servers_frame. Qed.

Lemma load_servers_spares_files_witness :
  plain_disk (Rooms.holding "no address here")
  ∧ (∀ p, p ≠ Loader.path Rooms.quiet "servers.txt" →
          Loader.files
            (load_servers Rooms.quiet 3 "servers.txt"
               (Rooms.holding "no address here")).2 !! p
          = Loader.files (Rooms.holding "no address here") !! p)
  ∧ (is_Some (Loader.files (Rooms.holding "no address here")
                !! Loader.path Rooms.quiet "servers.txt") →
     Loader.files
       (load_servers Rooms.quiet 3 "servers.txt"
          (Rooms.holding "no address here")).2
     = Loader.files (Rooms.holding "no address here")).
Proof.
  assert (plain_disk (Rooms.holding "no address here")) as Hplain.
  { apply map_Forall_singleton. reflexivity. }
  split; [exact Hplain|].
  exact (load_servers_spares_files Rooms.quiet 3 "servers.txt"
           (Rooms.holding "no address here") Hplain).
Defined.

(** ** The loader and the address check of the probe *)

Section InetFacts.

Lemma digit_val_digit (c : ascii) :
  Pattern.in_range "0" "9" c = true →
  Inet.isdigit c = true
  ∧ Inet.digit_val 10 c = Some (N_of_ascii c - 48)%N
  ∧ (48 ≤ N_of_ascii c ≤ 57)%N.
Proof.
  intros H. apply in_range_true in H. simpl N_of_ascii in H.
  assert (Inet.isdigit c = true) as Hd.
  { unfold Inet.isdigit. cbv zeta. apply andb_true_iff.
    split; apply N.leb_le; lia. }
  split; [exact Hd|]. split; [|lia].
  unfold Inet.digit_val. cbv zeta. rewrite Hd.
  destruct (N_of_ascii c - 48 <? 10)%N eqn:Hlt; [reflexivity|].
  apply N.ltb_ge in Hlt. lia.
Qed.

Lemma strtoul_decimal (a : ascii) (s : string) :
  a ≠ "0"%char → Inet.strtoul (String a s) = Inet.digits 10 0 (String a s).
Proof.
  intros Ha. destruct a as [[] [] [] [] [] [] [] []]; try reflexivity.
  congruence.
Qed.

Lemma strtoul_zero (rest : string) :
  (∀ c, Re.head rest = Some c → c = "."%char) →
  Inet.strtoul (String "0" rest) = (0%N, rest).
Proof.
  intros Hrest. destruct rest as [|c rest]; [reflexivity|].
  rewrite (Hrest c eq_refl). destruct rest as [|h rest]; reflexivity.
Qed.

Lemma digits_stop (acc : N) (rest : string) :
  (∀ c, Re.head rest = Some c → c = "."%char) →
  Inet.digits 10 acc rest = (acc, rest).
Proof.
  intros Hrest. destruct rest as [|c rest]; [reflexivity|].
  rewrite (Hrest c eq_refl). reflexivity.
Qed.

Lemma digits_cons (acc : N) (c : ascii) (s : string) :
  Pattern.in_range "0" "9" c = true →
  Inet.digits 10 acc (String c s)
  = Inet.digits 10 (acc * 10 + (N_of_ascii c - 48))%N s.
Proof.
  intros Hc. destruct (digit_val_digit c Hc) as (_ & Hv & _).
  simpl. rewrite Hv. reflexivity.
Qed.

(** [strtoul] reads a canonical field as the decimal number it is. *)
Lemma strtoul_field (f rest : string) :
  Pattern.octet f = true →
  canonical_field f = true →
  (∀ c, Re.head rest = Some c → c = "."%char) →
  ∃ val,
    Inet.strtoul (f +:+ rest) = (val, rest) ∧ (val ≤ 255)%N
    ∧ ∃ c f', f = String c f' ∧ Inet.isdigit c = true.
Proof.
  intros Ho Hcanon Hrest. destruct (octet_digits f Ho) as [Hd _].
  unfold all_digits in Hd.
  destruct f as [|a [|b [|c [|d f]]]]; try discriminate Ho; simpl in Hd.
  - inversion Hd as [|? ? Ha _]; subst.
    destruct (digit_val_digit a Ha) as (Hda & _ & Hra).
    rewrite append_cons, append_nil.
    destruct (decide (a = "0"%char)) as [->|Hnz].
    + exists 0%N. rewrite strtoul_zero by exact Hrest.
      split; [reflexivity|]. split; [lia|]. eauto.
    + rewrite strtoul_decimal by exact Hnz.
      rewrite digits_cons by exact Ha. rewrite digits_stop by exact Hrest.
      eexists. split; [reflexivity|]. split; [lia|]. eauto.
  - inversion Hd as [|? ? Ha Hd']; subst.
    inversion Hd' as [|? ? Hb _]; subst.
    destruct (digit_val_digit a Ha) as (Hda & _ & Hra).
    destruct (digit_val_digit b Hb) as (_ & _ & Hrb).
    assert (a ≠ "0"%char) as Hnz by (intros ->; discriminate Hcanon).
    rewrite !append_cons, append_nil.
    rewrite strtoul_decimal by exact Hnz.
    rewrite !digits_cons by assumption. rewrite digits_stop by exact Hrest.
    eexists. split; [reflexivity|]. split; [lia|]. eauto.
  - inversion Hd as [|? ? Ha Hd']; subst.
    inversion Hd' as [|? ? Hb Hd'']; subst.
    inversion Hd'' as [|? ? Hc _]; subst.
    destruct (digit_val_digit a Ha) as (Hda & _ & Hra).
    destruct (digit_val_digit b Hb) as (_ & _ & Hrb).
    destruct (digit_val_digit c Hc) as (_ & _ & Hrc).
    assert (a ≠ "0"%char) as Hnz by (intros ->; discriminate Hcanon).
    rewrite !append_cons, append_nil.
    rewrite strtoul_decimal by exact Hnz.
    rewrite !digits_cons by assumption. rewrite digits_stop by exact Hrest.
    eexists. split; [reflexivity|]. split; [|eauto].
    unfold Pattern.octet in Ho.
    rewrite ?orb_true_iff, ?andb_true_iff, ?in_range_true, ?char_eq_true in Ho.
    simpl N_of_ascii in Ho. lia.
Qed.

Lemma loop_cons (room : nat) (bytes : list N) (c : ascii) (s : string) :
  Inet.loop room bytes (String c s)
  = if Inet.isdigit c then
      let '(val, endp) := Inet.strtoul (String c s) in
      if (0xffffffff <? val)%N then None
      else
        match endp with
        | String "." rest =>
            match room with
            | S room' =>
                if (0xff <? val)%N then None
                else Inet.loop room' (bytes ++ [val]) rest
            | O => None
            end
        | _ =>
            if Inet.trailing_ok endp
               && (val <=? Inet.max_last (length bytes))%N
            then Some (Inet.pack bytes val)
            else None
        end
    else None.
Proof. destruct room; reflexivity. Qed.

Lemma loop_field_dot (room : nat) (bytes : list N) (f rest : string) :
  Pattern.octet f = true →
  canonical_field f = true →
  ∃ val,
    Inet.loop (S room) bytes (f +:+ String "." rest)
    = Inet.loop room (bytes ++ [val]) rest.
Proof.
  intros Ho Hcanon.
  destruct (strtoul_field f (String "." rest) Ho Hcanon)
    as (val & Hst & Hval & c & f' & -> & Hc).
  { intros c [= <-]. reflexivity. }
  rewrite append_cons in *. rewrite loop_cons, Hc, Hst.
  exists val.
  rewrite (proj2 (N.ltb_ge _ _)) by lia.
  rewrite (proj2 (N.ltb_ge _ _)) by lia.
  reflexivity.
Qed.

Lemma loop_last_field (room : nat) (bytes : list N) (f : string) :
  Pattern.octet f = true →
  canonical_field f = true →
  length bytes = 3%nat →
  is_Some (Inet.loop room bytes f).
Proof.
  intros Ho Hcanon Hbytes.
  destruct (strtoul_field f "" Ho Hcanon)
    as (val & Hst & Hval & c & f' & -> & Hc).
  { intros c [=]. }
  change (String c f' +:+ "") with (String c (f' +:+ "")) in Hst.
  assert (f' +:+ "" = f') as Hnil.
  { clear. induction f' as [|x f' IH]; [reflexivity|].
    rewrite append_cons, IH. reflexivity. }
  rewrite Hnil in Hst.
  rewrite loop_cons, Hc, Hst.
  rewrite (proj2 (N.ltb_ge _ _)) by lia.
  rewrite Hbytes. simpl.
  rewrite (proj2 (N.leb_le _ _)) by lia. eauto.
Qed.

(** [inet_aton] takes every dotted quad with canonical fields. *)
Lemma inet_aton_canonical (ip : string) :
  Pattern.dotted_quad ip = true →
  canonical ip = true →
  is_Some (Inet.inet_aton ip).
Proof.
  intros Hq Hcanon.
  destruct (dotted_quad_inv ip Hq)
    as (f1 & f2 & f3 & f4 & -> & H1 & H2 & H3 & H4).
  unfold canonical, quad in Hcanon.
  rewrite !fields_digits_dot, fields_digits in Hcanon
    by (eapply proj1, octet_digits; eassumption).
  simpl in Hcanon. rewrite !andb_true_iff in Hcanon.
  destruct Hcanon as (C1 & C2 & C3 & C4 & _).
  unfold Inet.inet_aton, quad.
  destruct (loop_field_dot 2 [] f1
              (f2 +:+ String "." (f3 +:+ String "." f4)) H1 C1) as [v1 ->].
  destruct (loop_field_dot 1 ([] ++ [v1]) f2 (f3 +:+ String "." f4) H2 C2)
    as [v2 ->].
  destruct (loop_field_dot 0 (([] ++ [v1]) ++ [v2]) f3 f4 H3 C3) as [v3 ->].
  apply loop_last_field; [exact H4|exact C4|reflexivity].
Qed.

(** What starts with 08 or 09 is no address for [inet_aton]: the zero
    announces an octal number, and 8 and 9 are no octal digits. *)
Lemma inet_aton_bad_octal_start (c : ascii) (rest : string) :
  c = "8"%char ∨ c = "9"%char →
  Inet.inet_aton (String "0" (String c rest)) = None.
Proof.
  intros [->| ->]; destruct rest as [|h rest]; reflexivity.
Qed.

(** A dotted quad is made of digits and dots: it holds no NUL. *)
Lemma has_nul_append (a b : string) :
  has_nul (a +:+ b) = has_nul a || has_nul b.
Proof.
  induction a as [|c a IH]; [reflexivity|].
  rewrite append_cons. simpl. rewrite IH, orb_assoc. reflexivity.
Qed.

Lemma digits_no_nul (f : string) : all_digits f → has_nul f = false.
Proof.
  unfold all_digits. induction f as [|c f IH]; [reflexivity|].
  simpl. intros Hall. inversion Hall as [|? ? Hc Hrest]; subst.
  rewrite IH by exact Hrest. rewrite orb_false_r.
  apply bool_decide_eq_false_2. intros ->. discriminate Hc.
Qed.

Lemma dotted_quad_no_nul (q : string) :
  Pattern.dotted_quad q = true → has_nul q = false.
Proof.
  intros Hq.
  destruct (dotted_quad_inv q Hq)
    as (f1 & f2 & f3 & f4 & -> & H1 & H2 & H3 & H4).
  assert (∀ s, has_nul (String "." s) = has_nul s) as Hdot
    by (intros s; reflexivity).
  unfold quad.
  rewrite !has_nul_append, !Hdot, !has_nul_append, !Hdot, !has_nul_append,
    !Hdot.
  rewrite !digits_no_nul by (eapply proj1, octet_digits; eassumption).
  reflexivity.
Qed.

End InetFacts.

(** X25: an address [load_servers] can hand over (a dotted quad) whose
    fields have no leading zero passes the check of the probe: when the
    resolver is built, the query for it is sent. *)
Theorem canonical_dotted_quad_is_queried (env : Env)
    (server domain : string) (timeout : Z) (include_firewall : bool)
    (st : State) :
  Pattern.dotted_quad server = true →
  canonical server = true →
  resolver_fault env server timeout = None →
  is_Some (Inet.inet_aton server)
  ∧ wire (test_single_server env server domain timeout include_firewall st).2
    = wire st ++ [(server, domain, timeout)].
Proof.
  intros Hq Hcanon Hbuilt.
  pose proof (inet_aton_canonical server Hq Hcanon) as Hvalid.
  split; [exact Hvalid|].
  apply accepted_address_is_queried.
  split; [apply dotted_quad_no_nul, Hq | split; [exact Hvalid|exact Hbuilt]].
Qed.

Lemma canonical_dotted_quad_is_queried_witness :
  Pattern.dotted_quad "208.67.222.222" = true
  ∧ canonical "208.67.222.222" = true
  ∧ resolver_fault Scenario.silent "208.67.222.222" 3 = None
  ∧ is_Some (Inet.inet_aton "208.67.222.222")
  ∧ wire (test_single_server Scenario.silent "208.67.222.222" "example.com"
            3 false Scenario.fresh).2
    = wire Scenario.fresh ++ [("208.67.222.222", "example.com", 3%Z)].
Proof.
  split; [reflexivity|]. split; [reflexivity|]. split; [reflexivity|].
  exact (canonical_dotted_quad_is_queried Scenario.silent "208.67.222.222"
           "example.com" 3 false Scenario.fresh eq_refl eq_refl eq_refl).
Defined.

(** X26: the loader and the probe do not agree on what an address is.
    A dotted quad that starts with 08 or 09 is taken out of the file by
    [load_servers], and the probe answers invalid ip for it without
    sending a query. *)
Theorem loader_takes_what_the_probe_refuses (env : Env)
    (ip domain : string) (timeout : Z) (include_firewall : bool)
    (st : State) :
  Pattern.dotted_quad ip = true →
  Str.startswith "08" ip || Str.startswith "09" ip = true →
  Re.findall Re.ip_pattern (one_per_line [ip]) = [ip]
  ∧ test_single_server env ip domain timeout include_firewall st
    = (Ret (Spec.encode ip Spec.InvalidAddress), st).
Proof.
  intros Hq Hstart. split.
  - apply scan_one_per_line; [repeat constructor; exact Hq|reflexivity].
  - apply probe_invalid; [apply dotted_quad_no_nul, Hq|].
    destruct ip as [|a [|b rest]]; simpl in Hstart;
      [discriminate Hstart
      |destruct (bool_decide ("0"%char = a)); discriminate Hstart|].
    destruct (bool_decide ("0"%char = a)) eqn:Ha; [|discriminate Hstart].
    apply bool_decide_eq_true in Ha. subst a.
    apply inet_aton_bad_octal_start.
    destruct (bool_decide ("8"%char = b)) eqn:H8.
    + left. apply bool_decide_eq_true in H8. congruence.
    + destruct (bool_decide ("9"%char = b)) eqn:H9; [|discriminate Hstart].
      right. apply bool_decide_eq_true in H9. congruence.
Qed.

Lemma loader_takes_what_the_probe_refuses_witness :
  Pattern.dotted_quad "09.9.9.9" = true
  ∧ Str.startswith "08" "09.9.9.9" || Str.startswith "09" "09.9.9.9" = true
  ∧ Re.findall Re.ip_pattern (one_per_line ["09.9.9.9"]) = ["09.9.9.9"]
  ∧ test_single_server Scenario.resolves_normally "09.9.9.9" "example.com"
      3 false Scenario.fresh
    = (Ret (Spec.encode "09.9.9.9" Spec.InvalidAddress), Scenario.fresh).
Proof.
  split; [reflexivity|]. split; [reflexivity|].
  exact (loader_takes_what_the_probe_refuses Scenario.resolves_normally
           "09.9.9.9" "example.com" 3 false Scenario.fresh eq_refl eq_refl).
Defined.

(** ** The session *)

Section SessionFacts.

Import Session.

Context (host : Loader.Host) (env : Env).

Lemma configure_valid (lines rest : list string) (cfg : Config) :
  configure lines = Some (cfg, rest) → valid_config cfg.
Proof.
  unfold configure.
  destruct (first_choice (number_choice 1 500 100) lines)
    as [[workers l1]|] eqn:H1; [|discriminate].
  apply first_choice_Some in H1 as (? & line1 & _ & _ & H1).
  destruct (first_choice (number_choice 1 10 3) l1)
    as [[timeout l2]|] eqn:H2; [|discriminate].
  apply first_choice_Some in H2 as (? & line2 & _ & _ & H2).
  destruct (first_choice domain_choice l2) as [[domain l3]|] eqn:H3;
    [|discriminate].
  apply first_choice_Some in H3 as (? & line3 & _ & _ & H3).
  destruct (first_choice filter_choice l3) as [[include_firewall l4]|];
    [|discriminate].
  intros [= <- _]. unfold valid_config. simpl.
  split; [apply (number_choice_range 1 500 100 line1); [lia|exact H1]|].
  split; [apply (number_choice_range 1 10 3 line2); [lia|exact H2]|].
  apply (domain_choice_dotted line3 domain H3).
Qed.

(** With servers loaded, the session asks the four questions in turn
    and runs the engine on the answers; when the lines run out before
    the last answer it ends in [EOFError] and the engine is not run. *)
Lemma session_with_servers (depth : nat) (filename : string) (w : World)
    (servers : list string) (d : Loader.Disk) :
  load_servers host depth filename (disk w) = (Loader.Ok servers, d) →
  servers ≠ [] →
  ∃ scr,
    check_dns_servers_of host env depth filename w
    = match configure (Console.keyboard (tty w)) with
      | Some (cfg, rest) =>
          let '(r, st) := check_dns_servers env servers cfg (state w) in
          (match r with
           | Ret report => Ret (working report)
           | Raise e => Raise e
           end,
           {| disk := d;
              tty := {| Console.keyboard := rest; Console.screen := scr |};
              state := st |})
      | None =>
          (Raise Console.EOFError,
           {| disk := d;
              tty := {| Console.keyboard := []; Console.screen := scr |};
              state := state w |})
      end.
Proof.
  intros Hload Hsome.
  unfold check_dns_servers_of, on_disk, on_tty, on_state, configure.
  unfold mbind at 1, Run_bind at 1. rewrite Hload.
  rewrite bool_decide_eq_false_2 by exact Hsome.
  unfold mbind at 1, Run_bind at 1. cbn [tty disk state].
  destruct (get_worker_count_run (tty w)) as [more1 ->].
  destruct (first_choice (number_choice 1 500 100) (Console.keyboard (tty w)))
    as [[workers l1]|]; [|eexists; reflexivity].
  unfold mbind at 1, Run_bind at 1. cbn [tty disk state].
  match goal with
  | |- context [get_timeout ?t] =>
      destruct (get_timeout_run t) as [more2 ->]
  end.
  cbn [Console.keyboard Console.screen].
  destruct (first_choice (number_choice 1 10 3) l1) as [[timeout l2]|];
    [|eexists; reflexivity].
  unfold mbind at 1, Run_bind at 1. cbn [tty disk state].
  match goal with
  | |- context [get_test_domain ?t] =>
      destruct (get_test_domain_run t) as [more3 ->]
  end.
  cbn [Console.keyboard Console.screen].
  destruct (first_choice domain_choice l2) as [[domain l3]|];
    [|eexists; reflexivity].
  unfold mbind at 1, Run_bind at 1. cbn [tty disk state].
  match goal with
  | |- context [get_filter_option ?t] =>
      destruct (get_filter_option_run t) as [more4 ->]
  end.
  cbn [Console.keyboard Console.screen].
  destruct (first_choice filter_choice l3) as [[include_firewall l4]|];
    [|eexists; reflexivity].
  unfold mbind at 1, Run_bind at 1. cbn [tty disk state].
  destruct (check_dns_servers env servers _ (state w)) as [[report|e] st];
    eexists; reflexivity.
Qed.

End SessionFacts.

(** X27: when [load_servers] returns no server, the session ends at
    once with the empty list: no question is asked, no header written,
    no query sent. *)
Theorem session_without_servers (host : Loader.Host) (env : Env)
    (depth : nat) (filename : string) (w : Session.World) :
  plain_disk (Session.disk w) →
  (load_servers host depth filename (Session.disk w)).1 = Loader.Ok [] →
  (check_dns_servers_of host env depth filename w).1 = Ret []
  ∧ Session.tty (check_dns_servers_of host env depth filename w).2
    = Session.tty w
  ∧ Session.state (check_dns_servers_of host env depth filename w).2
    = printed "no servers to test. exiting." (Session.state w).
Proof.
  intros _ Hload.
  unfold check_dns_servers_of, Session.on_disk, Session.on_state.
  unfold mbind, Session.Run_bind.
  destruct (load_servers host depth filename (Session.disk w)) as [r d].
  simpl in Hload. subst r. simpl. repeat split.
Qed.

Lemma session_without_servers_witness :
  plain_disk (Rooms.holding "8.8.8.8")
  ∧ (check_dns_servers_of Rooms.locked Scenario.intercepted 1000
       "dns_servers.txt"
       {| Session.disk := Rooms.holding "8.8.8.8";
          Session.tty := {| Console.keyboard := ["50"; "5"; "1"; "2"];
                            Console.screen := [] |};
          Session.state := Scenario.fresh |}).1 = Ret []
  ∧ Session.tty
      (check_dns_servers_of Rooms.locked Scenario.intercepted 1000
         "dns_servers.txt"
         {| Session.disk := Rooms.holding "8.8.8.8";
            Session.tty := {| Console.keyboard := ["50"; "5"; "1"; "2"];
                              Console.screen := [] |};
            Session.state := Scenario.fresh |}).2
    = {| Console.keyboard := ["50"; "5"; "1"; "2"]; Console.screen := [] |}
  ∧ Session.state
      (check_dns_servers_of Rooms.locked Scenario.intercepted 1000
         "dns_servers.txt"
         {| Session.disk := Rooms.holding "8.8.8.8";
            Session.tty := {| Console.keyboard := ["50"; "5"; "1"; "2"];
                              Console.screen := [] |};
            Session.state := Scenario.fresh |}).2
    = printed "no servers to test. exiting." Scenario.fresh.
Proof.
  assert (plain_disk (Rooms.holding "8.8.8.8")) as Hplain.
  { apply map_Forall_singleton. reflexivity. }
  split; [exact Hplain|].
  exact (session_without_servers Rooms.locked Scenario.intercepted 1000
           "dns_servers.txt"
           {| Session.disk := Rooms.holding "8.8.8.8";
              Session.tty := {| Console.keyboard := ["50"; "5"; "1"; "2"];
                                Console.screen := [] |};
              Session.state := Scenario.fresh |} Hplain eq_refl).
Defined.

(** X28: with servers loaded, the session asks for the workers, the
    timeout, the domain and the mode, in this order, and runs the engine
    on these servers with a configuration that is valid: workers from 1
    to 500, timeout from 1 to 10, a domain with a dot.  It returns the
    list [working] of the engine.  When the lines run out before the
    last answer the session ends in [EOFError], and nothing was tested
    or written. *)
Theorem session_hands_over_a_valid_configuration (host : Loader.Host)
    (env : Env) (depth : nat) (filename : string) (w : Session.World)
    (servers : list string) :
  typed (Session.tty w) →
  plain_disk (Session.disk w) →
  (load_servers host depth filename (Session.disk w)).1 = Loader.Ok servers →
  servers ≠ [] →
  match configure (Console.keyboard (Session.tty w)) with
  | Some (cfg, rest) =>
      valid_config cfg
      ∧ ∃ report st,
          check_dns_servers env servers cfg (Session.state w)
          = (Ret report, st)
          ∧ (check_dns_servers_of host env depth filename w).1
            = Ret (working report)
          ∧ Session.state (check_dns_servers_of host env depth filename w).2
            = st
          ∧ Console.keyboard
              (Session.tty (check_dns_servers_of host env depth filename w).2)
            = rest
  | None =>
      (check_dns_servers_of host env depth filename w).1
      = Raise Console.EOFError
      ∧ Session.state (check_dns_servers_of host env depth filename w).2
        = Session.state w
  end.
Proof.
  intros _ _ Hload Hsome.
  destruct (load_servers host depth filename (Session.disk w)) as [r d]
    eqn:Hrun.
  simpl in Hload. subst r.
  destruct (session_with_servers host env depth filename w servers d
              Hrun Hsome) as [scr ->].
  destruct (configure (Console.keyboard (Session.tty w))) as [[cfg rest]|]
    eqn:Hcfg; [|split; reflexivity].
  split; [exact (configure_valid _ _ _ Hcfg)|].
  destruct (check_dns_servers_run env servers cfg (Session.state w))
    as (report & st & Hengine & _).
  exists report, st. rewrite Hengine. repeat split.
Qed.

Lemma session_hands_over_a_valid_configuration_witness :
  typed {| Console.keyboard := ["50"; "eleven"; "5"; "1"; "2"; "bye"];
           Console.screen := [] |}
  ∧ plain_disk (Rooms.holding "8.8.8.8, 1.1.1.1")
  ∧ match configure ["50"; "eleven"; "5"; "1"; "2"; "bye"] with
    | Some (cfg, rest) =>
        valid_config cfg
        ∧ ∃ report st,
            check_dns_servers Scenario.intercepted ["8.8.8.8"; "1.1.1.1"] cfg
              Scenario.fresh
            = (Ret report, st)
            ∧ (check_dns_servers_of Rooms.quiet Scenario.intercepted 1000
                 "dns_servers.txt"
                 {| Session.disk := Rooms.holding "8.8.8.8, 1.1.1.1";
                    Session.tty :=
                      {| Console.keyboard :=
                           ["50"; "eleven"; "5"; "1"; "2"; "bye"];
                         Console.screen := [] |};
                    Session.state := Scenario.fresh |}).1
              = Ret (working report)
            ∧ Session.state
                (check_dns_servers_of Rooms.quiet Scenario.intercepted 1000
                   "dns_servers.txt"
                   {| Session.disk := Rooms.holding "8.8.8.8, 1.1.1.1";
                      Session.tty :=
                        {| Console.keyboard :=
                             ["50"; "eleven"; "5"; "1"; "2"; "bye"];
                           Console.screen := [] |};
                      Session.state := Scenario.fresh |}).2
              = st
            ∧ Console.keyboard
                (Session.tty
                   (check_dns_servers_of Rooms.quiet Scenario.intercepted 1000
                      "dns_servers.txt"
                      {| Session.disk := Rooms.holding "8.8.8.8, 1.1.1.1";
                         Session.tty :=
                           {| Console.keyboard :=
                                ["50"; "eleven"; "5"; "1"; "2"; "bye"];
                              Console.screen := [] |};
                         Session.state := Scenario.fresh |}).2)
              = rest
    | None =>
        (check_dns_servers_of Rooms.quiet Scenario.intercepted 1000
           "dns_servers.txt"
           {| Session.disk := Rooms.holding "8.8.8.8, 1.1.1.1";
              Session.tty :=
                {| Console.keyboard := ["50"; "eleven"; "5"; "1"; "2"; "bye"];
                   Console.screen := [] |};
              Session.state := Scenario.fresh |}).1
        = Raise Console.EOFError
        ∧ Session.state
            (check_dns_servers_of Rooms.quiet Scenario.intercepted 1000
               "dns_servers.txt"
               {| Session.disk := Rooms.holding "8.8.8.8, 1.1.1.1";
                  Session.tty :=
                    {| Console.keyboard :=
                         ["50"; "eleven"; "5"; "1"; "2"; "bye"];
                       Console.screen := [] |};
                  Session.state := Scenario.fresh |}).2
          = Scenario.fresh
    end.
Proof.
  assert (typed {| Console.keyboard :=
                     ["50"; "eleven"; "5"; "1"; "2"; "bye"];
                   Console.screen := [] |}) as Htyped.
  { repeat constructor. }
  assert (plain_disk (Rooms.holding "8.8.8.8, 1.1.1.1")) as Hplain.
  { apply map_Forall_singleton. reflexivity. }
  split; [exact Htyped|]. split; [exact Hplain|].
  apply (session_hands_over_a_valid_configuration Rooms.quiet
           Scenario.intercepted 1000 "dns_servers.txt"
           {| Session.disk := Rooms.holding "8.8.8.8, 1.1.1.1";
              Session.tty :=
                {| Console.keyboard := ["50"; "eleven"; "5"; "1"; "2"; "bye"];
                   Console.screen := [] |};
              Session.state := Scenario.fresh |}
           ["8.8.8.8"; "1.1.1.1"] Htyped Hplain eq_refl).
  discriminate.
Defined.

(** X29: [main] lets no exception through: it returns, or it prints the
    error and exits with status 1. *)
Theorem main_returns_or_exits_with_1 (host : Loader.Host) (env : Env)
    (depth : nat) (w : Session.World) :
  (main host env depth w).1 = Session.Returned
  ∨ ∃ e,
      (main host env depth w).1 = Session.Exited 1
      ∧ last (stdout (Session.state (main host env depth w).2))
        = Some ("Error: " +:+ str e).
Proof.
  unfold main.
  match goal with
  | |- context [match ?run w with _ => _ end] =>
      destruct (run w) as [[found|e] w']
  end.
  - left. reflexivity.
  - right. exists e. rewrite isinstance_Exception. simpl.
    split; [reflexivity|apply last_snoc].
Qed.

(** X30: [main] asks for one more line when the session is over.  With
    a line left it returns; with none left it ends like a failed run,
    with the error of the end of input printed and status 1, although
    the session returned. *)
Theorem main_needs_a_last_line (host : Loader.Host) (env : Env) (depth : nat)
    (w : Session.World) (found : list (string * option Q)) :
  (check_dns_servers_of host env depth "dns_servers.txt" w).1 = Ret found →
  match Console.keyboard
          (Session.tty
             (check_dns_servers_of host env depth "dns_servers.txt" w).2) with
  | [] =>
      (main host env depth w).1 = Session.Exited 1
      ∧ last (stdout (Session.state (main host env depth w).2))
        = Some "Error: EOF when reading a line"
  | _ :: rest =>
      (main host env depth w).1 = Session.Returned
      ∧ Console.keyboard (Session.tty (main host env depth w).2) = rest
  end.
Proof.
  intros Hrun. unfold main, mbind, Session.Run_bind.
  destruct (check_dns_servers_of host env depth "dns_servers.txt" w)
    as [r w1].
  simpl in Hrun. subst r. simpl.
  unfold Session.on_tty, Console.input. simpl.
  destruct (Console.keyboard (Session.tty w1)) as [|line rest]; simpl.
  - split; [reflexivity|apply last_snoc].
  - split; reflexivity.
Qed.

Lemma main_needs_a_last_line_witness :
  (check_dns_servers_of Rooms.locked Scenario.intercepted 1000
     "dns_servers.txt"
     {| Session.disk := Rooms.holding "8.8.8.8";
        Session.tty := {| Console.keyboard := []; Console.screen := [] |};
        Session.state := Scenario.fresh |}).1 = Ret []
  ∧ (main Rooms.locked Scenario.intercepted 1000
       {| Session.disk := Rooms.holding "8.8.8.8";
          Session.tty := {| Console.keyboard := []; Console.screen := [] |};
          Session.state := Scenario.fresh |}).1 = Session.Exited 1
  ∧ last (stdout
            (Session.state
               (main Rooms.locked Scenario.intercepted 1000
                  {| Session.disk := Rooms.holding "8.8.8.8";
                     Session.tty :=
                       {| Console.keyboard := []; Console.screen := [] |};
                     Session.state := Scenario.fresh |}).2))
    = Some "Error: EOF when reading a line".
Proof.
  split; [reflexivity|].
  exact (main_needs_a_last_line Rooms.locked Scenario.intercepted 1000
           {| Session.disk := Rooms.holding "8.8.8.8";
              Session.tty := {| Console.keyboard := []; Console.screen := [] |};
              Session.state := Scenario.fresh |} [] eq_refl).
Defined.
